(** * Weekly chore calendar: calendar engine and resource routes

    A shallow embedding of the client-side calendar functions of
    [src/App.tsx] ([getWeekStart], [monthMatrix]) and of the Express
    route handlers of the backend ([middleware/auth.js],
    [routes/families.js], [routes/people.js], [routes/chores.js],
    [routes/assignments.js]) over the schema of [db/database.js]; further
    the login routes ([routes/auth.js]), the token handling of the API
    client ([src/api/client.ts]), and the date keys, the navigation, the
    views and the cache updates of [src/App.tsx]. *)

From Stdlib Require Import ZArith List Bool Lia String Ascii.
From Stdlib Require Import DecimalString DecimalZ.
Import ListNotations.
Open Scope Z_scope.

(** ** The platform's [Date] object

    A [Date] holds a time value: the milliseconds since the epoch in
    UTC, or [NaN] for an invalid date.  The getters and setters used by
    the application work on local time, which the host derives from its
    time zone.  The zone is a parameter of the model, given as the
    [LocalTZA(t, isUTC)] of the language standard: the offset in force
    at the UTC time [t], or the offset by which the local time [t] is
    read (a local time that a clock change skips or repeats is read with
    the offset before the change).  The functions follow the abstract
    operations of the standard ([Day], [TimeWithinDay], [WeekDay],
    [MakeDay], [MakeDate], [MakeTime], [LocalTime], [UTC], [TimeClip]). *)
Module JSDate.

Definition msPerDay : Z := 86400000.

Definition Day (t : Z) : Z := t / msPerDay.
Definition TimeWithinDay (t : Z) : Z := t mod msPerDay.

(** 1 January 1970 (day 0) was a Thursday (4). *)
Definition WeekDay (t : Z) : Z := (Day t + 4) mod 7.

(** Day number of the proleptic Gregorian date [y]-[m]-[d], [m] in 1..12;
    linear in [d]. *)
Definition days_from_civil (y m d : Z) : Z :=
  let y' := if m <=? 2 then y - 1 else y in
  let era := y' / 400 in
  let yoe := y' mod 400 in
  let doy := (153 * (if 2 <? m then m - 3 else m + 9) + 2) / 5 + d - 1 in
  let doe := yoe * 365 + yoe / 4 - yoe / 100 + doy in
  era * 146097 + doe - 719468.

(** Year, month (1..12) and day of month (1..31) of a day number. *)
Definition civil_from_days (z : Z) : Z * Z * Z :=
  let z' := z + 719468 in
  let era := z' / 146097 in
  let doe := z' mod 146097 in
  let yoe := (doe - doe / 1460 + doe / 36524 - doe / 146096) / 365 in
  let y := yoe + era * 400 in
  let doy := doe - (365 * yoe + yoe / 4 - yoe / 100) in
  let mp := (5 * doy + 2) / 153 in
  let d := doy - (153 * mp + 2) / 5 + 1 in
  let m := if mp <? 10 then mp + 3 else mp - 9 in
  ((if m <=? 2 then y + 1 else y), m, d).

Definition YearFromTime (t : Z) : Z := fst (fst (civil_from_days (Day t))).
(** Months are numbered 0..11. *)
Definition MonthFromTime (t : Z) : Z := snd (fst (civil_from_days (Day t))) - 1.
Definition DateFromTime (t : Z) : Z := snd (civil_from_days (Day t)).

(** [MakeDay]: the month may lie outside 0..11 and the date outside the
    month; both carry over. *)
Definition MakeDay (year month date : Z) : Z :=
  let ym := year + month / 12 in
  let mn := month mod 12 in
  days_from_civil ym (mn + 1) 1 + date - 1.

Definition MakeTime (hour min sec ms : Z) : Z :=
  hour * 3600000 + min * 60000 + sec * 1000 + ms.

Definition MakeDate (day time : Z) : Z := day * msPerDay + time.

(** An integral number of the program, or [NaN] ([None]). *)
Definition Number : Type := option Z.

(** [x + y] and [x - y]: [NaN] if an operand is. *)
Definition add (x y : Number) : Number :=
  match x, y with
  | Some a, Some b => Some (a + b)
  | _, _ => None
  end.

Definition sub (x y : Number) : Number :=
  match x, y with
  | Some a, Some b => Some (a - b)
  | _, _ => None
  end.

(** [TimeClip]: a time value is at most 8.64e15 ms from the epoch,
    100 000 000 days to either side; beyond that it is [NaN]. *)
Definition maxTime : Z := 8640000000000000.

Definition TimeClip (time : Z) : Number :=
  if Z.abs time <=? maxTime then Some time else None.

(** The time zone of the host: [tz t true] is the offset of local time
    at the UTC time [t], [tz t false] the offset by which the local
    time [t] is read. *)
Definition TimeZone : Type := Z -> bool -> Z.

Definition LocalTime (tz : TimeZone) (t : Z) : Z := t + tz t true.
Definition UTC (tz : TimeZone) (t : Z) : Z := t - tz t false.

(** The time value of a [Date] object. *)
Definition Date : Type := Number.

Definition valueOf (d : Date) : Number := d.

Definition getFullYear (tz : TimeZone) (d : Date) : Number :=
  option_map (fun t => YearFromTime (LocalTime tz t)) d.
Definition getMonth (tz : TimeZone) (d : Date) : Number :=
  option_map (fun t => MonthFromTime (LocalTime tz t)) d.
Definition getDate (tz : TimeZone) (d : Date) : Number :=
  option_map (fun t => DateFromTime (LocalTime tz t)) d.
Definition getDay (tz : TimeZone) (d : Date) : Number :=
  option_map (fun t => WeekDay (LocalTime tz t)) d.

(** [d.setDate(date)]: the date of the month is replaced in the local
    time of [d], the result read back as a local time and clipped. *)
Definition setDate (tz : TimeZone) (d : Date) (date : Number) : Date :=
  match d, date with
  | Some t, Some dt =>
      let t := LocalTime tz t in
      let newDate :=
        MakeDate (MakeDay (YearFromTime t) (MonthFromTime t) dt) (TimeWithinDay t) in
      TimeClip (UTC tz newDate)
  | _, _ => None
  end.

(** [d.setHours(h, m, s, ms)] *)
Definition setHours (tz : TimeZone) (d : Date) (h m s ms : Z) : Date :=
  match d with
  | Some t =>
      let t := LocalTime tz t in
      TimeClip (UTC tz (MakeDate (Day t) (MakeTime h m s ms)))
  | None => None
  end.

(** [new Date(year, month, date)]: local midnight of that day; a year
    in 0..99 stands for 1900 + year. *)
Definition new_Date (tz : TimeZone) (year month : Number) (date : Z) : Date :=
  match year, month with
  | Some y, Some m =>
      let yr := if (0 <=? y) && (y <=? 99) then 1900 + y else y in
      TimeClip (UTC tz (MakeDate (MakeDay yr m date) (MakeTime 0 0 0 0)))
  | _, _ => None
  end.

End JSDate.

(** ** Calendar engine ([src/App.tsx]) *)
Module Calendar.
Import JSDate.

(** [getWeekStart], App.tsx lines 21-29. *)
Definition getWeekStart (tz : TimeZone) (date : Date) : Date :=
  let d := date in
  let dayOfWeek := getDay tz d in
  let d := setDate tz d (sub (getDate tz d) dayOfWeek) in
  let d := setHours tz d 0 0 0 0 in
  d.

(** The inner [for] loop of [monthMatrix]: pushes a copy of [current] and
    advances it by one day, [n] times.  Returns the week and [current]. *)
Fixpoint fill_week (tz : TimeZone) (n : nat) (current : Date) (week : list Date)
  : list Date * Date :=
  match n with
  | O => (week, current)
  | S n' =>
      let week := week ++ [current] in
      let current := setDate tz current (add (getDate tz current) (Some 1)) in
      fill_week tz n' current week
  end.

(** [week[6] >= endOfMonth] compares the time values; with a missing
    element or an invalid date it is false. *)
Definition reaches (week : list Date) (endOfMonth : Date) : bool :=
  match nth_error week 6 with
  | Some w6 =>
      match valueOf w6, valueOf endOfMonth with
      | Some a, Some e => e <=? a
      | _, _ => false
      end
  | None => false
  end.

(** The [while (true)] loop of [monthMatrix]; [fuel] bounds the number of
    rows, [None] means the bound was hit before the [break]. *)
Fixpoint month_loop (tz : TimeZone) (fuel : nat) (current endOfMonth : Date)
  (weeks : list (list Date)) : option (list (list Date)) :=
  match fuel with
  | O => None
  | S fuel' =>
      let '(week, current) := fill_week tz 7 current [] in
      let weeks := weeks ++ [week] in
      if reaches week endOfMonth then Some weeks
      else month_loop tz fuel' current endOfMonth weeks
  end.

(** [monthMatrix], App.tsx lines 256-280. *)
Definition monthMatrix (tz : TimeZone) (fuel : nat) (currentMonth : Date)
  : option (list (list Date)) :=
  let firstOfMonth :=
    new_Date tz (getFullYear tz currentMonth) (getMonth tz currentMonth) 1 in
  let start := getWeekStart tz firstOfMonth in
  let endOfMonth :=
    new_Date tz (getFullYear tz currentMonth)
      (add (getMonth tz currentMonth) (Some 1)) 0 in
  month_loop tz fuel start endOfMonth [].

End Calendar.

(** ** String operations of the platform used by the routes

    Strings are byte strings; case mapping and white space are the ASCII
    ones. *)
Module JSString.
Open Scope string_scope.

(** The class [\s] and the characters removed by [trim], on ASCII:
    tab, line feed, vertical tab, form feed, carriage return, space. *)
Definition is_space (c : ascii) : bool :=
  let n := nat_of_ascii c in
  (Nat.eqb n 9 || Nat.eqb n 10 || Nat.eqb n 11 || Nat.eqb n 12
   || Nat.eqb n 13 || Nat.eqb n 32)%bool.

Fixpoint trimStart (s : string) : string :=
  match s with
  | EmptyString => EmptyString
  | String c s' => if is_space c then trimStart s' else s
  end.

Fixpoint rev_append (s acc : string) : string :=
  match s with
  | EmptyString => acc
  | String c s' => rev_append s' (String c acc)
  end.

Definition reverse (s : string) : string := rev_append s EmptyString.

(** [s.trim()] *)
Definition trim (s : string) : string :=
  reverse (trimStart (reverse (trimStart s))).

Definition lower (c : ascii) : ascii :=
  let n := nat_of_ascii c in
  if (Nat.leb 65 n && Nat.leb n 90)%bool then ascii_of_nat (n + 32) else c.

(** [s.toLowerCase()], also the store's [LOWER]. *)
Fixpoint toLowerCase (s : string) : string :=
  match s with
  | EmptyString => EmptyString
  | String c s' => String (lower c) (toLowerCase s')
  end.

(** [s.replace(/\s+/g, '-')]: every maximal run of white space becomes
    one dash.  [in_run] tells that the previous character was white. *)
Fixpoint replace_spaces (in_run : bool) (s : string) : string :=
  match s with
  | EmptyString => EmptyString
  | String c s' =>
      if is_space c
      then if in_run then replace_spaces true s'
           else String "-" (replace_spaces true s')
      else String c (replace_spaces false s')
  end.

(** [name.toLowerCase().replace(/\s+/g, '-')] *)
Definition slug (s : string) : string := replace_spaces false (toLowerCase s).

Definition digit36 (n : N) : ascii :=
  if (n <? 10)%N then ascii_of_N (48 + n) else ascii_of_N (87 + n).

Fixpoint toString36_aux (fuel : nat) (n : N) (acc : string) : string :=
  match fuel with
  | O => acc
  | S fuel' =>
      let acc := String (digit36 (n mod 36)) acc in
      if (n / 36 =? 0)%N then acc else toString36_aux fuel' (n / 36) acc
  end.

(** [n.toString(36)] for a non-negative integer. *)
Definition toString36 (n : N) : string :=
  toString36_aux (S (N.to_nat (N.log2 n))) n EmptyString.

(** The decimal text of an integer, as a template literal prints it. *)
Definition ofNumber (z : Z) : string := NilZero.string_of_int (Z.to_int z).

(** Truthiness of a body field that is a string or absent. *)
Definition truthy (x : option string) : bool :=
  match x with
  | None => false
  | Some s => negb (String.eqb s "")
  end.

(** The string a present field holds ([""] when absent; only read after
    a truthiness test). *)
Definition str (x : option string) : string :=
  match x with Some s => s | None => "" end.

(** [x === undefined] for a numeric body field, and the number it holds
    (read only after that test). *)
Definition is_undefined (x : option Z) : bool :=
  match x with Some _ => false | None => true end.
Definition num (x : option Z) : Z :=
  match x with Some z => z | None => 0%Z end.

End JSString.

(** ** The record store ([db/database.js])

    Tables are lists of rows in insertion order.  Statements run against
    the schema's constraints: primary keys, the [UNIQUE] constraints and
    the foreign keys, with [ON DELETE CASCADE] for deletions.  A row that
    violates several constraints is reported with the first of them in
    the order primary key, unique, foreign key; no statement below rests
    on that order.  [NOT NULL] holds by the types of the fields.  The
    [created_at] columns, which no route reads or writes, are left out. *)
Module Family.
Record row := mk { id : string; name : string }.
End Family.

Module Admin.
Record row := mk
  { id : string; family_id : string; email : string; password_hash : string }.
End Admin.

Module Person.
Record row := mk
  { id : string; family_id : string; name : string; email : string;
    phone : option string; color : string }.
End Person.

Module Chore.
Record row := mk { id : string; family_id : string; label : string }.
End Chore.

Module Assignment.
Record row := mk
  { id : string; family_id : string; person_id : string; chore_id : string;
    week_start_iso : string; day_index : Z }.
End Assignment.

Module Store.
Open Scope string_scope.
Import JSString.

Record database := mkDb
  { families : list Family.row;
    admins : list Admin.row;
    people : list Person.row;
    chores : list Chore.row;
    assignments : list Assignment.row }.

Definition empty : database := mkDb [] [] [] [] [].

(** Error codes of a failed statement. *)
Inductive sqlite_error :=
| SQLITE_CONSTRAINT_PRIMARYKEY
| SQLITE_CONSTRAINT_UNIQUE
| SQLITE_CONSTRAINT_FOREIGNKEY.

(** A statement either fails with a code or yields the new store. *)
Definition stmt : Type := sum sqlite_error database.

Definition bind (m : stmt) (k : database -> stmt) : stmt :=
  match m with
  | inl e => inl e
  | inr db => k db
  end.

Definition family_exists (db : database) (fid : string) : bool :=
  existsb (fun f => Family.id f =? fid) (families db).

(** [SELECT * FROM t WHERE id = ?] with [.get]: the first matching row. *)
Definition chore_by_id (db : database) (cid : string) : option Chore.row :=
  find (fun c => Chore.id c =? cid) (chores db).
Definition person_by_id (db : database) (pid : string) : option Person.row :=
  find (fun p => Person.id p =? pid) (people db).
Definition assignment_by_id (db : database) (aid : string)
  : option Assignment.row :=
  find (fun a => Assignment.id a =? aid) (assignments db).

(** [... WHERE id = ? AND family_id = ?] *)
Definition person_in_family (db : database) (pid fid : string)
  : option Person.row :=
  find (fun p => (Person.id p =? pid) && (Person.family_id p =? fid))%bool
       (people db).
Definition chore_in_family (db : database) (cid fid : string)
  : option Chore.row :=
  find (fun c => (Chore.id c =? cid) && (Chore.family_id c =? fid))%bool
       (chores db).

(** The composite key of the assignments table's [UNIQUE] constraint. *)
Definition same_key (fid pid week : string) (day : Z) (cid : string)
  (a : Assignment.row) : bool :=
  ((Assignment.family_id a =? fid) && (Assignment.person_id a =? pid)
   && (Assignment.week_start_iso a =? week)
   && (Assignment.day_index a =? day)%Z
   && (Assignment.chore_id a =? cid))%bool.

(** [SELECT * FROM assignments WHERE family_id = ? AND person_id = ? AND
    week_start_iso = ? AND day_index = ? AND chore_id = ?] *)
Definition assignment_by_key (db : database) (fid pid week : string)
  (day : Z) (cid : string) : option Assignment.row :=
  find (same_key fid pid week day cid) (assignments db).

(** [... WHERE family_id = ? AND LOWER(label) = LOWER(?)] *)
Definition chore_by_label (db : database) (fid label : string)
  : option Chore.row :=
  find (fun c => (Chore.family_id c =? fid)
                 && (toLowerCase (Chore.label c) =? toLowerCase label))%bool
       (chores db).

(** [... AND id != ?] *)
Definition other_chore_by_label (db : database) (fid label cid : string)
  : option Chore.row :=
  find (fun c => (Chore.family_id c =? fid)
                 && (toLowerCase (Chore.label c) =? toLowerCase label)
                 && negb (Chore.id c =? cid))%bool
       (chores db).

(** [SELECT COUNT( * ) FROM t WHERE family_id = ?] *)
Definition count_admins (db : database) (fid : string) : Z :=
  Z.of_nat (List.length (filter (fun a => Admin.family_id a =? fid) (admins db))).
Definition count_people (db : database) (fid : string) : Z :=
  Z.of_nat (List.length (filter (fun p => Person.family_id p =? fid) (people db))).

(** [INSERT INTO families]: primary key. *)
Definition insert_family (r : Family.row) (db : database) : stmt :=
  if existsb (fun f => Family.id f =? Family.id r) (families db)
  then inl SQLITE_CONSTRAINT_PRIMARYKEY
  else inr (mkDb (families db ++ [r]) (admins db) (people db) (chores db)
                 (assignments db)).

(** [INSERT INTO admins]: primary key, [UNIQUE(family_id, email)],
    foreign key to the family. *)
Definition insert_admin (r : Admin.row) (db : database) : stmt :=
  if existsb (fun a => Admin.id a =? Admin.id r) (admins db)
  then inl SQLITE_CONSTRAINT_PRIMARYKEY
  else if existsb (fun a => (Admin.family_id a =? Admin.family_id r)
                            && (Admin.email a =? Admin.email r))%bool
                  (admins db)
  then inl SQLITE_CONSTRAINT_UNIQUE
  else if negb (family_exists db (Admin.family_id r))
  then inl SQLITE_CONSTRAINT_FOREIGNKEY
  else inr (mkDb (families db) (admins db ++ [r]) (people db) (chores db)
                 (assignments db)).

(** [INSERT INTO people]: primary key, [UNIQUE(family_id, email)],
    foreign key to the family. *)
Definition insert_person (r : Person.row) (db : database) : stmt :=
  if existsb (fun p => Person.id p =? Person.id r) (people db)
  then inl SQLITE_CONSTRAINT_PRIMARYKEY
  else if existsb (fun p => (Person.family_id p =? Person.family_id r)
                            && (Person.email p =? Person.email r))%bool
                  (people db)
  then inl SQLITE_CONSTRAINT_UNIQUE
  else if negb (family_exists db (Person.family_id r))
  then inl SQLITE_CONSTRAINT_FOREIGNKEY
  else inr (mkDb (families db) (admins db) (people db ++ [r]) (chores db)
                 (assignments db)).

(** [INSERT INTO chores]: primary key, foreign key to the family. *)
Definition insert_chore (r : Chore.row) (db : database) : stmt :=
  if existsb (fun c => Chore.id c =? Chore.id r) (chores db)
  then inl SQLITE_CONSTRAINT_PRIMARYKEY
  else if negb (family_exists db (Chore.family_id r))
  then inl SQLITE_CONSTRAINT_FOREIGNKEY
  else inr (mkDb (families db) (admins db) (people db) (chores db ++ [r])
                 (assignments db)).

(** [INSERT INTO assignments]: primary key, the five-column [UNIQUE]
    constraint, foreign keys to family, person and chore. *)
Definition insert_assignment (r : Assignment.row) (db : database) : stmt :=
  if existsb (fun a => Assignment.id a =? Assignment.id r) (assignments db)
  then inl SQLITE_CONSTRAINT_PRIMARYKEY
  else if existsb (same_key (Assignment.family_id r) (Assignment.person_id r)
                            (Assignment.week_start_iso r)
                            (Assignment.day_index r) (Assignment.chore_id r))
                  (assignments db)
  then inl SQLITE_CONSTRAINT_UNIQUE
  else if negb (family_exists db (Assignment.family_id r)
                && existsb (fun p => Person.id p =? Assignment.person_id r)
                           (people db)
                && existsb (fun c => Chore.id c =? Assignment.chore_id r)
                           (chores db))%bool
  then inl SQLITE_CONSTRAINT_FOREIGNKEY
  else inr (mkDb (families db) (admins db) (people db) (chores db)
                 (assignments db ++ [r])).

(** [UPDATE chores SET label = ? WHERE id = ?] *)
Definition update_chore (cid label : string) (db : database) : stmt :=
  inr (mkDb (families db) (admins db) (people db)
            (map (fun c => if Chore.id c =? cid
                           then Chore.mk (Chore.id c) (Chore.family_id c) label
                           else c) (chores db))
            (assignments db)).

(** [UPDATE people SET name = ?, email = ?, phone = ?, color = ? WHERE
    id = ?]: [UNIQUE(family_id, email)] against the other rows. *)
Definition update_person (pid name email : string) (phone : option string)
  (color : string) (db : database) : stmt :=
  if existsb (fun p => (Person.id p =? pid)
                && existsb (fun q => negb (Person.id q =? pid)
                                     && (Person.family_id q =? Person.family_id p)
                                     && (Person.email q =? email))
                           (people db))%bool
             (people db)
  then inl SQLITE_CONSTRAINT_UNIQUE
  else inr (mkDb (families db) (admins db)
                 (map (fun p => if Person.id p =? pid
                                then Person.mk (Person.id p) (Person.family_id p)
                                               name email phone color
                                else p) (people db))
                 (chores db) (assignments db)).

(** [DELETE FROM chores WHERE id = ?], cascading to the assignments. *)
Definition delete_chore (cid : string) (db : database) : stmt :=
  inr (mkDb (families db) (admins db) (people db)
            (filter (fun c => negb (Chore.id c =? cid)) (chores db))
            (filter (fun a => negb (Assignment.chore_id a =? cid))
                    (assignments db))).

(** [DELETE FROM people WHERE id = ?], cascading to the assignments. *)
Definition delete_person (pid : string) (db : database) : stmt :=
  inr (mkDb (families db) (admins db)
            (filter (fun p => negb (Person.id p =? pid)) (people db))
            (chores db)
            (filter (fun a => negb (Assignment.person_id a =? pid))
                    (assignments db))).

(** [DELETE FROM assignments WHERE id = ?] *)
Definition delete_assignment (aid : string) (db : database) : stmt :=
  inr (mkDb (families db) (admins db) (people db) (chores db)
            (filter (fun a => negb (Assignment.id a =? aid)) (assignments db))).

(** [DELETE FROM admins WHERE id = ? AND family_id = ?] *)
Definition delete_admin (aid fid : string) (db : database) : stmt :=
  inr (mkDb (families db)
            (filter (fun a => negb ((Admin.id a =? aid)
                                    && (Admin.family_id a =? fid)))%bool
                    (admins db))
            (people db) (chores db) (assignments db)).

(** [db.transaction(f)()]: all of [f]'s statements or none. *)
Definition transaction (f : database -> stmt) (db : database) : stmt := f db.

End Store.

(** ** Requests, tokens and responses *)
Module Http.
Open Scope string_scope.

(** The claims a session token carries ([generateToken] in
    [routes/auth.js] and [routes/families.js]): an admin token has
    [adminId], a member token has [personId]. *)
Record token_payload := mkUser
  { adminId : option string;
    personId : option string;
    familyId : string;
    type : string }.

(** The JSON bodies the routes send. *)
Inductive json_body :=
| Error (error : string)                       (* { error } *)
| Message (message : string)                   (* { message } *)
| ChoreRow (chore : option Chore.row)
| ChoreRows (chores : list Chore.row)
| PersonRow (person : option Person.row)
| PersonRows (people : list Person.row)
| AssignmentRow (assignment : option Assignment.row)
| AssignmentRows (assignments : list Assignment.row)
| CreatedAssignments (assignments : list (option Assignment.row))
| FamilyCreated (token : string) (id name : string)
    (* { token, family: { id, name } } *)
| AdminCreated (id email familyId : string)    (* { id, email, familyId } *)
| FamilyData (family : Family.row) (admins : list (string * string))
    (people : list Person.row) (chores : list Chore.row)
    (assignments : list Assignment.row).
    (* { ...family, admins, people, chores, assignments } *)

Record response := mkResponse { status : Z; body : json_body }.

(** [res.status(code).json(body)] and [res.json(body)]. *)
Definition reply (code : Z) (b : json_body) : response := mkResponse code b.
Definition ok (b : json_body) : response := mkResponse 200 b.

(** The chores a response body carries. *)
Definition body_chores (b : json_body) : list Chore.row :=
  match b with
  | ChoreRow (Some c) => [c]
  | ChoreRows cs => cs
  | FamilyData _ _ _ cs _ => cs
  | _ => []
  end.

End Http.

(** ** Authentication middleware ([middleware/auth.js]) *)
Module Auth.
Open Scope string_scope.
Import Http.

(** Outcome of the token library's [verify]: the decoded claims or an
    error (bad signature or format, or expiry). *)
Inductive jwt_error := JsonWebTokenError | TokenExpiredError.

Inductive verified :=
| Decoded (user : token_payload)
| Failed (err : jwt_error).

(** [s.split(' ')]: [cur] collects the current piece in reverse. *)
Fixpoint split_space (cur : string) (s : string) : list string :=
  match s with
  | EmptyString => [JSString.reverse cur]
  | String c s' =>
      if Ascii.eqb c " " then JSString.reverse cur :: split_space EmptyString s'
      else split_space (String c cur) s'
  end.

(** [authHeader && authHeader.split(' ')[1]], as truthy token or nothing. *)
Definition bearer (authHeader : option string) : option string :=
  match authHeader with
  | None => None
  | Some h =>
      if String.eqb h "" then None
      else match nth_error (split_space EmptyString h) 1 with
           | Some t => if String.eqb t "" then None else Some t
           | None => None
           end
  end.

(** [authenticateToken]: answers itself, or passes the claims to [next]. *)
Definition authenticateToken {S : Type} (verify : string -> verified)
  (authHeader : option string)
  (next : token_payload -> S -> response * S) (st : S) : response * S :=
  match bearer authHeader with
  | None => (reply 401 (Error "Access token required"), st)
  | Some token =>
      match verify token with
      | Failed _ => (reply 403 (Error "Invalid or expired token"), st)
      | Decoded user => next user st
      end
  end.

End Auth.

(** ** Resource routes

    Every handler takes the decoded claims [user] (when the route is
    behind [authenticateToken]), the path parameters, the body fields
    (a field is [None] when absent) and the store, and returns the
    response with the store it leaves.  [now k] is the clock reading of
    the handler's [k]-th [Date.now()]; a statement that throws is caught
    by the handler's [catch]. *)
Module Routes.
Open Scope string_scope.
Import JSString Store Http.

Definition internal_error : response := reply 500 (Error "Internal server error").

(** [req.user.type !== 'admin' || req.user.familyId !== fid] *)
Definition not_admin_of (user : token_payload) (fid : string) : bool :=
  (negb (type user =? "admin") || negb (familyId user =? fid))%bool.

(** *** [routes/chores.js] *)

Definition get_chores (user : token_payload) (fid : string) (db : database)
  : response * database :=
  if negb (familyId user =? fid) then (reply 403 (Error "Access denied"), db)
  else (ok (ChoreRows (filter (fun c => Chore.family_id c =? fid) (chores db))), db).

Definition post_chore (user : token_payload) (fid : string)
  (label : option string) (now : nat -> N) (db : database)
  : response * database :=
  if not_admin_of user fid then (reply 403 (Error "Admin access required"), db)
  else if (negb (truthy label) || (trim (str label) =? ""))%bool
  then (reply 400 (Error "Chore label required"), db)
  else
    let trimmedLabel := trim (str label) in
    match chore_by_label db fid trimmedLabel with
    | Some _ => (reply 409 (Error "Chore with this label already exists"), db)
    | None =>
        let choreId := slug trimmedLabel ++ "-" ++ toString36 (now 0%nat) in
        match insert_chore (Chore.mk choreId fid trimmedLabel) db with
        | inl _ => (internal_error, db)
        | inr db' => (reply 201 (ChoreRow (chore_by_id db' choreId)), db')
        end
    end.

Definition put_chore (user : token_payload) (choreId : string)
  (label : option string) (db : database) : response * database :=
  match chore_by_id db choreId with
  | None => (reply 404 (Error "Chore not found"), db)
  | Some chore =>
      if not_admin_of user (Chore.family_id chore)
      then (reply 403 (Error "Admin access required"), db)
      else if (negb (truthy label) || (trim (str label) =? ""))%bool
      then (reply 400 (Error "Chore label required"), db)
      else
        let trimmedLabel := trim (str label) in
        match other_chore_by_label db (Chore.family_id chore) trimmedLabel choreId with
        | Some _ => (reply 409 (Error "Chore with this label already exists"), db)
        | None =>
            match update_chore choreId trimmedLabel db with
            | inl _ => (internal_error, db)
            | inr db' => (ok (ChoreRow (chore_by_id db' choreId)), db')
            end
        end
  end.

Definition delete_chore (user : token_payload) (choreId : string)
  (db : database) : response * database :=
  match chore_by_id db choreId with
  | None => (reply 404 (Error "Chore not found"), db)
  | Some chore =>
      if not_admin_of user (Chore.family_id chore)
      then (reply 403 (Error "Admin access required"), db)
      else
        match Store.delete_chore choreId db with
        | inl _ => (internal_error, db)
        | inr db' => (ok (Message "Chore deleted successfully"), db')
        end
  end.

(** *** [routes/people.js] *)

Definition palette : list string :=
  ["#f97373"; "#f97316"; "#eab308"; "#22c55e"; "#0ea5e9"; "#a855f7"].

Definition getDefaultColorForIndex (index : Z) : string :=
  nth (Z.to_nat (index mod Z.of_nat (List.length palette))) palette "".

(** The people routes' [catch]. *)
Definition people_catch (e : sqlite_error) : response :=
  match e with
  | SQLITE_CONSTRAINT_UNIQUE =>
      reply 409 (Error "Person with this email already exists")
  | _ => internal_error
  end.

(** [phone || null] *)
Definition or_null (x : option string) : option string :=
  if truthy x then x else None.

Definition get_people (user : token_payload) (fid : string) (db : database)
  : response * database :=
  if negb (familyId user =? fid) then (reply 403 (Error "Access denied"), db)
  else (ok (PersonRows (filter (fun p => Person.family_id p =? fid) (people db))), db).

Definition post_person (user : token_payload) (fid : string)
  (name email phone : option string) (now : nat -> N) (db : database)
  : response * database :=
  if not_admin_of user fid then (reply 403 (Error "Admin access required"), db)
  else if (negb (truthy name) || negb (truthy email))%bool
  then (reply 400 (Error "Name and email required"), db)
  else
    let color := getDefaultColorForIndex (count_people db fid) in
    let personId := slug (str name) ++ "-" ++ toString36 (now 0%nat) in
    match insert_person
            (Person.mk personId fid (str name) (str email) (or_null phone) color)
            db with
    | inl e => (people_catch e, db)
    | inr db' => (reply 201 (PersonRow (person_by_id db' personId)), db')
    end.

Definition put_person (user : token_payload) (personId : string)
  (name email phone color : option string) (db : database)
  : response * database :=
  match person_by_id db personId with
  | None => (reply 404 (Error "Person not found"), db)
  | Some person =>
      if not_admin_of user (Person.family_id person)
      then (reply 403 (Error "Admin access required"), db)
      else if (negb (truthy name) || negb (truthy email))%bool
      then (reply 400 (Error "Name and email required"), db)
      else
        match update_person personId (str name) (str email) (or_null phone)
                (if truthy color then str color else Person.color person) db with
        | inl e => (people_catch e, db)
        | inr db' => (ok (PersonRow (person_by_id db' personId)), db')
        end
  end.

Definition delete_person (user : token_payload) (personId : string)
  (db : database) : response * database :=
  match person_by_id db personId with
  | None => (reply 404 (Error "Person not found"), db)
  | Some person =>
      if not_admin_of user (Person.family_id person)
      then (reply 403 (Error "Admin access required"), db)
      else
        match Store.delete_person personId db with
        | inl _ => (internal_error, db)
        | inr db' => (ok (Message "Person deleted successfully"), db')
        end
  end.

(** *** [routes/assignments.js] *)

Definition get_assignments (user : token_payload) (fid weekStartISO : string)
  (db : database) : response * database :=
  if negb (familyId user =? fid) then (reply 403 (Error "Access denied"), db)
  else (ok (AssignmentRows
              (filter (fun a => (Assignment.family_id a =? fid)
                                && (Assignment.week_start_iso a =? weekStartISO))%bool
                      (assignments db))), db).

Definition assignments_catch (e : sqlite_error) : response :=
  match e with
  | SQLITE_CONSTRAINT_UNIQUE => reply 409 (Error "Assignment already exists")
  | _ => internal_error
  end.

Definition post_assignment (user : token_payload) (fid : string)
  (personId choreId weekStartISO : option string) (dayIndex : option Z)
  (now : nat -> N) (db : database) : response * database :=
  if not_admin_of user fid then (reply 403 (Error "Admin access required"), db)
  else if (negb (truthy personId) || negb (truthy choreId)
           || negb (truthy weekStartISO) || is_undefined dayIndex)%bool
  then (reply 400 (Error "personId, choreId, weekStartISO, and dayIndex required"), db)
  else
    let pid := str personId in
    let cid := str choreId in
    let week := str weekStartISO in
    let day := num dayIndex in
    match person_in_family db pid fid with
    | None => (reply 404 (Error "Person not found"), db)
    | Some _ =>
        match chore_in_family db cid fid with
        | None => (reply 404 (Error "Chore not found"), db)
        | Some _ =>
            match assignment_by_key db fid pid week day cid with
            | Some _ => (reply 409 (Error "Assignment already exists"), db)
            | None =>
                let assignmentId :=
                  pid ++ "-" ++ week ++ "-" ++ ofNumber day ++ "-" ++ cid
                  ++ "-" ++ toString36 (now 0%nat) in
                match insert_assignment
                        (Assignment.mk assignmentId fid pid cid week day) db with
                | inl e => (assignments_catch e, db)
                | inr db' =>
                    (reply 201 (AssignmentRow (assignment_by_id db' assignmentId)), db')
                end
            end
        end
    end.

Definition delete_assignment (user : token_payload) (assignmentId : string)
  (db : database) : response * database :=
  match assignment_by_id db assignmentId with
  | None => (reply 404 (Error "Assignment not found"), db)
  | Some assignment =>
      if not_admin_of user (Assignment.family_id assignment)
      then (reply 403 (Error "Admin access required"), db)
      else
        match Store.delete_assignment assignmentId db with
        | inl _ => (internal_error, db)
        | inr db' => (ok (Message "Assignment deleted successfully"), db')
        end
  end.

(** The id the whole-week route gives the assignment of day [i]. *)
Definition week_assignment_id (pid week cid : string) (now : nat -> N) (i : nat)
  : string :=
  pid ++ "-" ++ week ++ "-" ++ ofNumber (Z.of_nat i) ++ "-" ++ cid ++ "-"
  ++ toString36 (now i) ++ "-" ++ ofNumber (Z.of_nat i).

(** The [for] loop of the whole-week route, from [dayIndex = i] for [n]
    more rounds; [now i] is the clock when round [i] runs.  An insert
    that throws leaves the loop with the store as it is then. *)
Fixpoint week_loop (n i : nat) (fid pid week cid : string) (now : nat -> N)
  (created : list (option Assignment.row)) (db : database)
  : sum (sqlite_error * database) (list (option Assignment.row) * database) :=
  match n with
  | O => inr (created, db)
  | S n' =>
      let dayIndex := Z.of_nat i in
      match assignment_by_key db fid pid week dayIndex cid with
      | Some _ => week_loop n' (S i) fid pid week cid now created db
      | None =>
          let assignmentId := week_assignment_id pid week cid now i in
          match insert_assignment
                  (Assignment.mk assignmentId fid pid cid week dayIndex) db with
          | inl e => inl (e, db)
          | inr db' =>
              week_loop n' (S i) fid pid week cid now
                (created ++ [assignment_by_id db' assignmentId]) db'
          end
      end
  end.

Definition post_week (user : token_payload) (fid : string)
  (personId choreId weekStartISO : option string) (now : nat -> N)
  (db : database) : response * database :=
  if not_admin_of user fid then (reply 403 (Error "Admin access required"), db)
  else if (negb (truthy personId) || negb (truthy choreId)
           || negb (truthy weekStartISO))%bool
  then (reply 400 (Error "personId, choreId, and weekStartISO required"), db)
  else
    let pid := str personId in
    let cid := str choreId in
    let week := str weekStartISO in
    match person_in_family db pid fid with
    | None => (reply 404 (Error "Person not found"), db)
    | Some _ =>
        match chore_in_family db cid fid with
        | None => (reply 404 (Error "Chore not found"), db)
        | Some _ =>
            match week_loop 7 0 fid pid week cid now [] db with
            | inl (_, db') => (internal_error, db')
            | inr (created, db') => (reply 201 (CreatedAssignments created), db')
            end
        end
    end.

End Routes.

(** *** [routes/families.js] *)
Module Families.
Open Scope string_scope.
Import JSString Store Http Routes.

Definition defaultChores : list (string * string) :=
  [("dishes", "Dishes"); ("trash", "Trash"); ("laundry", "Laundry");
   ("vacuum", "Vacuum")].

(** [defaultChores.forEach(chore => insertChore.run(...))]; the [k]-th
    chore reads the clock at [now (first + k)]. *)
Fixpoint insert_default_chores (cs : list (string * string)) (fid : string)
  (now : nat -> N) (first : nat) (db : database) : stmt :=
  match cs with
  | [] => inr db
  | (cid, label) :: cs' =>
      bind (insert_chore (Chore.mk (cid ++ "-" ++ toString36 (now first)) fid label) db)
           (insert_default_chores cs' fid now (S first))
  end.

(** [POST /]: create family.  [hash] stands for [bcrypt.hash(_, 10)] and
    [sign] for [generateToken]. *)
Definition post_family (hash : string -> string)
  (sign : token_payload -> string) (name adminEmail adminPassword : option string)
  (now : nat -> N) (db : database) : response * database :=
  if (negb (truthy name) || negb (truthy adminEmail)
      || negb (truthy adminPassword))%bool
  then (reply 400 (Error "Family name, admin email, and password required"), db)
  else
    let familyId := slug (str name) ++ "-" ++ toString36 (now 0%nat) in
    let adminId := "admin-" ++ toString36 (now 1%nat) in
    let passwordHash := hash (str adminPassword) in
    match transaction
            (fun db =>
               bind (insert_family (Family.mk familyId (str name)) db) (fun db =>
               bind (insert_admin
                       (Admin.mk adminId familyId (str adminEmail) passwordHash) db)
                    (insert_default_chores defaultChores familyId now 2)))
            db with
    | inl _ => (internal_error, db)
    | inr db' =>
        let token := sign (mkUser (Some adminId) None familyId "admin") in
        (reply 201 (FamilyCreated token familyId (str name)), db')
    end.

(** [GET /:familyId] *)
Definition get_family (user : token_payload) (fid : string) (db : database)
  : response * database :=
  if negb (familyId user =? fid) then (reply 403 (Error "Access denied"), db)
  else
    match find (fun f => Family.id f =? fid) (families db) with
    | None => (reply 404 (Error "Family not found"), db)
    | Some family =>
        (ok (FamilyData family
               (map (fun a => (Admin.id a, Admin.email a))
                    (filter (fun a => Admin.family_id a =? fid) (admins db)))
               (filter (fun p => Person.family_id p =? fid) (people db))
               (filter (fun c => Chore.family_id c =? fid) (chores db))
               (filter (fun a => Assignment.family_id a =? fid) (assignments db))),
         db)
    end.

(** [POST /:familyId/admins] *)
Definition post_admin (hash : string -> string) (user : token_payload)
  (fid : string) (email password : option string) (now : nat -> N)
  (db : database) : response * database :=
  if not_admin_of user fid then (reply 403 (Error "Admin access required"), db)
  else if (negb (truthy email) || negb (truthy password))%bool
  then (reply 400 (Error "Email and password required"), db)
  else
    let adminId := "admin-" ++ toString36 (now 0%nat) in
    let passwordHash := hash (str password) in
    match insert_admin (Admin.mk adminId fid (str email) passwordHash) db with
    | inl SQLITE_CONSTRAINT_UNIQUE =>
        (reply 409 (Error "Admin with this email already exists"), db)
    | inl _ => (internal_error, db)
    | inr db' => (reply 201 (AdminCreated adminId (str email) fid), db')
    end.

(** [req.user.adminId === adminId] *)
Definition is_self (user : token_payload) (aid : string) : bool :=
  match adminId user with
  | Some a => a =? aid
  | None => false
  end.

(** [DELETE /:familyId/admins/:adminId] *)
Definition delete_admin (user : token_payload) (fid aid : string)
  (db : database) : response * database :=
  if not_admin_of user fid then (reply 403 (Error "Admin access required"), db)
  else if (count_admins db fid <=? 1)%Z
  then (reply 400 (Error "Cannot remove the last admin"), db)
  else if is_self user aid
  then (reply 400 (Error "Cannot remove yourself"), db)
  else
    match Store.delete_admin aid fid db with
    | inl _ => (internal_error, db)
    | inr db' => (ok (Message "Admin removed successfully"), db')
    end.

End Families.

(** ** The token-protected API as one step function *)
Module Api.
Open Scope string_scope.
Import Store Http.

(** Method, path parameters and body of a request to a route behind
    [authenticateToken]. *)
Inductive request :=
| GetFamily (familyId : string)
| PostAdmin (familyId : string) (email password : option string)
| DeleteAdmin (familyId adminId : string)
| GetPeople (familyId : string)
| PostPerson (familyId : string) (name email phone : option string)
| PutPerson (personId : string) (name email phone color : option string)
| DeletePerson (personId : string)
| GetChores (familyId : string)
| PostChore (familyId : string) (label : option string)
| PutChore (choreId : string) (label : option string)
| DeleteChore (choreId : string)
| GetAssignments (familyId weekStartISO : string)
| PostAssignment (familyId : string) (personId choreId weekStartISO : option string)
    (dayIndex : option Z)
| PostWeekAssignments (familyId : string) (personId choreId weekStartISO : option string)
| DeleteAssignment (assignmentId : string).

(** The route handler of a request. *)
Definition handle (hash : string -> string) (now : nat -> N)
  (user : token_payload) (req : request) (db : database) : response * database :=
  match req with
  | GetFamily fid => Families.get_family user fid db
  | PostAdmin fid email password => Families.post_admin hash user fid email password now db
  | DeleteAdmin fid aid => Families.delete_admin user fid aid db
  | GetPeople fid => Routes.get_people user fid db
  | PostPerson fid name email phone => Routes.post_person user fid name email phone now db
  | PutPerson pid name email phone color =>
      Routes.put_person user pid name email phone color db
  | DeletePerson pid => Routes.delete_person user pid db
  | GetChores fid => Routes.get_chores user fid db
  | PostChore fid label => Routes.post_chore user fid label now db
  | PutChore cid label => Routes.put_chore user cid label db
  | DeleteChore cid => Routes.delete_chore user cid db
  | GetAssignments fid week => Routes.get_assignments user fid week db
  | PostAssignment fid pid cid week day =>
      Routes.post_assignment user fid pid cid week day now db
  | PostWeekAssignments fid pid cid week => Routes.post_week user fid pid cid week now db
  | DeleteAssignment aid => Routes.delete_assignment user aid db
  end.

(** A request through the middleware and then its handler. *)
Definition serve (verify : string -> Auth.verified) (hash : string -> string)
  (now : nat -> N) (authorization : option string) (req : request)
  (db : database) : response * database :=
  Auth.authenticateToken verify authorization
    (fun user db => handle hash now user req db) db.

(** Create, update and delete requests. *)
Definition mutating (req : request) : bool :=
  match req with
  | GetFamily _ | GetPeople _ | GetChores _ | GetAssignments _ _ => false
  | _ => true
  end.

(** The family a request addresses: the one named in the path, or the
    owner of the record the path names ([None] when there is no such
    record). *)
Definition addressed_family (db : database) (req : request) : option string :=
  match req with
  | GetFamily fid | PostAdmin fid _ _ | DeleteAdmin fid _ | GetPeople fid
  | PostPerson fid _ _ _ | GetChores fid | PostChore fid _
  | GetAssignments fid _ | PostAssignment fid _ _ _ _
  | PostWeekAssignments fid _ _ _ => Some fid
  | PutPerson pid _ _ _ _ | DeletePerson pid =>
      option_map Person.family_id (person_by_id db pid)
  | PutChore cid _ | DeleteChore cid =>
      option_map Chore.family_id (chore_by_id db cid)
  | DeleteAssignment aid =>
      option_map Assignment.family_id (assignment_by_id db aid)
  end.

End Api.

(** ** Notions the statements use *)
Module Spec.
Import JSDate Calendar.

(** The local calendar day, as a day number, of the time value [t]. *)
Definition local_day (tz : TimeZone) (t : Z) : Z := Day (LocalTime tz t).

(** The time value at which day [D] starts for the [Date] constructor:
    local midnight of [D] read as a local time. *)
Definition midnight (tz : TimeZone) (D : Z) : Z := UTC tz (D * msPerDay).

(** Day [D] is a Sunday; the Sunday on or before day [D]. *)
Definition sunday (D : Z) : Prop := (D + 4) mod 7 = 0.
Definition sunday_of (D : Z) : Z := D - (D + 4) mod 7.

(** [t] is at least [k] days inside the range of time values; a year
    inside it. *)
Definition within (k t : Z) : Prop := Z.abs t <= maxTime - k * msPerDay.
Definition comfortable (t : Z) : Prop := within 366 t.

(** What the statements ask of a time zone: offsets are shorter than a
    day; a local time is read back to the calendar day it names; a
    local time that exists is read back exactly; the local calendar day
    never goes back as time passes; and a day starts no later than any
    of its times. *)
Record regular (tz : TimeZone) : Prop := mkRegular {
  offset_bound : forall t b, - msPerDay < tz t b < msPerDay;
  same_day : forall x, Day (LocalTime tz (UTC tz x)) = Day x;
  read_back : forall t, LocalTime tz (UTC tz (LocalTime tz t)) = LocalTime tz t;
  days_in_order : forall t u, t <= u -> local_day tz t <= local_day tz u;
  day_start : forall t, midnight tz (local_day tz t) <= t
}.

(** A zone without clock changes. *)
Definition fixed (offset : Z) : TimeZone := fun _ _ => offset.
Definition utc : TimeZone := fixed 0.

(** America/Santiago with its two clock changes of 2026: on 5 April at
    03:00 UTC the clocks go back from 24:00 to 23:00 (UTC-3 to UTC-4), on
    6 September at 04:00 UTC they go forward from 00:00 to 01:00 (UTC-4
    to UTC-3), so that Sunday 6 September has no local midnight. *)
Definition april_change : Z := 1775358000000.
Definition september_change : Z := 1788667200000.

Definition santiago : TimeZone := fun t isUTC =>
  if isUTC then
    if t <? april_change then -10800000
    else if t <? september_change then -14400000
    else -10800000
  else
    if t <? april_change - 10800000 then -10800000
    else if t <? september_change - 10800000 then -14400000
    else -10800000.





(** Bounded universal check, used to settle calendar facts over one
    400-year cycle by evaluation. *)
Fixpoint forall_from (n : nat) (z : Z) (p : Z -> bool) : bool :=
  match n with
  | O => true
  | S k => if p z then forall_from k (z + 1) p else false
  end.

(** Facts of month [m] (0..11) of year [y]: its first day converts
    back, the day before the next first is in it, and it has 28..31 days. *)
Definition month_ok (y m : Z) : bool :=
  let '(y1, m1, d1) := civil_from_days (MakeDay y m 1) in
  let '(y2, m2, _) := civil_from_days (MakeDay y (m + 1) 0) in
  ((y1 =? y) && (m1 =? m + 1) && (d1 =? 1) && (y2 =? y) && (m2 =? m + 1)
   && (27 <=? MakeDay y (m + 1) 0 - MakeDay y m 1)
   && (MakeDay y (m + 1) 0 - MakeDay y m 1 <=? 30))%bool.

End Spec.

(** ** Notions the statements about the routes use *)
Module ApiSpec.
Open Scope string_scope.
Import JSString Store Http Api.

(** The routes that name a record by its id. *)
Definition by_id (req : request) : bool :=
  match req with
  | PutPerson _ _ _ _ _ | DeletePerson _ | PutChore _ _ | DeleteChore _
  | DeleteAssignment _ => true
  | _ => false
  end.

(** Some row of the addressed table has the id the path names. *)
Definition record_exists (db : database) (req : request) : bool :=
  match req with
  | PutPerson pid _ _ _ _ | DeletePerson pid =>
      existsb (fun p => Person.id p =? pid) (people db)
  | PutChore cid _ | DeleteChore cid =>
      existsb (fun c => Chore.id c =? cid) (chores db)
  | DeleteAssignment aid =>
      existsb (fun a => Assignment.id a =? aid) (assignments db)
  | _ => true
  end.

(** The composite key of an assignment row. *)
Definition key (a : Assignment.row) : string * string * string * Z * string :=
  (Assignment.family_id a, Assignment.person_id a, Assignment.week_start_iso a,
   Assignment.day_index a, Assignment.chore_id a).

(** Number of assignment rows with a composite key. *)
Definition count_key (db : database) (fid pid week : string) (day : Z)
  (cid : string) : nat :=
  List.length (filter (same_key fid pid week day cid) (assignments db)).

(** The id the single-assignment route generates. *)
Definition assignment_id (pid week : string) (day : Z) (cid : string)
  (now : nat -> N) : string :=
  pid ++ "-" ++ week ++ "-" ++ ofNumber day ++ "-" ++ cid ++ "-"
  ++ toString36 (now 0%nat).

(** What the schema guarantees of a store, as far as the statements need
    it: no two assignment rows share a composite key, and the family of
    every person exists. *)
Definition consistent (db : database) : Prop :=
  NoDup (map key (assignments db))
  /\ forall p, In p (people db) -> family_exists db (Person.family_id p) = true.

(** The foreign keys of an assignment of person [pid] and chore [cid] in
    family [fid] hold in [db]. *)
Definition keys_hold (fid pid cid : string) (db : database) : Prop :=
  (family_exists db fid
   && existsb (fun p => Person.id p =? pid) (people db)
   && existsb (fun c => Chore.id c =? cid) (chores db))%bool = true.

(** The rows the whole-week route adds to [db]: one for every day index
    of 0..6 that has no assignment with the key yet. *)
Definition absent (db : database) (fid pid week cid : string) (i : nat) : bool :=
  match assignment_by_key db fid pid week (Z.of_nat i) cid with
  | Some _ => false
  | None => true
  end.

Definition missing_days (db : database) (fid pid week cid : string) : list nat :=
  filter (absent db fid pid week cid) (seq 0 7).

Definition week_row (fid pid week cid : string) (now : nat -> N) (i : nat)
  : Assignment.row :=
  Assignment.mk (Routes.week_assignment_id pid week cid now i) fid pid cid week
                (Z.of_nat i).

(** The rows a successful family creation adds. *)
Definition created_family_id (name : option string) (now : nat -> N) : string :=
  slug (str name) ++ "-" ++ toString36 (now 0%nat).
Definition created_admin_id (now : nat -> N) : string :=
  "admin-" ++ toString36 (now 1%nat).
Definition created_chores (fid : string) (now : nat -> N) : list Chore.row :=
  [Chore.mk ("dishes" ++ "-" ++ toString36 (now 2%nat)) fid "Dishes";
   Chore.mk ("trash" ++ "-" ++ toString36 (now 3%nat)) fid "Trash";
   Chore.mk ("laundry" ++ "-" ++ toString36 (now 4%nat)) fid "Laundry";
   Chore.mk ("vacuum" ++ "-" ++ toString36 (now 5%nat)) fid "Vacuum"].

(** The store after a successful family creation. *)
Definition with_family (db : database) (hash : string -> string)
  (name adminEmail adminPassword : option string) (now : nat -> N) : database :=
  let fid := created_family_id name now in
  mkDb (families db ++ [Family.mk fid (str name)])
       (admins db ++ [Admin.mk (created_admin_id now) fid (str adminEmail)
                               (hash (str adminPassword))])
       (people db)
       (chores db ++ created_chores fid now)
       (assignments db).

(** The statements of the family creation, in order. *)
Definition create_family_statements (hash : string -> string)
  (name adminEmail adminPassword : option string) (now : nat -> N)
  (db : database) : stmt :=
  let fid := created_family_id name now in
  bind (insert_family (Family.mk fid (str name)) db) (fun db =>
  bind (insert_admin (Admin.mk (created_admin_id now) fid (str adminEmail)
                               (hash (str adminPassword))) db)
       (Families.insert_default_chores Families.defaultChores fid now 2)).

(** The ids a family creation generates are not taken in [db]. *)
Definition fresh_family_ids (db : database) (name : option string)
  (now : nat -> N) : Prop :=
  existsb (fun f => Family.id f =? created_family_id name now) (families db) = false
  /\ existsb (fun a => Admin.id a =? created_admin_id now) (admins db) = false
  /\ existsb (fun a => Admin.family_id a =? created_family_id name now)
              (admins db) = false
  /\ forall c r, In c (chores db) ->
        In r (created_chores (created_family_id name now) now) ->
        (Chore.id c =? Chore.id r) = false.

Definition with_assignments (db : database) (rows : list Assignment.row)
  : database :=
  mkDb (families db) (admins db) (people db) (chores db) (assignments db ++ rows).

(** The stores the API can reach from the empty one: by the creation of
    a family, and by any request that passes the middleware. *)
Inductive reachable : database -> Prop :=
| reach_empty : reachable Store.empty
| reach_family (hash : string -> string) (sign : token_payload -> string)
    (name adminEmail adminPassword : option string) (now : nat -> N)
    (db : database) :
    reachable db ->
    reachable (snd (Families.post_family hash sign name adminEmail adminPassword
                                         now db))
| reach_request (verify : string -> Auth.verified) (hash : string -> string)
    (now : nat -> N) (authorization : option string) (req : request)
    (db : database) :
    reachable db ->
    reachable (snd (serve verify hash now authorization req db)).

Fixpoint last_char (s : string) : option ascii :=
  match s with
  | EmptyString => None
  | String c EmptyString => Some c
  | String _ s' => last_char s'
  end.

(** Sample data: the Smith family with Jo and the chore Dishes. *)
Definition smith : database :=
  mkDb [Family.mk "smith" "Smith Family"]
       [Admin.mk "admin-1" "smith" "admin@x.com" "hash"]
       [Person.mk "jo-1" "smith" "Jo" "jo@x.com" None "#f97373"]
       [Chore.mk "dishes-1" "smith" "Dishes"]
       [].

(** The Smith family after a second admin was added. *)
Definition smith_two_admins : database :=
  mkDb (families smith)
       (admins smith ++ [Admin.mk "admin-2" "smith" "other@x.com" "hash"])
       (people smith) (chores smith) (assignments smith).

Definition smith_admin : token_payload :=
  mkUser (Some "admin-1") None "smith" "admin".
Definition smith_member : token_payload :=
  mkUser None (Some "jo-1") "smith" "user".
Definition jones_admin : token_payload :=
  mkUser (Some "admin-9") None "jones" "admin".

Definition sample_hash (password : string) : string := "bcrypt:" ++ password.
Definition sample_sign (u : token_payload) : string := "jwt:" ++ familyId u.
Definition sample_now (k : nat) : N := 1771200000000 + N.of_nat k.
Definition reject_all (token : string) : Auth.verified :=
  Auth.Failed Auth.TokenExpiredError.

End ApiSpec.

(** ** Integrity of the store

    The constraints of the schema ([db/database.js]) and the rules the
    routes add to them. *)
Module Integrity.
Open Scope string_scope.
Import JSString Store Http Api ApiSpec.

(** The columns of the [UNIQUE(family_id, email)] constraints. *)
Definition admin_key (a : Admin.row) : string * string :=
  (Admin.family_id a, Admin.email a).
Definition person_key (p : Person.row) : string * string :=
  (Person.family_id p, Person.email p).

(** What the chore routes compare: the family and the label in lower case. *)
Definition label_key (c : Chore.row) : string * string :=
  (Chore.family_id c, toLowerCase (Chore.label c)).

(** The constraints of the schema: primary keys, [UNIQUE] constraints and
    foreign keys. *)
Record schema_holds (db : database) : Prop := mkSchema
  { family_ids : NoDup (map Family.id (families db));
    admin_ids : NoDup (map Admin.id (admins db));
    person_ids : NoDup (map Person.id (people db));
    chore_ids : NoDup (map Chore.id (chores db));
    assignment_ids : NoDup (map Assignment.id (assignments db));
    admin_emails : NoDup (map admin_key (admins db));
    person_emails : NoDup (map person_key (people db));
    assignment_keys : NoDup (map key (assignments db));
    admin_family :
      forall a, In a (admins db) -> family_exists db (Admin.family_id a) = true;
    person_family :
      forall p, In p (people db) -> family_exists db (Person.family_id p) = true;
    chore_family :
      forall c, In c (chores db) -> family_exists db (Chore.family_id c) = true;
    assignment_family :
      forall a, In a (assignments db) ->
        family_exists db (Assignment.family_id a) = true;
    assignment_person :
      forall a, In a (assignments db) ->
        existsb (fun p => Person.id p =? Assignment.person_id a) (people db) = true;
    assignment_chore :
      forall a, In a (assignments db) ->
        existsb (fun c => Chore.id c =? Assignment.chore_id a) (chores db) = true }.

(** The person and the chore of every assignment belong to the family of
    the assignment. *)
Definition same_family (db : database) : Prop :=
  forall a, In a (assignments db) ->
    existsb (fun p => (Person.id p =? Assignment.person_id a)
                      && (Person.family_id p =? Assignment.family_id a))%bool
            (people db) = true
    /\ existsb (fun c => (Chore.id c =? Assignment.chore_id a)
                         && (Chore.family_id c =? Assignment.family_id a))%bool
               (chores db) = true.

(** No two chores of a family have the same label up to case. *)
Definition labels_unique (db : database) : Prop :=
  NoDup (map label_key (chores db)).

(** Every family has an admin. *)
Definition families_have_admin (db : database) : Prop :=
  forall f, In f (families db) -> (1 <= count_admins db (Family.id f))%Z.

(** All of the above. *)
Definition sound (db : database) : Prop :=
  schema_holds db /\ same_family db /\ labels_unique db
  /\ families_have_admin db.

(** The rows that do not belong to family [fid], and all the families. *)
Definition others (fid : string) (db : database) : database :=
  mkDb (families db)
       (filter (fun a => negb (Admin.family_id a =? fid)) (admins db))
       (filter (fun p => negb (Person.family_id p =? fid)) (people db))
       (filter (fun c => negb (Chore.family_id c =? fid)) (chores db))
       (filter (fun a => negb (Assignment.family_id a =? fid)) (assignments db)).

End Integrity.


(** ** A sample run of the API

    The Smith family is created on the empty store, its admin adds Jo and
    gives Jo the dishes for a week; later the Jones family is created. *)
Module Household.
Open Scope string_scope.
Import JSString Store Http Auth Routes Families Api ApiSpec.

(** A verification that decodes every token to the claims [u]. *)
Definition decode_as (u : token_payload) (token : string) : verified :=
  Decoded u.

Definition smith_id : string := created_family_id (Some "Smith Family") sample_now.
Definition founder : token_payload :=
  mkUser (Some (created_admin_id sample_now)) None smith_id "admin".
Definition jo_id : string := slug "Jo" ++ "-" ++ toString36 (sample_now 0).
Definition dishes_id : string := "dishes" ++ "-" ++ toString36 (sample_now 2).

Definition created : database :=
  snd (post_family sample_hash sample_sign (Some "Smith Family")
         (Some "admin@x.com") (Some "pw123") sample_now Store.empty).

Definition with_jo : database :=
  snd (serve (decode_as founder) sample_hash sample_now (Some "Bearer t")
         (PostPerson smith_id (Some "Jo") (Some "jo@x.com") None) created).

Definition with_week : database :=
  snd (serve (decode_as founder) sample_hash sample_now (Some "Bearer t")
         (PostWeekAssignments smith_id (Some jo_id) (Some dishes_id)
            (Some "2026-02-15")) with_jo).

(** The clock a minute later. *)
Definition later (k : nat) : N := 1771200060000 + N.of_nat k.

Definition jones_id : string := created_family_id (Some "Jones Family") later.
Definition jones_founder : token_payload :=
  mkUser (Some (created_admin_id later)) None jones_id "admin".

Definition two_families : database :=
  snd (post_family sample_hash sample_sign (Some "Jones Family")
         (Some "admin@x.com") (Some "pw456") later with_week).

End Household.

(** ** The rows a response carries *)
Module Bodies.
Import Http.

Definition body_people (b : json_body) : list Person.row :=
  match b with
  | PersonRow (Some p) => [p]
  | PersonRows ps => ps
  | FamilyData _ _ ps _ _ => ps
  | _ => []
  end.

Definition body_assignments (b : json_body) : list Assignment.row :=
  match b with
  | AssignmentRow (Some a) => [a]
  | AssignmentRows rows => rows
  | FamilyData _ _ _ _ rows => rows
  | _ => []
  end.

End Bodies.

(** ** Login routes ([routes/auth.js])

    The login routes read the store and never write it.  [compare]
    stands for [bcrypt.compare] and [sign] for [generateToken]. *)
Module Login.
Open Scope string_scope.
Import JSString Store Http.

(** The JSON bodies of the login routes. *)
Inductive login_body :=
| LoginError (error : string)                  (* { error } *)
| AdminSession (token : string) (id email familyId : string)
    (* { token, admin: { id, email, familyId } } *)
| PersonSession (token : string) (id name email familyId : string).
    (* { token, person: { id, name, email, familyId } } *)

Record login_response := mkLogin { login_status : Z; login_body_of : login_body }.

(** [SELECT * FROM admins WHERE email = ?] with [.get]: the first row
    with the email, in insertion order. *)
Definition admin_by_email (db : database) (email : string) : option Admin.row :=
  find (fun a => Admin.email a =? email) (admins db).

(** [SELECT * FROM people WHERE email = ?] with [.get]. *)
Definition person_by_email (db : database) (email : string)
  : option Person.row :=
  find (fun p => Person.email p =? email) (people db).

(** [POST /api/auth/admin/login] *)
Definition admin_login (compare : string -> string -> bool)
  (sign : token_payload -> string) (email password : option string)
  (db : database) : login_response :=
  if (negb (truthy email) || negb (truthy password))%bool
  then mkLogin 400 (LoginError "Email and password required")
  else
    match admin_by_email db (str email) with
    | None => mkLogin 401 (LoginError "Invalid email or password")
    | Some admin =>
        if negb (compare (str password) (Admin.password_hash admin))
        then mkLogin 401 (LoginError "Invalid email or password")
        else
          let token :=
            sign (mkUser (Some (Admin.id admin)) None (Admin.family_id admin)
                         "admin") in
          mkLogin 200 (AdminSession token (Admin.id admin) (Admin.email admin)
                         (Admin.family_id admin))
    end.

(** [POST /api/auth/user/login] *)
Definition user_login (sign : token_payload -> string) (email : option string)
  (db : database) : login_response :=
  if negb (truthy email) then mkLogin 400 (LoginError "Email required")
  else
    match person_by_email db (str email) with
    | None => mkLogin 404 (LoginError "No account found with that email address")
    | Some person =>
        let token :=
          sign (mkUser None (Some (Person.id person)) (Person.family_id person)
                       "user") in
        mkLogin 200 (PersonSession token (Person.id person) (Person.name person)
                       (Person.email person) (Person.family_id person))
    end.

(** The token of a successful login. *)
Definition session_token (r : login_response) : option string :=
  match login_body_of r with
  | AdminSession token _ _ _ => Some token
  | PersonSession token _ _ _ _ => Some token
  | LoginError _ => None
  end.

End Login.

(** ** The API client ([src/api/client.ts]) *)
Module Client.
Open Scope string_scope.
Import JSString Http.

(** The client's [token] field and the item ['auth_token'] of the
    browser's [localStorage]. *)
Record ApiClient := mkClient
  { token : option string;
    auth_token : option string }.

(** A client after a page load, over what [localStorage] holds. *)
Definition fresh (stored : option string) : ApiClient := mkClient None stored.

(** [setToken], client.ts lines 12-21. *)
Definition setToken (t : option string) (c : ApiClient) : ApiClient :=
  if truthy t then mkClient t t else mkClient t None.

(** [getToken], client.ts lines 24-30: the token and the client it leaves. *)
Definition getToken (c : ApiClient) : option string * ApiClient :=
  if negb (truthy (token c))
  then (auth_token c, mkClient (auth_token c) (auth_token c))
  else (token c, c).

(** The [Authorization] header [request] sends (client.ts lines 39-51),
    if any. *)
Definition authorization (c : ApiClient) : option string * ApiClient :=
  let '(t, c) := getToken c in
  (if truthy t then Some ("Bearer " ++ str t) else None, c).

(** [response.ok] *)
Definition response_ok (r : response) : bool :=
  ((200 <=? status r) && (status r <=? 299))%bool%Z.

(** The token has a space in it. *)
Fixpoint has_space (s : string) : bool :=
  match s with
  | EmptyString => false
  | String c s' => (Ascii.eqb c " " || has_space s')%bool
  end.

End Client.

(** ** The calendar views and the cached family ([src/App.tsx]) *)
Module App.
Open Scope string_scope.
Import JSDate Calendar JSString Http.

(** [s.padStart(2, '0')] *)
Definition padStart2 (s : string) : string :=
  match String.length s with
  | O => "00"
  | S O => "0" ++ s
  | _ => s
  end.

(** A number in a template literal. *)
Definition text (n : Number) : string :=
  match n with
  | Some z => ofNumber z
  | None => "NaN"
  end.

(** [toISODate], App.tsx lines 33-38. *)
Definition toISODate (tz : TimeZone) (date : Date) : string :=
  let year := getFullYear tz date in
  let month := padStart2 (text (add (getMonth tz date) (Some 1%Z))) in
  let day := padStart2 (text (getDate tz date)) in
  text year ++ "-" ++ month ++ "-" ++ day.

(** [weekDates] and [weekEnd], App.tsx lines 239-254. *)
Definition weekDates (tz : TimeZone) (currentWeekStart : Date) : list Date :=
  map (fun i => setDate tz currentWeekStart
                  (add (getDate tz currentWeekStart) (Some (Z.of_nat i))))
      (seq 0 7).
Definition weekEnd (tz : TimeZone) (currentWeekStart : Date) : Date :=
  setDate tz currentWeekStart (add (getDate tz currentWeekStart) (Some 6%Z)).

(** The two dates the navigation keeps. *)
Record calendar := mkCalendar
  { currentWeekStart : Date;
    currentMonth : Date }.

(** The initial state, App.tsx lines 163-168: [today] and [now] are the
    two readings of the clock ([new Date()], the current time value). *)
Definition initial (tz : TimeZone) (today now : Z) : calendar :=
  let today : Date := Some today in
  let now : Date := Some now in
  mkCalendar (getWeekStart tz today)
             (new_Date tz (getFullYear tz now) (getMonth tz now) 1).

(** App.tsx lines 282-323. *)
Definition goToPreviousWeek (tz : TimeZone) (st : calendar) : calendar :=
  let d := currentWeekStart st in
  let d := setDate tz d (sub (getDate tz d) (Some 7%Z)) in
  let d := setHours tz d 0 0 0 0 in
  mkCalendar d (new_Date tz (getFullYear tz d) (getMonth tz d) 1).

Definition goToNextWeek (tz : TimeZone) (st : calendar) : calendar :=
  let d := currentWeekStart st in
  let d := setDate tz d (add (getDate tz d) (Some 7%Z)) in
  let d := setHours tz d 0 0 0 0 in
  mkCalendar d (new_Date tz (getFullYear tz d) (getMonth tz d) 1).

Definition goToThisWeek (tz : TimeZone) (today : Z) (st : calendar) : calendar :=
  let today : Date := Some today in
  let start := getWeekStart tz today in
  mkCalendar start (new_Date tz (getFullYear tz start) (getMonth tz start) 1).

Definition goToPreviousMonth (tz : TimeZone) (st : calendar) : calendar :=
  let prev := currentMonth st in
  mkCalendar (currentWeekStart st)
             (new_Date tz (getFullYear tz prev)
                (sub (getMonth tz prev) (Some 1%Z)) 1).

Definition goToNextMonth (tz : TimeZone) (st : calendar) : calendar :=
  let prev := currentMonth st in
  mkCalendar (currentWeekStart st)
             (new_Date tz (getFullYear tz prev)
                (add (getMonth tz prev) (Some 1%Z)) 1).

Definition goToThisMonth (tz : TimeZone) (now : Z) (st : calendar) : calendar :=
  let now : Date := Some now in
  mkCalendar (getWeekStart tz now)
             (new_Date tz (getFullYear tz now) (getMonth tz now) 1).

(** The buttons of the navigation; the two that read the clock carry
    the reading. *)
Inductive button :=
| PreviousWeek | NextWeek | ThisWeek (today : Z)
| PreviousMonth | NextMonth | ThisMonth (now : Z).

Definition press (tz : TimeZone) (b : button) (st : calendar) : calendar :=
  match b with
  | PreviousWeek => goToPreviousWeek tz st
  | NextWeek => goToNextWeek tz st
  | ThisWeek today => goToThisWeek tz today st
  | PreviousMonth => goToPreviousMonth tz st
  | NextMonth => goToNextMonth tz st
  | ThisMonth now => goToThisMonth tz now st
  end.

(** The family the component caches ([currentFamily]): the document of
    [GET /families/:familyId], its assignments replaced by those of the
    week on display. *)
Record Family := mkFamily
  { id : string;
    name : string;
    admins : list (string * string);
    people : list Person.row;
    chores : list Chore.row;
    assignments : list Assignment.row }.

(** [getAssignmentsForCell], App.tsx lines 692-698. *)
Definition getAssignmentsForCell (assignments : list Assignment.row)
  (currentWeekKey personId : string) (dayIndex : Z) : list Assignment.row :=
  filter (fun a => (Assignment.person_id a =? personId)
                   && (Assignment.week_start_iso a =? currentWeekKey)
                   && (Assignment.day_index a =? dayIndex)%Z)%bool
         assignments.

(** [x === y] for a number [x] of a row and a number [y] that may be
    [NaN]. *)
Definition strict_eq (x : Z) (y : Number) : bool :=
  match y with
  | Some z => (x =? z)%Z
  | None => false
  end.

(** [getPeopleWithChoresForDate], App.tsx lines 700-712; the [Set] of
    person ids as a list, [has] as membership. *)
Definition getPeopleWithChoresForDate (tz : TimeZone) (people : list Person.row)
  (assignments : list Assignment.row) (date : Date) : list Person.row :=
  let weekStartForDate := getWeekStart tz date in
  let weekKey := toISODate tz weekStartForDate in
  let dayIndex := getDay tz date in
  let personIds :=
    map Assignment.person_id
        (filter (fun a => (Assignment.week_start_iso a =? weekKey)
                          && strict_eq (Assignment.day_index a) dayIndex)%bool
                assignments) in
  filter (fun p => existsb (fun i => i =? Person.id p) personIds) people.

(** A value read from an object of the API. *)
Inductive js_value :=
| Undefined
| Str (s : string)
| Num (z : Z).

(** [x !== y] *)
Definition strict_ne (x y : js_value) : bool :=
  match x, y with
  | Undefined, Undefined => false
  | Str a, Str b => negb (a =? b)
  | Num a, Num b => negb (a =? b)%Z
  | _, _ => true
  end.

(** The properties of an assignment object as the API sends it: the
    columns of the row, by name (the creation time, which nothing reads,
    left out). *)
Definition properties (a : Assignment.row) : list (string * js_value) :=
  [("id", Str (Assignment.id a));
   ("family_id", Str (Assignment.family_id a));
   ("person_id", Str (Assignment.person_id a));
   ("chore_id", Str (Assignment.chore_id a));
   ("week_start_iso", Str (Assignment.week_start_iso a));
   ("day_index", Num (Assignment.day_index a))].

(** [a.key]: [undefined] when the object has no such property. *)
Definition get (a : Assignment.row) (key : string) : js_value :=
  match find (fun kv => fst kv =? key) (properties a) with
  | Some kv => snd kv
  | None => Undefined
  end.

(** [handleRemoveChore], App.tsx lines 348-359, given the response to
    the [DELETE]; a response that is not ok makes the client throw, and
    the cache stays. *)
Definition handleRemoveChore (r : response) (choreId : string)
  (prev : option Family) : option Family :=
  if Client.response_ok r
  then match prev with
       | Some prev =>
           Some (mkFamily (id prev) (name prev) (admins prev) (people prev)
                   (filter (fun c => negb (Chore.id c =? choreId)) (chores prev))
                   (filter (fun a => strict_ne (get a "choreId") (Str choreId))
                           (assignments prev)))
       | None => None
       end
  else prev.

(** [handleRemovePerson], App.tsx lines 425-439. *)
Definition handleRemovePerson (r : response) (personId : string)
  (prev : option Family) : option Family :=
  if Client.response_ok r
  then match prev with
       | Some prev =>
           Some (mkFamily (id prev) (name prev) (admins prev)
                   (filter (fun p => negb (Person.id p =? personId)) (people prev))
                   (chores prev)
                   (filter (fun a => strict_ne (get a "person_id") (Str personId))
                           (assignments prev)))
       | None => None
       end
  else prev.

(** The cache shows what the server holds of family [fid] for the week
    [week]: the same people, chores and assignments, in whatever order. *)
Definition in_sync (fam : Family) (db : Store.database) (fid week : string)
  : Prop :=
  (forall p, In p (people fam)
             <-> In p (filter (fun p => Person.family_id p =? fid)
                              (Store.people db)))
  /\ (forall c, In c (chores fam)
                <-> In c (filter (fun c => Chore.family_id c =? fid)
                                 (Store.chores db)))
  /\ (forall a, In a (assignments fam)
                <-> In a (filter (fun a => (Assignment.family_id a =? fid)
                                           && (Assignment.week_start_iso a
                                               =? week))%bool
                                 (Store.assignments db))).

End App.

(** ** Reading a date key back *)
Module DateKey.
Open Scope string_scope.

(** The number a two-digit field of a date key stands for. *)
Definition two_digits (s : string) : Z :=
  match s with
  | String a (String b EmptyString) =>
      Z.of_nat (nat_of_ascii a - 48) * 10 + Z.of_nat (nat_of_ascii b - 48)
  | _ => -1
  end.

(** The month and day fields of the key of day [n] of a month read back
    as [n], and have two characters. *)
Definition field_ok (n : Z) : bool :=
  ((two_digits (App.padStart2 (JSString.ofNumber n)) =? n)%Z
   && Nat.eqb (String.length (App.padStart2 (JSString.ofNumber n))) 2)%bool.

End DateKey.

(** ** Sample states of the client *)
Module Samples.
Open Scope string_scope.
Import Store ApiSpec Household.

(** The cache of the Smith family's admin in the sample run, for the
    week of 15 February 2026. *)
Definition smith_cache : App.Family :=
  App.mkFamily smith_id "Smith Family"
    [(created_admin_id sample_now, "admin@x.com")]
    (filter (fun p => Person.family_id p =? smith_id) (people two_families))
    (filter (fun c => Chore.family_id c =? smith_id) (chores two_families))
    (filter (fun a => (Assignment.family_id a =? smith_id)
                      && (Assignment.week_start_iso a =? "2026-02-15"))%bool
            (assignments two_families)).

(** Jo's dishes on the Wednesday of that week. *)
Definition wednesday_dishes : Assignment.row :=
  Assignment.mk (Routes.week_assignment_id jo_id "2026-02-15" dishes_id
                   sample_now 3)
    smith_id jo_id dishes_id "2026-02-15" 3.

(** Monday 16 February 2026, 10:30 in Santiago (13:30 UTC). *)
Definition monday_morning : Z := 1771248600000.

(** Wednesday 2 September 2026, 10:30 in Santiago (14:30 UTC), in the
    week before the clocks go forward, and the calendar then; Wednesday
    16 December 2026, 10:30 in Santiago, and the calendar then. *)
Definition before_the_change : Z := 1788359400000.
Definition in_september : App.calendar :=
  App.initial Spec.santiago before_the_change (before_the_change + 1)%Z.
Definition wednesday_in_december : Z := 1797427800000.
Definition in_december : App.calendar :=
  App.initial Spec.santiago wednesday_in_december (wednesday_in_december + 1)%Z.

(** Tuesday 8 September 2026, 10:30 UTC (07:30 in Santiago), in the week
    that the clock change opens. *)
Definition after_the_change : Z := 1788863400000.


End Samples.
(** * Proofs *)

(** ** Checks of the platform model on known values *)
Module Checks.
Import JSDate Calendar Spec JSString Auth.
Open Scope string_scope.

Example epoch_is_a_thursday :
  civil_from_days 0 = (1970, 1, 1)%Z /\ WeekDay 0 = 4%Z.
Proof. split; reflexivity. Qed.

Example monday_16_february_2026 :
  new_Date utc (Some 2026) (Some 1) 16 = Some 1771200000000%Z
  /\ getDay utc (new_Date utc (Some 2026) (Some 1) 16) = Some 1%Z
  /\ Day 1771200000000 = 20500%Z
  /\ getWeekStart utc (Some (1771200000000 + 37800000)%Z)
     = new_Date utc (Some 2026) (Some 1) 15.
Proof. repeat split; vm_compute; reflexivity. Qed.

(** In Santiago the same Monday starts at 03:00 UTC; Sunday 6 September
    2026 starts at 04:00 UTC, when the clocks show 01:00. *)
Example santiago_2026 :
  new_Date santiago (Some 2026) (Some 1) 16 = Some (1771200000000 + 10800000)%Z
  /\ new_Date santiago (Some 2026) (Some 8) 6 = Some september_change
  /\ LocalTime santiago september_change = (20702 * msPerDay + 3600000)%Z
  /\ LocalTime santiago (september_change - 1) = (20702 * msPerDay - 1)%Z
  /\ LocalTime santiago april_change = (20547 * msPerDay + 23 * 3600000)%Z
  /\ LocalTime santiago (april_change - 1) = (20548 * msPerDay - 1)%Z.
Proof. repeat split; vm_compute; reflexivity. Qed.

(** An invalid date stays invalid, and a date out of range is invalid. *)
Example invalid_dates :
  getDay utc None = None /\ setDate utc None (Some 1%Z) = None
  /\ setHours utc None 0 0 0 0 = None
  /\ new_Date utc None (Some 1%Z) 1 = None
  /\ getWeekStart utc None = None
  /\ new_Date utc (Some 275760%Z) (Some 8%Z) 13 = Some maxTime
  /\ new_Date utc (Some 275760%Z) (Some 8%Z) 14 = None
  /\ setDate utc (Some maxTime) (Some 14%Z) = None.
Proof. repeat split; vm_compute; reflexivity. Qed.

Example february_lengths :
  (MakeDay 2024 2 0 - MakeDay 2024 1 1 = 28
   /\ MakeDay 2026 2 0 - MakeDay 2026 1 1 = 27
   /\ MakeDay 2100 2 0 - MakeDay 2100 1 1 = 27
   /\ MakeDay 2000 2 0 - MakeDay 2000 1 1 = 28)%Z.
Proof. repeat split; vm_compute; reflexivity. Qed.

Example date_carries_over :
  new_Date utc (Some 2025) (Some 12) 1 = new_Date utc (Some 2026) (Some 0) 1
  /\ new_Date utc (Some 2026) (Some 0) 0 = new_Date utc (Some 2025) (Some 11) 31
  /\ new_Date utc (Some 99) (Some 11) 1 = new_Date utc (Some 1999) (Some 11) 1
  /\ setDate utc (new_Date utc (Some 2026) (Some 2) 1) (Some (-2))
     = new_Date utc (Some 2026) (Some 1) 26.
Proof. repeat split; vm_compute; reflexivity. Qed.

Example may_2026_has_six_rows :
  option_map (map (map (getDate santiago)))
    (monthMatrix santiago 6 (new_Date santiago (Some 2026) (Some 4) 1))
  = Some (map (map Some)
       [[26; 27; 28; 29; 30; 1; 2]; [3; 4; 5; 6; 7; 8; 9];
        [10; 11; 12; 13; 14; 15; 16]; [17; 18; 19; 20; 21; 22; 23];
        [24; 25; 26; 27; 28; 29; 30]; [31; 1; 2; 3; 4; 5; 6]]%Z).
Proof. vm_compute. reflexivity. Qed.

(** September 2026 in Santiago: the dates from Sunday the 6th, which
    has no midnight, are at 01:00. *)
Example september_2026_in_santiago :
  option_map (map (map (fun d => (getDate santiago d,
                                  option_map (fun t => TimeWithinDay (LocalTime santiago t)) d))))
    (monthMatrix santiago 6 (new_Date santiago (Some 2026) (Some 8) 1))
  = Some [map (fun n => (Some n, Some 0)) [30; 31; 1; 2; 3; 4; 5];
          map (fun n => (Some n, Some 3600000)) [6; 7; 8; 9; 10; 11; 12];
          map (fun n => (Some n, Some 3600000)) [13; 14; 15; 16; 17; 18; 19];
          map (fun n => (Some n, Some 3600000)) [20; 21; 22; 23; 24; 25; 26];
          map (fun n => (Some n, Some 3600000)) [27; 28; 29; 30; 1; 2; 3]]%Z.
Proof. vm_compute. reflexivity. Qed.

Example base_36 :
  toString36 1771200000000 = "mloeqyo0" /\ toString36 0 = "0"
  /\ toString36 35 = "z" /\ toString36 36 = "10".
Proof. repeat split; vm_compute; reflexivity. Qed.

Example slug_and_trim :
  slug "Smith  Family" = "smith-family" /\ slug " Jo " = "-jo-"
  /\ trim "  Take out trash  " = "Take out trash" /\ trim "   " = ""
  /\ ofNumber 0 = "0" /\ ofNumber 6 = "6" /\ ofNumber (-1) = "-1".
Proof. repeat split; vm_compute; reflexivity. Qed.

Example bearer_tokens :
  bearer (Some "Bearer abc.def") = Some "abc.def" /\ bearer (Some "Bearer ") = None
  /\ bearer (Some "") = None
  /\ split_space "" "a  b" = ["a"; ""; "b"].
Proof. repeat split; vm_compute; reflexivity. Qed.

End Checks.

(** ** The calendar of the platform *)
Module JSDateFacts.
Import JSDate Calendar Spec.

Lemma forall_from_spec (n : nat) (p : Z -> bool) :
  forall z0, forall_from n z0 p = true ->
  forall z, z0 <= z < z0 + Z.of_nat n -> p z = true.
Proof.
  induction n as [|k IH]; simpl forall_from; intros z0 H z Hz; [lia|].
  destruct (p z0) eqn:Hk; [|discriminate].
  destruct (Z.eq_dec z z0) as [->|Hne]; [exact Hk|].
  apply (IH (z0 + 1)); [exact H|lia].
Qed.

Lemma month_ok_cycle (r m : Z) :
  0 <= r < 400 -> 0 <= m <= 11 -> month_ok r m = true.
Proof.
  intros Hr Hm.
  assert (H : forall_from (Z.to_nat 4800) 0
                (fun k => month_ok (k / 12) (k mod 12)) = true)
    by (vm_compute; reflexivity).
  pose proof (forall_from_spec _ _ _ H (12 * r + m)) as Hc.
  cbv beta in Hc.
  assert (Hq : (12 * r + m) / 12 = r)
    by (symmetry; apply Z.div_unique with m; lia).
  assert (Hrem : (12 * r + m) mod 12 = m)
    by (symmetry; apply Z.mod_unique with r; lia).
  rewrite Hq, Hrem in Hc. apply Hc. rewrite Z2Nat.id; lia.
Qed.

Lemma month_ok_sound (r m : Z) :
  month_ok r m = true ->
  civil_from_days (MakeDay r m 1) = (r, m + 1, 1)
  /\ fst (civil_from_days (MakeDay r (m + 1) 0)) = (r, m + 1)
  /\ 27 <= MakeDay r (m + 1) 0 - MakeDay r m 1 <= 30.
Proof.
  unfold month_ok. intros Hc.
  destruct (civil_from_days (MakeDay r m 1)) as [[y1 m1] d1].
  destruct (civil_from_days (MakeDay r (m + 1) 0)) as [[y2 m2] d2].
  repeat (apply andb_prop in Hc; destruct Hc as [Hc ?]).
  repeat match goal with
         | H : (_ =? _) = true |- _ => apply Z.eqb_eq in H
         | H : (_ <=? _) = true |- _ => apply Z.leb_le in H
         end.
  subst. cbn [fst]. repeat split; lia.
Qed.

(** The calendar repeats every 400 years, which are 146097 days. *)
Lemma days_from_civil_cycle (y m d e : Z) :
  days_from_civil (y + 400 * e) m d = days_from_civil y m d + 146097 * e.
Proof.
  unfold days_from_civil.
  assert (Hy : (if m <=? 2 then y + 400 * e - 1 else y + 400 * e)
               = (if m <=? 2 then y - 1 else y) + e * 400)
    by (destruct (m <=? 2); lia).
  rewrite Hy, Z.div_add, Z.mod_add by lia. lia.
Qed.

Lemma civil_from_days_cycle (z e : Z) :
  civil_from_days (z + 146097 * e)
  = let '(y, m, d) := civil_from_days z in (y + 400 * e, m, d).
Proof.
  unfold civil_from_days.
  replace (z + 146097 * e + 719468) with (z + 719468 + e * 146097) by lia.
  rewrite Z.div_add, Z.mod_add by lia.
  set (doe := (z + 719468) mod 146097).
  set (yoe := (doe - doe / 1460 + doe / 36524 - doe / 146096) / 365).
  set (doy := doe - (365 * yoe + yoe / 4 - yoe / 100)).
  set (mp := (5 * doy + 2) / 153).
  destruct ((if mp <? 10 then mp + 3 else mp - 9) <=? 2); f_equal; f_equal; lia.
Qed.

Lemma MakeDay_cycle (y m d e : Z) :
  MakeDay (y + 400 * e) m d = MakeDay y m d + 146097 * e.
Proof.
  unfold MakeDay.
  replace (y + 400 * e + m / 12) with (y + m / 12 + 400 * e) by lia.
  rewrite days_from_civil_cycle. lia.
Qed.

(** A day number converts to a civil date that converts back. *)
Lemma civil_from_days_inv (z : Z) :
  let '(y, m, d) := civil_from_days z in
  days_from_civil y m d = z /\ 1 <= m <= 12 /\ 1 <= d <= 31.
Proof.
  unfold civil_from_days.
  pose proof (Z.div_mod (z + 719468) 146097 ltac:(lia)) as Hz.
  pose proof (Z.mod_pos_bound (z + 719468) 146097 ltac:(lia)) as Hdoe.
  set (era := (z + 719468) / 146097) in *.
  set (doe := (z + 719468) mod 146097) in *.
  set (yoe := (doe - doe / 1460 + doe / 36524 - doe / 146096) / 365).
  assert (Hyoe : 0 <= yoe <= 399)
    by (subst yoe; Z.div_mod_to_equations; lia).
  set (doy := doe - (365 * yoe + yoe / 4 - yoe / 100)).
  assert (Hdoy : 0 <= doy <= 365)
    by (subst doy yoe; Z.div_mod_to_equations; lia).
  set (mp := (5 * doy + 2) / 153).
  assert (Hmp : 0 <= mp <= 11) by (subst mp; Z.div_mod_to_equations; lia).
  assert (Hd : 1 <= doy - (153 * mp + 2) / 5 + 1 <= 31)
    by (subst mp; Z.div_mod_to_equations; lia).
  set (m := if mp <? 10 then mp + 3 else mp - 9).
  assert (Hm : 1 <= m <= 12 /\ (if 2 <? m then m - 3 else m + 9) = mp).
  { subst m. destruct (Z.ltb_spec mp 10).
    - destruct (Z.ltb_spec 2 (mp + 3)); lia.
    - destruct (Z.ltb_spec 2 (mp - 9)); lia. }
  destruct Hm as [Hm Hmp'].
  split; [|split; assumption].
  unfold days_from_civil. rewrite Hmp'.
  assert (Hy : (if m <=? 2
                then (if m <=? 2 then yoe + era * 400 + 1 else yoe + era * 400) - 1
                else (if m <=? 2 then yoe + era * 400 + 1 else yoe + era * 400))
               = yoe + era * 400) by (destruct (m <=? 2); lia).
  rewrite Hy, Z.div_add, Z.mod_add, Z.div_small, Z.mod_small by lia.
  subst doy. lia.
Qed.

Lemma MonthFromTime_range (t : Z) : 0 <= MonthFromTime t <= 11.
Proof.
  unfold MonthFromTime. pose proof (civil_from_days_inv (Day t)) as H.
  destruct (civil_from_days (Day t)) as [[y m] d]. simpl. lia.
Qed.

Lemma DateFromTime_range (t : Z) : 1 <= DateFromTime t <= 31.
Proof.
  unfold DateFromTime. pose proof (civil_from_days_inv (Day t)) as H.
  destruct (civil_from_days (Day t)) as [[y m] d]. simpl. lia.
Qed.

(** [MakeDay] on the fields of a time value: its own day, moved by the
    difference of the dates. *)
Lemma MakeDay_fields (t n : Z) :
  MakeDay (YearFromTime t) (MonthFromTime t) n = Day t + (n - DateFromTime t).
Proof.
  unfold MakeDay, YearFromTime, MonthFromTime, DateFromTime.
  pose proof (civil_from_days_inv (Day t)) as H.
  destruct (civil_from_days (Day t)) as [[y m] d]. simpl.
  destruct H as [H [Hm _]].
  rewrite Z.div_small, Z.mod_small by lia.
  replace (y + 0) with y by lia. replace (m - 1 + 1) with m by lia.
  rewrite <- H. unfold days_from_civil. lia.
Qed.

Lemma Day_TimeWithinDay (t : Z) : t = Day t * msPerDay + TimeWithinDay t.
Proof.
  unfold Day, TimeWithinDay, msPerDay.
  pose proof (Z.div_mod t 86400000 ltac:(lia)). lia.
Qed.

Lemma Day_shift (t k : Z) : Day (t + k * msPerDay) = Day t + k.
Proof. unfold Day, msPerDay. rewrite Z.div_add by lia. reflexivity. Qed.

Lemma TimeWithinDay_shift (t k : Z) :
  TimeWithinDay (t + k * msPerDay) = TimeWithinDay t.
Proof. unfold TimeWithinDay, msPerDay. rewrite Z.mod_add by lia. reflexivity. Qed.

Lemma TimeWithinDay_range (t : Z) : 0 <= TimeWithinDay t < msPerDay.
Proof. unfold TimeWithinDay, msPerDay. apply Z.mod_pos_bound. lia. Qed.

(** A time value in range is kept by [TimeClip]. *)
Lemma TimeClip_within (t : Z) : Z.abs t <= maxTime -> TimeClip t = Some t.
Proof.
  intros H. unfold TimeClip. destruct (Z.leb_spec (Z.abs t) maxTime); [reflexivity|lia].
Qed.

(** Setting the date to the current one plus [k] moves the local time
    by [k] whole days. *)
Lemma MakeDate_plus (t k : Z) :
  MakeDate (MakeDay (YearFromTime t) (MonthFromTime t) (DateFromTime t + k))
           (TimeWithinDay t) = t + k * msPerDay.
Proof.
  unfold MakeDate. rewrite MakeDay_fields.
  pose proof (Day_TimeWithinDay t). lia.
Qed.

Lemma setDate_plus (tz : TimeZone) (t k : Z) :
  setDate tz (Some t) (add (getDate tz (Some t)) (Some k))
  = TimeClip (UTC tz (LocalTime tz t + k * msPerDay)).
Proof. cbn [setDate getDate option_map add]. rewrite MakeDate_plus. reflexivity. Qed.

Lemma setDate_minus (tz : TimeZone) (t k : Z) :
  setDate tz (Some t) (sub (getDate tz (Some t)) (Some k))
  = TimeClip (UTC tz (LocalTime tz t - k * msPerDay)).
Proof.
  cbn [setDate getDate option_map sub].
  replace (DateFromTime (LocalTime tz t) - k)
    with (DateFromTime (LocalTime tz t) + - k) by lia.
  rewrite MakeDate_plus. do 2 f_equal. lia.
Qed.

Lemma setHours_midnight (tz : TimeZone) (t : Z) :
  setHours tz (Some t) 0 0 0 0 = TimeClip (midnight tz (local_day tz t)).
Proof.
  cbn [setHours]. unfold midnight, local_day, MakeDate, MakeTime.
  do 2 f_equal. lia.
Qed.

(** The first of a month and the day before the next first, for every
    year and month. *)
Lemma month_facts (y m : Z) :
  0 <= m <= 11 ->
  civil_from_days (MakeDay y m 1) = (y, m + 1, 1)
  /\ fst (civil_from_days (MakeDay y (m + 1) 0)) = (y, m + 1)
  /\ 27 <= MakeDay y (m + 1) 0 - MakeDay y m 1 <= 30.
Proof.
  intros Hm.
  pose proof (Z.div_mod y 400 ltac:(lia)) as Hy.
  pose proof (Z.mod_pos_bound y 400 ltac:(lia)) as Hr.
  set (r := y mod 400) in *. set (e := y / 400) in *. clearbody r e.
  destruct (month_ok_sound r m (month_ok_cycle r m Hr Hm)) as (H1 & H2 & H3).
  replace y with (r + 400 * e) by lia.
  rewrite !MakeDay_cycle, !civil_from_days_cycle, H1.
  destruct (civil_from_days (MakeDay r (m + 1) 0)) as [[y2 m2] d2].
  cbn [fst] in *. inversion H2; subst. repeat split; lia.
Qed.

End JSDateFacts.


(** ** The calendar engine *)
Module CalendarFacts.
Import JSDate Calendar Spec JSDateFacts.

Lemma WeekDay_range (t : Z) : 0 <= WeekDay t <= 6.
Proof. unfold WeekDay. pose proof (Z.mod_pos_bound (Day t + 4) 7). lia. Qed.

Lemma Day_of_midnight (n : Z) : Day (n * msPerDay) = n.
Proof. unfold Day, msPerDay. apply Z.div_mul. lia. Qed.

Lemma TimeWithinDay_of_midnight (n : Z) : TimeWithinDay (n * msPerDay) = 0.
Proof. unfold TimeWithinDay, msPerDay. apply Z.mod_mul. lia. Qed.

Lemma Day_bounds (t : Z) : Day t * msPerDay <= t < Day t * msPerDay + msPerDay.
Proof.
  pose proof (Day_TimeWithinDay t). pose proof (TimeWithinDay_range t). lia.
Qed.

Lemma Day_mono (t u : Z) : t <= u -> Day t <= Day u.
Proof. intros H. unfold Day, msPerDay. apply Z.div_le_mono; lia. Qed.

(** The Sunday on or before a day opens the week of that day. *)
Lemma sunday_of_spec (D : Z) :
  sunday (sunday_of D) /\ sunday_of D <= D < sunday_of D + 7.
Proof.
  unfold sunday, sunday_of.
  pose proof (Z.mod_pos_bound (D + 4) 7 ltac:(lia)).
  pose proof (Z.div_mod (D + 4) 7 ltac:(lia)).
  split; [|lia].
  replace (D - (D + 4) mod 7 + 4) with (((D + 4) / 7) * 7) by lia.
  apply Z.mod_mul. lia.
Qed.

Lemma sunday_of_span (S D : Z) :
  sunday S -> S <= D < S + 7 -> sunday_of D = S.
Proof.
  unfold sunday, sunday_of. intros HS HD.
  pose proof (Z.div_mod (S + 4) 7 ltac:(lia)) as Hq. rewrite HS in Hq.
  assert (Hw : (D + 4) mod 7 = D - S).
  { symmetry. apply Z.mod_unique with ((S + 4) / 7); lia. }
  lia.
Qed.

Lemma WeekDay_of_sunday (S : Z) (i : Z) :
  sunday S -> 0 <= i < 7 -> (S + i + 4) mod 7 = i.
Proof.
  unfold sunday. intros HS Hi.
  pose proof (Z.div_mod (S + 4) 7 ltac:(lia)) as Hq. rewrite HS in Hq.
  symmetry. apply Z.mod_unique with ((S + 4) / 7); lia.
Qed.

(** *** Zones *)

(** A zone without clock changes is regular. *)
Lemma fixed_regular (c : Z) : - msPerDay < c < msPerDay -> regular (fixed c).
Proof.
  intros Hc. split; unfold local_day, midnight, LocalTime, UTC, fixed.
  - intros _ _. exact Hc.
  - intros x. f_equal. lia.
  - intros t. lia.
  - intros t u H. apply Day_mono. lia.
  - intros t. pose proof (Day_bounds (t + c)). lia.
Qed.

Lemma utc_regular : regular utc.
Proof. apply fixed_regular. unfold msPerDay. lia. Qed.

Ltac santiago_cases :=
  unfold local_day, midnight, LocalTime, UTC, santiago, Day,
    april_change, september_change, msPerDay;
  intros;
  repeat match goal with
         | |- context [?a <? ?b] => destruct (Z.ltb_spec a b)
         end;
  Z.div_mod_to_equations; lia.

(** So is Santiago with its two clock changes of 2026. *)
Lemma santiago_regular : regular santiago.
Proof.
  split.
  - intros t [|]; santiago_cases.
  - santiago_cases.
  - santiago_cases.
  - santiago_cases.
  - santiago_cases.
Qed.

(** *** Dates in a regular zone *)
Section Zone.
Variable tz : TimeZone.
Hypothesis Hreg : regular tz.

Lemma LocalTime_near (t : Z) : t - msPerDay < LocalTime tz t < t + msPerDay.
Proof. pose proof (offset_bound tz Hreg t true). unfold LocalTime. lia. Qed.

Lemma UTC_near (x : Z) : x - msPerDay < UTC tz x < x + msPerDay.
Proof. pose proof (offset_bound tz Hreg x false). unfold UTC. lia. Qed.

Lemma local_day_UTC (x : Z) : local_day tz (UTC tz x) = Day x.
Proof. apply (same_day tz Hreg). Qed.

Lemma local_day_midnight (D : Z) : local_day tz (midnight tz D) = D.
Proof. unfold midnight. rewrite local_day_UTC. apply Day_of_midnight. Qed.

Lemma local_day_moved (t k : Z) :
  local_day tz (UTC tz (LocalTime tz t + k * msPerDay)) = local_day tz t + k.
Proof. rewrite local_day_UTC. apply Day_shift. Qed.

Lemma local_day_near (t : Z) :
  t - 2 * msPerDay < local_day tz t * msPerDay < t + msPerDay.
Proof.
  unfold local_day. pose proof (Day_bounds (LocalTime tz t)).
  pose proof (LocalTime_near t). lia.
Qed.

Lemma midnight_near (D : Z) :
  (D - 1) * msPerDay < midnight tz D < (D + 1) * msPerDay.
Proof. unfold midnight. pose proof (UTC_near (D * msPerDay)). lia. Qed.

(** Days start in the order of their numbers. *)
Lemma midnight_mono (D1 D2 : Z) :
  D1 <= D2 -> midnight tz D1 <= midnight tz D2.
Proof.
  intros Hle. destruct (Z_le_gt_dec (midnight tz D1) (midnight tz D2)) as [H|H];
    [exact H|exfalso].
  pose proof (days_in_order tz Hreg (midnight tz D2) (midnight tz D1) ltac:(lia)) as Hd.
  rewrite !local_day_midnight in Hd.
  assert (D1 = D2) by lia. subst. lia.
Qed.

Lemma midnight_le (t : Z) : midnight tz (local_day tz t) <= t.
Proof. apply (day_start tz Hreg). Qed.



(** Where local midnight of day [D] exists, the day starts at it. *)
Lemma midnight_exact (D : Z) :
  (exists u, LocalTime tz u = D * msPerDay) ->
  LocalTime tz (midnight tz D) = D * msPerDay.
Proof.
  intros [u Hu]. unfold midnight. rewrite <- Hu. apply (read_back tz Hreg).
Qed.

Lemma sunday_start_near (t : Z) :
  t - 9 * msPerDay < midnight tz (sunday_of (local_day tz t)) <= t.
Proof.
  destruct (sunday_of_spec (local_day tz t)) as [_ Hs].
  pose proof (midnight_near (sunday_of (local_day tz t))).
  pose proof (local_day_near t).
  pose proof (midnight_mono (sunday_of (local_day tz t)) (local_day tz t) ltac:(lia)).
  pose proof (midnight_le t). unfold msPerDay in *. lia.
Qed.

(** The week start is the start of the Sunday on or before the local
    day of the date. *)
Lemma getWeekStart_eq (t : Z) :
  within 10 t ->
  getWeekStart tz (Some t) = Some (midnight tz (sunday_of (local_day tz t))).
Proof.
  intros Ht. unfold getWeekStart.
  change (getDay tz (Some t)) with (Some (WeekDay (LocalTime tz t))).
  rewrite setDate_minus.
  pose proof (WeekDay_range (LocalTime tz t)) as Hw.
  pose proof (LocalTime_near t) as Hl.
  pose proof (UTC_near (LocalTime tz t - WeekDay (LocalTime tz t) * msPerDay)) as Hu.
  rewrite TimeClip_within
    by (unfold within, maxTime, msPerDay in *; lia).
  rewrite setHours_midnight.
  replace (LocalTime tz t - WeekDay (LocalTime tz t) * msPerDay)
    with (LocalTime tz t + - WeekDay (LocalTime tz t) * msPerDay) by lia.
  rewrite local_day_moved.
  replace (local_day tz t + - WeekDay (LocalTime tz t))
    with (sunday_of (local_day tz t))
    by (unfold sunday_of, local_day, WeekDay; lia).
  pose proof (sunday_start_near t).
  apply TimeClip_within. unfold within, maxTime, msPerDay in *. lia.
Qed.

(** The week start of the start of a Sunday is itself. *)
Lemma getWeekStart_of_sunday (S : Z) :
  sunday S -> within 10 (midnight tz S) ->
  getWeekStart tz (Some (midnight tz S)) = Some (midnight tz S).
Proof.
  intros HS Hr. rewrite getWeekStart_eq by exact Hr.
  rewrite local_day_midnight, (sunday_of_span S S HS) by lia. reflexivity.
Qed.

(** *** One day after the other *)













(** With an invalid end of the month no row reaches it: the loop runs
    out of every fuel. *)
Lemma month_loop_invalid_end (fuel : nat) :
  forall (current : Date) (weeks : list (list Date)),
  month_loop tz fuel current None weeks = None.
Proof.
  induction fuel as [|fuel IH]; intros current weeks; [reflexivity|].
  cbn [month_loop]. destruct (fill_week tz 7 current []) as [week current'].
  replace (reaches week None) with false; [apply IH|].
  unfold reaches. destruct (nth_error week 6) as [[a|]|]; reflexivity.
Qed.






Lemma new_Date_full_year (y m d : Z) :
  y < 0 \/ 99 < y ->
  new_Date tz (Some y) (Some m) d = TimeClip (midnight tz (MakeDay y m d)).
Proof.
  intros Hy. unfold new_Date, midnight, MakeDate, MakeTime.
  replace ((0 <=? y) && (y <=? 99))%bool with false
    by (destruct (Z.leb_spec 0 y); destruct (Z.leb_spec y 99); cbn [andb]; lia).
  do 2 f_equal. lia.
Qed.

Lemma new_Date_short_year (y m d : Z) :
  0 <= y <= 99 ->
  new_Date tz (Some y) (Some m) d = TimeClip (midnight tz (MakeDay (1900 + y) m d)).
Proof.
  intros Hy. unfold new_Date, midnight, MakeDate, MakeTime.
  replace ((0 <=? y) && (y <=? 99))%bool with true
    by (destruct (Z.leb_spec 0 y); destruct (Z.leb_spec y 99); cbn [andb]; lia).
  do 2 f_equal. lia.
Qed.

End Zone.

Lemma MakeDay_next_year (y d : Z) : MakeDay y 12 d = MakeDay (y + 1) 0 d.
Proof.
  unfold MakeDay. change (12 / 12) with 1. change (12 mod 12) with 0.
  change (0 / 12) with 0. change (0 mod 12) with 0.
  replace (y + 1 + 0) with (y + 1) by lia. reflexivity.
Qed.

Lemma MakeDay_date (y m d k : Z) : MakeDay y m (d + k) = MakeDay y m d + k.
Proof. unfold MakeDay. lia. Qed.


(** The first of the month of a local time is at most 30 days before
    its day. *)
Lemma first_of_month_near (x : Z) :
  MakeDay (YearFromTime x) (MonthFromTime x) 1 = Day x - (DateFromTime x - 1)
  /\ Day x - 30 <= MakeDay (YearFromTime x) (MonthFromTime x) 1 <= Day x.
Proof.
  rewrite MakeDay_fields. pose proof (DateFromTime_range x). lia.
Qed.

(** For the last month of the range of time values [monthMatrix] runs
    out of every fuel. *)
Lemma monthMatrix_last_month (fuel : nat) :
  monthMatrix utc fuel (Some maxTime) = None.
Proof.
  unfold monthMatrix.
  replace (new_Date utc (getFullYear utc (Some maxTime))
             (add (getMonth utc (Some maxTime)) (Some 1)) 0)
    with (@None Z) by (vm_compute; reflexivity).
  apply month_loop_invalid_end.
Qed.

End CalendarFacts.


Import JSDate Calendar Spec JSDateFacts CalendarFacts.

(** C6, amended: in a regular time zone, for every date [t] a year or
    more inside the range of time values, [getWeekStart] returns the
    start of a Sunday [S]: the Sunday on or before the local day of [t],
    less than seven days before it; the result is on that Sunday, at or
    before [t], and at local midnight where the zone has a local
    midnight on that day; [getWeekStart] is idempotent; and every date
    whose local day lies in the span from that Sunday to the Saturday
    after it has the same week start, which is at or before it. *)
Theorem getWeekStart_sunday_of_span (tz : TimeZone) (t : Z) :
  regular tz -> comfortable t ->
  exists S : Z,
    getWeekStart tz (Some t) = Some (midnight tz S)
    /\ sunday S
    /\ S <= local_day tz t < S + 7
    /\ local_day tz (midnight tz S) = S
    /\ getDay tz (Some (midnight tz S)) = Some 0
    /\ midnight tz S <= t
    /\ ((exists u, LocalTime tz u = S * msPerDay) ->
        TimeWithinDay (LocalTime tz (midnight tz S)) = 0)
    /\ getWeekStart tz (getWeekStart tz (Some t)) = getWeekStart tz (Some t)
    /\ (forall t' : Z,
          comfortable t' -> S <= local_day tz t' < S + 7 ->
          getWeekStart tz (Some t') = getWeekStart tz (Some t)
          /\ midnight tz S <= t').
Proof.
  intros Hreg Ht. exists (sunday_of (local_day tz t)).
  destruct (sunday_of_spec (local_day tz t)) as [HS Hspan].
  pose proof (sunday_start_near tz Hreg t) as Hnear.
  assert (Hstart : getWeekStart tz (Some t)
                   = Some (midnight tz (sunday_of (local_day tz t)))).
  { apply getWeekStart_eq; [exact Hreg|].
    unfold comfortable, within, maxTime, msPerDay in *. lia. }
  split; [exact Hstart|]. split; [exact HS|]. split; [exact Hspan|].
  split; [apply (local_day_midnight tz Hreg)|].
  split.
  { cbn [getDay option_map]. f_equal. unfold WeekDay.
    fold (local_day tz (midnight tz (sunday_of (local_day tz t)))).
    rewrite (local_day_midnight tz Hreg). exact HS. }
  split; [lia|].
  split.
  { intros Hex. rewrite (midnight_exact tz Hreg _ Hex).
    apply TimeWithinDay_of_midnight. }
  split.
  { rewrite Hstart. apply (getWeekStart_of_sunday tz Hreg _ HS).
    unfold comfortable, within, maxTime, msPerDay in *. lia. }
  intros t' Ht' Hspan'. split.
  - rewrite Hstart.
    rewrite (getWeekStart_eq tz Hreg)
      by (unfold comfortable, within, maxTime, msPerDay in *; lia).
    rewrite (sunday_of_span _ _ HS Hspan'). reflexivity.
  - pose proof (midnight_mono tz Hreg _ _ (proj1 Hspan')).
    pose proof (midnight_le tz Hreg t'). lia.
Qed.

(** Tuesday 8 September 2026 in Santiago: its week starts on Sunday the
    6th, the day of the clock change. *)
Lemma getWeekStart_sunday_of_span_witness :
  exists S : Z,
    getWeekStart santiago (Some Samples.after_the_change) = Some (midnight santiago S)
    /\ sunday S
    /\ S <= local_day santiago Samples.after_the_change < S + 7
    /\ local_day santiago (midnight santiago S) = S
    /\ getDay santiago (Some (midnight santiago S)) = Some 0
    /\ midnight santiago S <= Samples.after_the_change
    /\ ((exists u, LocalTime santiago u = S * msPerDay) ->
        TimeWithinDay (LocalTime santiago (midnight santiago S)) = 0)
    /\ getWeekStart santiago (getWeekStart santiago (Some Samples.after_the_change))
       = getWeekStart santiago (Some Samples.after_the_change)
    /\ (forall t' : Z,
          comfortable t' -> S <= local_day santiago t' < S + 7 ->
          getWeekStart santiago (Some t')
          = getWeekStart santiago (Some Samples.after_the_change)
          /\ midnight santiago S <= t').
Proof.
  refine (getWeekStart_sunday_of_span santiago Samples.after_the_change
            santiago_regular _).
  vm_compute. discriminate.
Defined.

(** C6, as stated, fails: in Santiago the week start of Tuesday 8
    September 2026 is Sunday 6 September at 01:00 local time, not at
    midnight, which that Sunday does not have; and the first date of the
    range, a Tuesday, has no week start (the result is an invalid
    date). *)
Lemma getWeekStart_not_at_midnight :
  getWeekStart santiago (Some Samples.after_the_change) = Some september_change
  /\ getDay santiago (Some september_change) = Some 0
  /\ TimeWithinDay (LocalTime santiago september_change) = 3600000
  /\ TimeWithinDay (LocalTime santiago september_change) <> 0
  /\ getDay utc (Some (- maxTime)) = Some 2
  /\ getWeekStart utc (Some (- maxTime)) = None.
Proof. repeat split; vm_compute; congruence. Qed.




(** ** The authorization guard of the routes *)
Module GuardFacts.
Import JSString Store Http Auth Routes Families Api ApiSpec.
Open Scope string_scope.

Lemma familyId_mismatch (user : token_payload) (f : string) :
  familyId user <> f -> (familyId user =? f) = false.
Proof. intros H. apply String.eqb_neq. exact H. Qed.

Lemma not_admin_of_family (user : token_payload) (f : string) :
  familyId user <> f -> not_admin_of user f = true.
Proof.
  intros H. unfold not_admin_of. rewrite (familyId_mismatch user f H).
  apply orb_true_r.
Qed.

Lemma not_admin_of_type (user : token_payload) (f : string) :
  type user <> "admin" -> not_admin_of user f = true.
Proof.
  intros H. unfold not_admin_of. apply String.eqb_neq in H. rewrite H.
  reflexivity.
Qed.

Lemma find_none_existsb {A : Type} (p : A -> bool) (l : list A) :
  find p l = None <-> existsb p l = false.
Proof.
  induction l as [|a l IH]; simpl; [tauto|].
  destruct (p a); simpl; [split; discriminate | exact IH].
Qed.

(** The record a by-id route addresses is missing exactly when the
    request has no addressed family. *)
Lemma addressed_family_none (db : database) (req : request) :
  by_id req = true ->
  (addressed_family db req = None <-> record_exists db req = false).
Proof.
  destruct req; simpl; try discriminate; intros _;
    unfold person_by_id, chore_by_id, assignment_by_id;
    rewrite <- find_none_existsb;
    match goal with |- context [find ?p ?l] => destruct (find p l) end;
    simpl; split; congruence.
Qed.

(** Unfolds the handler of a request and the lookups of its guard. *)
Ltac unfold_route :=
  unfold handle, get_family, post_admin, Families.delete_admin, get_people,
    post_person, put_person, Routes.delete_person, get_chores, post_chore,
    put_chore, Routes.delete_chore, get_assignments, post_assignment, post_week,
    Routes.delete_assignment, addressed_family in *.

(** A token of another family than the addressed one gets 403. *)
Lemma other_family_403 (hash : string -> string) (now : nat -> N)
  (user : token_payload) (req : request) (db : database) (f : string) :
  addressed_family db req = Some f -> familyId user <> f ->
  status (fst (handle hash now user req db)) = 403
  /\ snd (handle hash now user req db) = db.
Proof.
  intros Hf Hne.
  destruct req; unfold_route;
    try (injection Hf as <-;
         rewrite ?(familyId_mismatch _ _ Hne), ?(not_admin_of_family _ _ Hne);
         split; reflexivity);
    unfold person_by_id, chore_by_id, assignment_by_id in *;
    match goal with
    | H : option_map _ (find ?p ?l) = Some _ |- _ =>
        destruct (find p l) as [r|]; simpl in H; [|discriminate];
        injection H as <-
    end;
    rewrite (not_admin_of_family _ _ Hne); split; reflexivity.
Qed.

(** A token that is not an admin's gets 403 from a mutating route, once
    the addressed record is found. *)
Lemma not_admin_403 (hash : string -> string) (now : nat -> N)
  (user : token_payload) (req : request) (db : database) (f : string) :
  mutating req = true -> type user <> "admin" ->
  addressed_family db req = Some f ->
  status (fst (handle hash now user req db)) = 403
  /\ snd (handle hash now user req db) = db.
Proof.
  intros Hmut Hty Hf.
  destruct req; try discriminate Hmut; unfold_route;
    try (rewrite (not_admin_of_type _ _ Hty); split; reflexivity);
    unfold person_by_id, chore_by_id, assignment_by_id in *;
    match goal with
    | H : option_map _ (find ?p ?l) = Some _ |- _ =>
        destruct (find p l) as [r|]; simpl in H; [|discriminate]
    end;
    rewrite (not_admin_of_type _ _ Hty); split; reflexivity.
Qed.

(** A by-id route answers 404 when no record has the id, whoever asks. *)
Lemma missing_record_404 (hash : string -> string) (now : nat -> N)
  (user : token_payload) (req : request) (db : database) :
  by_id req = true -> addressed_family db req = None ->
  status (fst (handle hash now user req db)) = 404
  /\ snd (handle hash now user req db) = db.
Proof.
  intros Hid Hf.
  destruct req; try discriminate Hid; unfold_route;
    unfold person_by_id, chore_by_id, assignment_by_id in *;
    match goal with
    | H : option_map _ (find ?p ?l) = None |- _ =>
        destruct (find p l) as [r|]; simpl in H; [discriminate|]
    end;
    split; reflexivity.
Qed.

End GuardFacts.

Import JSString Store Http Auth Routes Families Api ApiSpec GuardFacts.
Open Scope string_scope.

(** C1, as amended: a token of another family than the one that owns the
    addressed resource gets 403 and the store is unchanged; a token that
    is not an admin's gets 403 from every create, update and delete route
    with the store unchanged, where the route names a family or names a
    record that exists; where a by-id route names a record that does not
    exist the answer is 404, the store unchanged. *)
Theorem guard_rejects_403 (hash : string -> string) (now : nat -> N)
  (user : token_payload) (req : request) (db : database) :
  (forall f, addressed_family db req = Some f -> familyId user <> f ->
     status (fst (handle hash now user req db)) = 403
     /\ snd (handle hash now user req db) = db)
  /\ (mutating req = true -> type user <> "admin" ->
      match addressed_family db req with
      | Some _ =>
          status (fst (handle hash now user req db)) = 403
          /\ snd (handle hash now user req db) = db
      | None =>
          by_id req = true
          /\ status (fst (handle hash now user req db)) = 404
          /\ snd (handle hash now user req db) = db
      end).
Proof.
  split.
  - intros f. apply other_family_403.
  - intros Hmut Hty. destruct (addressed_family db req) as [f|] eqn:Hf.
    + apply (not_admin_403 hash now user req db f); assumption.
    + assert (Hid : by_id req = true)
        by (destruct req; simpl in Hf; try discriminate Hf; reflexivity).
      split; [exact Hid|]. apply missing_record_404; assumption.
Qed.

(** A member of the Smith family and an admin of the Jones family try to
    delete the Smiths' chore. *)
Lemma guard_rejects_403_witness :
  (status (fst (handle sample_hash sample_now jones_admin
                       (DeleteChore "dishes-1") smith)) = 403
   /\ snd (handle sample_hash sample_now jones_admin
                  (DeleteChore "dishes-1") smith) = smith)
  /\ (status (fst (handle sample_hash sample_now smith_member
                          (DeleteChore "dishes-1") smith)) = 403
      /\ snd (handle sample_hash sample_now smith_member
                     (DeleteChore "dishes-1") smith) = smith).
Proof.
  split.
  - refine (proj1 (guard_rejects_403 sample_hash sample_now jones_admin
                     (DeleteChore "dishes-1") smith) "smith" eq_refl _).
    discriminate.
  - refine (proj2 (guard_rejects_403 sample_hash sample_now smith_member
                     (DeleteChore "dishes-1") smith) eq_refl _).
    discriminate.
Defined.

(** C1, as stated, fails: a member's request to delete a chore id that no
    chore has is a mutating request by a non-admin, and it gets 404. *)
Lemma member_delete_missing_chore_404 :
  mutating (DeleteChore "nope") = true
  /\ type smith_member <> "admin"
  /\ status (fst (handle sample_hash sample_now smith_member
                         (DeleteChore "nope") smith)) = 404
  /\ status (fst (handle sample_hash sample_now smith_member
                         (DeleteChore "nope") smith)) <> 403.
Proof. repeat split; try reflexivity; discriminate. Qed.

(** C10: on the by-id routes the lookup comes before the guard.  An id
    that no record has gets 404 with the store unchanged, whatever the
    family and role of the token; an existing record of another family
    than the token's gets 403 with the store unchanged; so the two
    answers tell a principal whether a foreign id exists. *)
Theorem by_id_existence_before_authorization (hash : string -> string)
  (now : nat -> N) (user : token_payload) (req : request) (db : database) :
  by_id req = true ->
  (record_exists db req = false ->
     status (fst (handle hash now user req db)) = 404
     /\ snd (handle hash now user req db) = db)
  /\ (forall f, addressed_family db req = Some f -> familyId user <> f ->
        record_exists db req = true
        /\ status (fst (handle hash now user req db)) = 403
        /\ snd (handle hash now user req db) = db)
  /\ (forall req' f, by_id req' = true -> record_exists db req = false ->
        addressed_family db req' = Some f -> familyId user <> f ->
        status (fst (handle hash now user req db))
        <> status (fst (handle hash now user req' db))).
Proof.
  intros Hid. split; [|split].
  - intros Hex. apply missing_record_404; [exact Hid|].
    apply addressed_family_none; assumption.
  - intros f Hf Hne. split.
    + destruct (record_exists db req) eqn:Hex; [reflexivity|].
      apply addressed_family_none in Hex; [congruence | exact Hid].
    + apply (other_family_403 hash now user req db f); assumption.
  - intros req' f Hid' Hex Hf Hne.
    apply addressed_family_none in Hex; [|exact Hid].
    destruct (missing_record_404 hash now user req db Hid Hex) as [-> _].
    destruct (other_family_403 hash now user req' db f Hf Hne) as [-> _].
    discriminate.
Qed.

(** An admin of the Jones family probes a missing and an existing chore
    id of the Smith family. *)
Lemma by_id_existence_before_authorization_witness :
  (status (fst (handle sample_hash sample_now jones_admin
                       (DeleteChore "nope") smith)) = 404
   /\ snd (handle sample_hash sample_now jones_admin
                  (DeleteChore "nope") smith) = smith)
  /\ (record_exists smith (DeleteChore "dishes-1") = true
      /\ status (fst (handle sample_hash sample_now jones_admin
                             (DeleteChore "dishes-1") smith)) = 403
      /\ snd (handle sample_hash sample_now jones_admin
                     (DeleteChore "dishes-1") smith) = smith).
Proof.
  split.
  - exact (proj1 (by_id_existence_before_authorization sample_hash sample_now
                    jones_admin (DeleteChore "nope") smith eq_refl) eq_refl).
  - refine (proj1 (proj2 (by_id_existence_before_authorization sample_hash
                            sample_now jones_admin (DeleteChore "dishes-1")
                            smith eq_refl)) "smith" eq_refl _).
    discriminate.
Defined.

(** C2, as amended: a request whose [Authorization] header carries no
    token is answered 401; a request whose token the verification rejects,
    as invalid or as expired, is answered 403; in both cases the store
    is unchanged and the route handler does not run. *)
Theorem authenticateToken_rejects (verify : string -> verified)
  (hash : string -> string) (now : nat -> N) (authorization : option string)
  (req : request) (db : database) :
  (bearer authorization = None ->
     serve verify hash now authorization req db
     = (reply 401 (Error "Access token required"), db))
  /\ (forall token err,
        bearer authorization = Some token -> verify token = Failed err ->
        serve verify hash now authorization req db
        = (reply 403 (Error "Invalid or expired token"), db))
  /\ bearer None = None
  /\ bearer (Some "Bearer") = None.
Proof.
  unfold serve, authenticateToken. repeat split.
  - intros ->. reflexivity.
  - intros token err -> ->. reflexivity.
Qed.

(** A request without the header, and one with an expired token. *)
Lemma authenticateToken_rejects_witness :
  serve reject_all sample_hash sample_now None (GetChores "smith") smith
  = (reply 401 (Error "Access token required"), smith)
  /\ serve reject_all sample_hash sample_now (Some "Bearer abc")
           (GetChores "smith") smith
     = (reply 403 (Error "Invalid or expired token"), smith).
Proof.
  split.
  - exact (proj1 (authenticateToken_rejects reject_all sample_hash sample_now
                    None (GetChores "smith") smith) eq_refl).
  - exact (proj1 (proj2 (authenticateToken_rejects reject_all sample_hash
                           sample_now (Some "Bearer abc") (GetChores "smith")
                           smith)) "abc" TokenExpiredError eq_refl eq_refl).
Defined.

(** C2, as stated, fails: an expired token is answered 403, not 401. *)
Lemma expired_token_gets_403 :
  bearer (Some "Bearer abc") = Some "abc"
  /\ reject_all "abc" = Failed TokenExpiredError
  /\ status (fst (serve reject_all sample_hash sample_now (Some "Bearer abc")
                        (GetChores "smith") smith)) = 403
  /\ status (fst (serve reject_all sample_hash sample_now (Some "Bearer abc")
                        (GetChores "smith") smith)) <> 401.
Proof. repeat split; try reflexivity; discriminate. Qed.

(** ** Admin removal, validation and family creation *)

(** C5: for an admin of the family the path names, removing an admin of
    a family with exactly one admin fails with the 400 last-admin error,
    and removing oneself fails with a 400 error, the self-removal error
    unless the last-admin check, which comes first, already answered;
    in both cases the store, and so the admins table, is unchanged. *)
Theorem delete_admin_last_or_self (user : token_payload) (fid aid : string)
  (db : database) :
  type user = "admin" -> familyId user = fid ->
  (count_admins db fid = 1%Z ->
     Families.delete_admin user fid aid db
     = (reply 400 (Error "Cannot remove the last admin"), db))
  /\ (adminId user = Some aid ->
        status (fst (Families.delete_admin user fid aid db)) = 400%Z
        /\ snd (Families.delete_admin user fid aid db) = db
        /\ body (fst (Families.delete_admin user fid aid db))
           = Error (if (count_admins db fid <=? 1)%Z
                    then "Cannot remove the last admin"
                    else "Cannot remove yourself")).
Proof.
  intros Hty Hfam.
  assert (Hguard : not_admin_of user fid = false).
  { unfold not_admin_of. rewrite Hty, Hfam, !String.eqb_refl. reflexivity. }
  unfold Families.delete_admin. rewrite Hguard. split.
  - intros ->. reflexivity.
  - intros Hself. unfold is_self. rewrite Hself, String.eqb_refl.
    destruct (count_admins db fid <=? 1)%Z; repeat split.
Qed.

(** The only admin of the Smith family, and one of two admins, try to
    remove themselves. *)
Lemma delete_admin_last_or_self_witness :
  Families.delete_admin smith_admin "smith" "admin-1" smith
  = (reply 400 (Error "Cannot remove the last admin"), smith)
  /\ (status (fst (Families.delete_admin smith_admin "smith" "admin-1"
                     smith_two_admins)) = 400%Z
      /\ snd (Families.delete_admin smith_admin "smith" "admin-1"
                smith_two_admins) = smith_two_admins
      /\ body (fst (Families.delete_admin smith_admin "smith" "admin-1"
                      smith_two_admins))
         = Error "Cannot remove yourself").
Proof.
  split.
  - exact (proj1 (delete_admin_last_or_self smith_admin "smith" "admin-1" smith
                    eq_refl eq_refl) eq_refl).
  - exact (proj2 (delete_admin_last_or_self smith_admin "smith" "admin-1"
                    smith_two_admins eq_refl eq_refl) eq_refl).
Defined.

(** The part of C9 the routes do enforce: a chore label that is missing
    or empty after trimming, and a person name or email that is missing
    or empty, are answered 400 with the store unchanged. *)
Lemma required_fields_rejected (user : token_payload) (fid : string)
  (label name email phone color : option string) (now : nat -> N)
  (db : database) :
  not_admin_of user fid = false ->
  (truthy label = false \/ trim (str label) = "" ->
     post_chore user fid label now db
     = (reply 400 (Error "Chore label required"), db)
     /\ forall c, chore_by_id db c <> None ->
          not_admin_of user (match chore_by_id db c with
                             | Some r => Chore.family_id r
                             | None => ""
                             end) = false ->
          put_chore user c label db
          = (reply 400 (Error "Chore label required"), db))
  /\ (truthy name = false \/ truthy email = false ->
        post_person user fid name email phone now db
        = (reply 400 (Error "Name and email required"), db)
        /\ forall p, person_by_id db p <> None ->
             not_admin_of user (match person_by_id db p with
                                | Some r => Person.family_id r
                                | None => ""
                                end) = false ->
             put_person user p name email phone color db
             = (reply 400 (Error "Name and email required"), db)).
Proof.
  intros Hguard. split.
  - intros Hlabel.
    assert (Hbad : (negb (truthy label) || (trim (str label) =? ""))%bool = true).
    { destruct Hlabel as [-> | ->]; [reflexivity|].
      rewrite String.eqb_refl. apply orb_true_r. }
    split.
    + unfold post_chore. rewrite Hguard, Hbad. reflexivity.
    + intros c Hc Hg. unfold put_chore.
      destruct (chore_by_id db c); [|congruence].
      rewrite Hg, Hbad. reflexivity.
  - intros Hfields.
    assert (Hbad : (negb (truthy name) || negb (truthy email))%bool = true).
    { destruct Hfields as [-> | ->]; [reflexivity | apply orb_true_r]. }
    split.
    + unfold post_person. rewrite Hguard, Hbad. reflexivity.
    + intros p Hp Hg. unfold put_person.
      destruct (person_by_id db p); [|congruence].
      rewrite Hg, Hbad. reflexivity.
Qed.

(** C9 fails on the people routes: a name of three spaces is empty after
    trimming, yet the admin's request to add a person with it is answered
    201 and the row is stored, and the request to rename Jo to it is
    answered 200 and the row is changed; the chore route rejects the same
    text as a label. *)
Theorem people_routes_accept_blank_name :
  trim "   " = ""
  /\ post_person smith_admin "smith" (Some "   ") (Some "al@x.com") None
       sample_now smith
     = (reply 201 (PersonRow (Some (Person.mk "--mloeqyo0" "smith" "   "
                                              "al@x.com" None "#f97316"))),
        mkDb (families smith) (admins smith)
             (people smith ++ [Person.mk "--mloeqyo0" "smith" "   " "al@x.com"
                                         None "#f97316"])
             (chores smith) (assignments smith))
  /\ put_person smith_admin "jo-1" (Some "   ") (Some "jo@x.com") None None smith
     = (ok (PersonRow (Some (Person.mk "jo-1" "smith" "   " "jo@x.com" None
                                       "#f97373"))),
        mkDb (families smith) (admins smith)
             [Person.mk "jo-1" "smith" "   " "jo@x.com" None "#f97373"]
             (chores smith) (assignments smith))
  /\ post_chore smith_admin "smith" (Some "   ") sample_now smith
     = (reply 400 (Error "Chore label required"), smith).
Proof. repeat split; vm_compute; reflexivity. Qed.

Lemma existsb_snoc {A : Type} (p : A -> bool) (l : list A) (a : A) :
  existsb p (l ++ [a]) = (existsb p l || p a)%bool.
Proof. rewrite existsb_app. simpl. rewrite orb_false_r. reflexivity. Qed.

(** When the statements all succeed the store is the old one with the
    family, the admin and the four chores added. *)
Lemma create_family_statements_inr (hash : string -> string)
  (name adminEmail adminPassword : option string) (now : nat -> N)
  (db db' : database) :
  create_family_statements hash name adminEmail adminPassword now db = inr db' ->
  db' = with_family db hash name adminEmail adminPassword now.
Proof.
  unfold create_family_statements, with_family, created_chores.
  set (fid := created_family_id name now).
  unfold insert_family, insert_admin, insert_default_chores, defaultChores,
    insert_chore, bind.
  repeat match goal with
         | |- context [if ?c then _ else _] =>
             destruct c eqn:?; cbn [families admins people chores assignments
                                    Chore.id Chore.family_id Admin.id
                                    Admin.family_id Admin.email Family.id]
         end; try discriminate.
  intros H. injection H as <-. rewrite <- !app_assoc. reflexivity.
Qed.

Lemma existsb_none {A : Type} (p : A -> bool) (l : list A) :
  (forall a, In a l -> p a = false) -> existsb p l = false.
Proof.
  induction l as [|a l IH]; intros H; simpl; [reflexivity|].
  rewrite (H a (or_introl eq_refl)), IH; [reflexivity|].
  intros b Hb. apply H. right. exact Hb.
Qed.

Lemma insert_chore_ok (r : Chore.row) (db : database) :
  existsb (fun c => Chore.id c =? Chore.id r) (chores db) = false ->
  family_exists db (Chore.family_id r) = true ->
  insert_chore r db
  = inr (mkDb (families db) (admins db) (people db) (chores db ++ [r])
              (assignments db)).
Proof. intros H1 H2. unfold insert_chore. rewrite H1, H2. reflexivity. Qed.

(** With fresh ids every statement of the family creation succeeds. *)
Lemma create_family_statements_fresh (hash : string -> string)
  (name adminEmail adminPassword : option string) (now : nat -> N)
  (db : database) :
  fresh_family_ids db name now ->
  create_family_statements hash name adminEmail adminPassword now db
  = inr (with_family db hash name adminEmail adminPassword now).
Proof.
  intros (Hf & Ha & Hafam & Hc).
  unfold create_family_statements, with_family, created_chores in *.
  set (fid := created_family_id name now) in *.
  set (aid := created_admin_id now) in *.
  assert (Hemail : existsb (fun a => (Admin.family_id a =? fid)
                                     && (Admin.email a =? str adminEmail))%bool
                           (admins db) = false).
  { apply existsb_none. intros a Hin.
    destruct (Admin.family_id a =? fid) eqn:E; [|reflexivity].
    exfalso. assert (existsb (fun a => Admin.family_id a =? fid) (admins db) = true)
      by (apply existsb_exists; exists a; split; assumption).
    congruence. }
  assert (Hchore : forall r, In r (created_chores fid now) ->
            existsb (fun c => Chore.id c =? Chore.id r) (chores db) = false).
  { intros r Hr. apply existsb_none. intros c Hin. apply (Hc c r Hin Hr). }
  pose proof (Hchore _ (or_introl eq_refl)) as H1.
  pose proof (Hchore _ (or_intror (or_introl eq_refl))) as H2.
  pose proof (Hchore _ (or_intror (or_intror (or_introl eq_refl)))) as H3.
  pose proof (Hchore _ (or_intror (or_intror (or_intror (or_introl eq_refl)))))
    as H4.
  cbn [Chore.id] in H1, H2, H3, H4. clear Hchore Hc.
  unfold insert_family. cbn [Family.id]. rewrite Hf. cbn [bind].
  unfold insert_admin, family_exists.
  cbn [Admin.id Admin.family_id Admin.email admins families].
  rewrite Ha, Hemail, existsb_snoc. cbn [Family.id].
  rewrite String.eqb_refl, orb_true_r. cbn [negb bind].
  unfold insert_default_chores, defaultChores.
  set (t2 := toString36 (now 2%nat)) in *. set (t3 := toString36 (now 3%nat)) in *.
  set (t4 := toString36 (now 4%nat)) in *. set (t5 := toString36 (now 5%nat)) in *.
  repeat
    (rewrite insert_chore_ok;
     [ cbn [bind families admins people chores assignments]
     | cbn [Chore.id chores]; rewrite ?existsb_app; cbn [existsb Chore.id];
       rewrite ?H1, ?H2, ?H3, ?H4; reflexivity
     | unfold family_exists; cbn [families Chore.family_id];
       rewrite existsb_snoc; cbn [Family.id]; rewrite String.eqb_refl;
       apply orb_true_r ]).
  rewrite <- !app_assoc. reflexivity.
Qed.

(** C8, as amended: a request to create a family with name, admin email
    and password either is answered 201 and adds the family, one admin
    and the four default chores (Dishes, Trash, Laundry, Vacuum), or is
    answered 500 and leaves the store as it was, nothing in between; it
    is answered 201 whenever the generated ids are not taken; and the 201
    response carries the token and the family's id and name, no chores. *)
Theorem post_family_all_or_nothing (hash : string -> string)
  (sign : token_payload -> string) (name adminEmail adminPassword : option string)
  (now : nat -> N) (db : database) :
  truthy name = true -> truthy adminEmail = true -> truthy adminPassword = true ->
  let r := post_family hash sign name adminEmail adminPassword now db in
  ((fst r = reply 201 (FamilyCreated
                         (sign (mkUser (Some (created_admin_id now)) None
                                       (created_family_id name now) "admin"))
                         (created_family_id name now) (str name))
    /\ snd r = with_family db hash name adminEmail adminPassword now)
   \/ (fst r = internal_error /\ snd r = db))
  /\ (fresh_family_ids db name now -> status (fst r) = 201%Z)
  /\ body_chores (body (fst r)) = []
  /\ map Chore.label (created_chores (created_family_id name now) now)
     = ["Dishes"; "Trash"; "Laundry"; "Vacuum"].
Proof.
  intros Hn He Hp r. subst r. unfold post_family.
  rewrite Hn, He, Hp. cbn [negb orb].
  change (transaction _ db)
    with (create_family_statements hash name adminEmail adminPassword now db).
  split; [|split; [|split]].
  - destruct (create_family_statements hash name adminEmail adminPassword now db)
      as [e|db'] eqn:Htx.
    + right. split; reflexivity.
    + left. apply create_family_statements_inr in Htx. subst db'.
      split; reflexivity.
  - intros Hfresh.
    rewrite (create_family_statements_fresh _ _ _ _ _ _ Hfresh). reflexivity.
  - destruct (create_family_statements hash name adminEmail adminPassword now db);
      reflexivity.
  - reflexivity.
Qed.

(** The Smith family is created in an empty store. *)
Lemma post_family_all_or_nothing_witness :
  status (fst (post_family sample_hash sample_sign (Some "Smith Family")
                 (Some "admin@x.com") (Some "pw123") sample_now Store.empty))
  = 201%Z.
Proof.
  refine (proj1 (proj2 (post_family_all_or_nothing sample_hash sample_sign
                          (Some "Smith Family") (Some "admin@x.com")
                          (Some "pw123") sample_now Store.empty
                          eq_refl eq_refl eq_refl)) _).
  repeat split. intros c r [].
Defined.

(** C8, as stated, fails: the 201 response to the creation of the Smith
    family holds the token and the family's id and name; the four chores
    are in the store and not in the response. *)
Lemma post_family_response_has_no_chores :
  fst (post_family sample_hash sample_sign (Some "Smith Family")
         (Some "admin@x.com") (Some "pw123") sample_now Store.empty)
  = reply 201 (FamilyCreated "jwt:smith-family-mloeqyo0" "smith-family-mloeqyo0"
                             "Smith Family")
  /\ body_chores (body (fst (post_family sample_hash sample_sign
                               (Some "Smith Family") (Some "admin@x.com")
                               (Some "pw123") sample_now Store.empty))) = []
  /\ map Chore.label
         (chores (snd (post_family sample_hash sample_sign (Some "Smith Family")
                         (Some "admin@x.com") (Some "pw123") sample_now
                         Store.empty)))
     = ["Dishes"; "Trash"; "Laundry"; "Vacuum"].
Proof. repeat split; vm_compute; reflexivity. Qed.

(** ** Assignments *)
Module AssignmentFacts.
Import JSString Store Http Routes Api ApiSpec GuardFacts.
Open Scope string_scope.

Lemma same_key_iff (fid pid week : string) (day : Z) (cid : string)
  (a : Assignment.row) :
  same_key fid pid week day cid a = true <-> key a = (fid, pid, week, day, cid).
Proof.
  unfold same_key, key. rewrite !andb_true_iff, !String.eqb_eq, Z.eqb_eq.
  split.
  - intros ((((-> & ->) & ->) & ->) & ->). reflexivity.
  - intros H. injection H as -> -> -> -> ->. repeat split.
Qed.

Lemma find_some_existsb {A : Type} (p : A -> bool) (l : list A) (a : A) :
  find p l = Some a -> existsb p l = true.
Proof.
  intros H. destruct (existsb p l) eqn:E; [reflexivity|].
  apply find_none_existsb in E. congruence.
Qed.

Lemma find_app_none {A : Type} (p : A -> bool) (l l' : list A) :
  find p l = None -> find p (l ++ l') = find p l'.
Proof.
  induction l as [|a l IH]; simpl; [reflexivity|].
  destruct (p a); [discriminate | exact IH].
Qed.

Lemma find_app_some {A : Type} (p : A -> bool) (l l' : list A) (a : A) :
  find p l = Some a -> find p (l ++ l') = Some a.
Proof.
  induction l as [|b l IH]; simpl; [discriminate|].
  destruct (p b); [trivial | exact IH].
Qed.

Lemma filter_none {A : Type} (p : A -> bool) (l : list A) :
  find p l = None -> filter p l = [].
Proof.
  induction l as [|a l IH]; simpl; [reflexivity|].
  destruct (p a); [discriminate | exact IH].
Qed.

(** With unique keys, a key that is found is found once. *)
Lemma count_key_found (db : database) (fid pid week : string) (day : Z)
  (cid : string) (a : Assignment.row) :
  NoDup (map key (assignments db)) ->
  assignment_by_key db fid pid week day cid = Some a ->
  count_key db fid pid week day cid = 1%nat.
Proof.
  unfold assignment_by_key, count_key.
  induction (assignments db) as [|b l IH]; simpl; intros Hnd Hfind;
    [discriminate|].
  inversion Hnd as [|k ks Hnotin Hnd']; subst.
  destruct (same_key fid pid week day cid b) eqn:Hb.
  - simpl. f_equal.
    destruct (find (same_key fid pid week day cid) l) as [c|] eqn:Hc.
    + exfalso. apply Hnotin. apply find_some in Hc. destruct Hc as [Hin Hk].
      apply same_key_iff in Hb, Hk. rewrite Hb, <- Hk. apply in_map. exact Hin.
    + rewrite (filter_none _ _ Hc). reflexivity.
  - apply IH; assumption.
Qed.

Lemma person_in_family_people (db : database) (pid fid : string) :
  person_in_family db pid fid <> None ->
  existsb (fun p => Person.id p =? pid) (people db) = true
  /\ exists p, In p (people db) /\ Person.family_id p = fid.
Proof.
  unfold person_in_family. intros H.
  destruct (find _ (people db)) as [p|] eqn:Hp; [|congruence].
  apply find_some in Hp. destruct Hp as [Hin Hb].
  apply andb_true_iff in Hb. destruct Hb as [Hid Hfam].
  split.
  - apply existsb_exists. exists p. split; assumption.
  - exists p. split; [exact Hin | apply String.eqb_eq; exact Hfam].
Qed.

Lemma chore_in_family_chores (db : database) (cid fid : string) :
  chore_in_family db cid fid <> None ->
  existsb (fun c => Chore.id c =? cid) (chores db) = true.
Proof.
  unfold chore_in_family. intros H.
  destruct (find _ (chores db)) as [c|] eqn:Hc; [|congruence].
  apply find_some in Hc. destruct Hc as [Hin Hb].
  apply andb_true_iff in Hb. destruct Hb as [Hid _].
  apply existsb_exists. exists c. split; assumption.
Qed.

(** The foreign keys of a new assignment of a person and a chore of the
    family hold. *)
Lemma foreign_keys_hold (db : database) (fid pid cid : string) :
  consistent db ->
  person_in_family db pid fid <> None -> chore_in_family db cid fid <> None ->
  (family_exists db fid
   && existsb (fun p => Person.id p =? pid) (people db)
   && existsb (fun c => Chore.id c =? cid) (chores db))%bool = true.
Proof.
  intros [_ Hfk] Hp Hc.
  destruct (person_in_family_people db pid fid Hp) as (Hpe & p & Hin & Hfam).
  rewrite Hpe, (chore_in_family_chores db cid fid Hc), <- Hfam, (Hfk p Hin).
  reflexivity.
Qed.

(** An insert of a row with a fresh id and a new key, for a person and a
    chore of the family, succeeds. *)
Lemma insert_assignment_ok (db : database) (aid fid pid cid week : string)
  (day : Z) :
  consistent db ->
  person_in_family db pid fid <> None -> chore_in_family db cid fid <> None ->
  existsb (fun a => Assignment.id a =? aid) (assignments db) = false ->
  assignment_by_key db fid pid week day cid = None ->
  insert_assignment (Assignment.mk aid fid pid cid week day) db
  = inr (with_assignments db [Assignment.mk aid fid pid cid week day]).
Proof.
  intros Hc Hp Hch Hid Hkey. unfold insert_assignment.
  cbn [Assignment.id Assignment.family_id Assignment.person_id
       Assignment.week_start_iso Assignment.day_index Assignment.chore_id].
  apply find_none_existsb in Hkey.
  rewrite Hid, Hkey, (foreign_keys_hold db fid pid cid Hc Hp Hch). reflexivity.
Qed.

Lemma same_key_refl (aid fid pid cid week : string) (day : Z) :
  same_key fid pid week day cid (Assignment.mk aid fid pid cid week day) = true.
Proof. apply same_key_iff. reflexivity. Qed.

Lemma truthy_Some (s : string) : s <> "" -> truthy (Some s) = true.
Proof. intros H. simpl. apply String.eqb_neq in H. rewrite H. reflexivity. Qed.

Lemma admin_guard (user : token_payload) (fid : string) :
  type user = "admin" -> familyId user = fid -> not_admin_of user fid = false.
Proof.
  intros Hty Hfam. unfold not_admin_of.
  rewrite Hty, Hfam, !String.eqb_refl. reflexivity.
Qed.

End AssignmentFacts.

Import AssignmentFacts.

(** C3: an admin of the family sends the same single-assignment request
    twice, for a person and a chore of the family, the id generated for
    the first request not being taken.  The first call is answered 201,
    or 409 when the assignment was there before; the second call is
    answered 409 and leaves the store as the first call left it; and
    after both calls exactly one row has the composite key. *)
Theorem post_assignment_twice (user : token_payload)
  (fid pid cid week : string) (day : Z) (now1 now2 : nat -> N) (db : database) :
  type user = "admin" -> familyId user = fid ->
  consistent db ->
  pid <> "" -> cid <> "" -> week <> "" ->
  person_in_family db pid fid <> None -> chore_in_family db cid fid <> None ->
  existsb (fun a => Assignment.id a =? assignment_id pid week day cid now1)
          (assignments db) = false ->
  let r1 := post_assignment user fid (Some pid) (Some cid) (Some week) (Some day)
              now1 db in
  let r2 := post_assignment user fid (Some pid) (Some cid) (Some week) (Some day)
              now2 (snd r1) in
  (status (fst r1) = 201%Z \/ status (fst r1) = 409%Z)
  /\ (assignment_by_key db fid pid week day cid = None ->
      status (fst r1) = 201%Z
      /\ snd r1 = with_assignments db
                    [Assignment.mk (assignment_id pid week day cid now1)
                                   fid pid cid week day])
  /\ fst r2 = reply 409 (Error "Assignment already exists")
  /\ snd r2 = snd r1
  /\ count_key (snd r2) fid pid week day cid = 1%nat.
Proof.
  intros Hty Hfam Hcons Hpid Hcid Hweek Hp Hc Hfresh r1 r2.
  assert (Hstep : forall now d,
            people d = people db -> chores d = chores db ->
            post_assignment user fid (Some pid) (Some cid) (Some week) (Some day)
              now d
            = match assignment_by_key d fid pid week day cid with
              | Some _ => (reply 409 (Error "Assignment already exists"), d)
              | None =>
                  match insert_assignment
                          (Assignment.mk (assignment_id pid week day cid now)
                                         fid pid cid week day) d with
                  | inl e => (assignments_catch e, d)
                  | inr d' =>
                      (reply 201 (AssignmentRow
                                    (assignment_by_id d'
                                       (assignment_id pid week day cid now))), d')
                  end
              end).
  { intros now d Hpe Hch. unfold post_assignment.
    rewrite (admin_guard user fid Hty Hfam), !truthy_Some by assumption.
    cbn [negb orb is_undefined str num].
    unfold person_in_family, chore_in_family in *. rewrite Hpe, Hch.
    destruct (find _ (people db)); [|congruence].
    destruct (find _ (chores db)); [|congruence].
    reflexivity. }
  subst r2 r1. rewrite (Hstep now1 db eq_refl eq_refl).
  destruct (assignment_by_key db fid pid week day cid) as [a|] eqn:Hkey.
  - cbn [fst snd]. rewrite (Hstep now2 db eq_refl eq_refl), Hkey. cbn [fst snd].
    split; [right; reflexivity|]. split; [discriminate|].
    split; [reflexivity|]. split; [reflexivity|].
    destruct Hcons as [Hnd _]. apply (count_key_found db _ _ _ _ _ a Hnd Hkey).
  - rewrite (insert_assignment_ok db _ fid pid cid week day Hcons Hp Hc Hfresh Hkey).
    cbn [fst snd].
    set (row := Assignment.mk (assignment_id pid week day cid now1) fid pid cid
                              week day).
    assert (Hfound : assignment_by_key (with_assignments db [row]) fid pid week
                       day cid = Some row).
    { unfold assignment_by_key, with_assignments. cbn [assignments].
      rewrite (find_app_none _ _ _ Hkey). cbn [find]. subst row.
      rewrite same_key_refl. reflexivity. }
    rewrite (Hstep now2 (with_assignments db [row]) eq_refl eq_refl), Hfound.
    cbn [fst snd].
    split; [left; reflexivity|]. split; [intros _; split; reflexivity|].
    split; [reflexivity|]. split; [reflexivity|].
    unfold count_key, with_assignments. cbn [assignments].
    rewrite filter_app, (filter_none _ _ Hkey). cbn [filter app]. subst row.
    rewrite same_key_refl. reflexivity.
Qed.

(** Dishes for Jo on Monday of the week of 15 February 2026, twice. *)
Lemma post_assignment_twice_witness :
  let r1 := post_assignment smith_admin "smith" (Some "jo-1") (Some "dishes-1")
              (Some "2026-02-15") (Some 1%Z) sample_now smith in
  let r2 := post_assignment smith_admin "smith" (Some "jo-1") (Some "dishes-1")
              (Some "2026-02-15") (Some 1%Z) sample_now (snd r1) in
  fst r2 = reply 409 (Error "Assignment already exists")
  /\ snd r2 = snd r1
  /\ count_key (snd r2) "smith" "jo-1" "2026-02-15" 1 "dishes-1" = 1%nat.
Proof.
  refine (proj2 (proj2 (post_assignment_twice smith_admin "smith" "jo-1"
                          "dishes-1" "2026-02-15" 1 sample_now sample_now smith
                          eq_refl eq_refl _ _ _ _ _ _ eq_refl))).
  - split; [constructor|]. intros p [<-|[]]. reflexivity.
  - discriminate.
  - discriminate.
  - discriminate.
  - discriminate.
  - discriminate.
Defined.

(** ** The whole-week route *)
Module WeekFacts.
Import JSString Store Http Routes Api ApiSpec GuardFacts AssignmentFacts.
Open Scope string_scope.

Lemma append_nonempty (x y : string) : y <> "" -> x ++ y <> "".
Proof. destruct x; simpl; [trivial | discriminate]. Qed.

Lemma last_char_append (x y : string) :
  y <> "" -> last_char (x ++ y) = last_char y.
Proof.
  intros Hy. induction x as [|c x IH]; [reflexivity|].
  cbn [append]. pose proof (append_nonempty x y Hy) as Hxy.
  rewrite <- IH. simpl. destruct (x ++ y); [congruence | reflexivity].
Qed.

(** The day index is the last character of the id of a week row. *)
Lemma last_char_week_assignment_id (pid week cid : string) (now : nat -> N)
  (i : nat) :
  ofNumber (Z.of_nat i) <> "" ->
  last_char (week_assignment_id pid week cid now i)
  = last_char (ofNumber (Z.of_nat i)).
Proof.
  intros Hi. unfold week_assignment_id.
  repeat (rewrite last_char_append;
          [| repeat (first [exact Hi | apply append_nonempty])]).
  reflexivity.
Qed.

Lemma day_digit (i j : nat) :
  (i < 7)%nat -> (j < 7)%nat ->
  ofNumber (Z.of_nat i) <> ""
  /\ (last_char (ofNumber (Z.of_nat i)) = last_char (ofNumber (Z.of_nat j)) ->
      i = j).
Proof.
  intros Hi Hj.
  do 7 (destruct i as [|i]; [split; [discriminate|];
        do 7 (destruct j as [|j]; [first [reflexivity | discriminate]|]); lia|]).
  lia.
Qed.

(** The rows of one call have different ids, whatever the clock. *)
Lemma week_assignment_id_injective (pid week cid : string) (now : nat -> N)
  (i j : nat) :
  (i < 7)%nat -> (j < 7)%nat -> i <> j ->
  (week_assignment_id pid week cid now i =? week_assignment_id pid week cid now j)
  = false.
Proof.
  intros Hi Hj Hne. apply String.eqb_neq. intros Heq. apply Hne.
  destruct (day_digit i j Hi Hj) as [Hni Hinj].
  destruct (day_digit j i Hj Hi) as [Hnj _].
  apply Hinj.
  rewrite <- (last_char_week_assignment_id pid week cid now i Hni),
    <- (last_char_week_assignment_id pid week cid now j Hnj), Heq.
  reflexivity.
Qed.

Section Loop.
Variables (fid pid week cid : string) (now : nat -> N).

Let row := week_row fid pid week cid now.
Let wid := week_assignment_id pid week cid now.

Lemma absent_snoc_other (db : database) (i j : nat) :
  i <> j ->
  absent (with_assignments db [row i]) fid pid week cid j
  = absent db fid pid week cid j.
Proof.
  intros Hne. unfold absent, assignment_by_key, with_assignments.
  cbn [assignments].
  destruct (find (same_key fid pid week (Z.of_nat j) cid) (assignments db))
    as [a|] eqn:Hf.
  - rewrite (find_app_some _ _ _ _ Hf). reflexivity.
  - rewrite (find_app_none _ _ _ Hf). cbn [find]. unfold row, week_row, same_key.
    cbn [Assignment.family_id Assignment.person_id Assignment.week_start_iso
         Assignment.day_index Assignment.chore_id].
    assert (Hd : (Z.of_nat i =? Z.of_nat j)%Z = false)
      by (apply Z.eqb_neq; lia).
    rewrite Hd, !andb_false_r. reflexivity.
Qed.

(** From day [i] on, the loop inserts the rows of the days that have no
    assignment yet, in order, and reports them. *)
Lemma week_loop_spec (n : nat) :
  forall (i : nat) (created : list (option Assignment.row)) (db : database),
  (i + n = 7)%nat ->
  keys_hold fid pid cid db ->
  (forall j, (i <= j < 7)%nat -> absent db fid pid week cid j = true ->
     existsb (fun a => Assignment.id a =? wid j) (assignments db) = false) ->
  week_loop n i fid pid week cid now created db
  = inr ((created ++ map (fun j => Some (row j))
                         (filter (absent db fid pid week cid) (seq i n)))%list,
         with_assignments db
           (map row (filter (absent db fid pid week cid) (seq i n)))).
Proof.
  induction n as [|n IH]; intros i created db Hin Hfk Hfresh.
  - cbn [week_loop seq filter map]. unfold with_assignments.
    rewrite !app_nil_r. destruct db; reflexivity.
  - cbn [week_loop seq filter].
    destruct (assignment_by_key db fid pid week (Z.of_nat i) cid) as [a|] eqn:Hkey.
    + assert (Habs : absent db fid pid week cid i = false)
        by (unfold absent; rewrite Hkey; reflexivity).
      rewrite Habs. apply IH; [lia | exact Hfk |].
      intros j Hj. apply Hfresh. lia.
    + assert (Habs : absent db fid pid week cid i = true)
        by (unfold absent; rewrite Hkey; reflexivity).
      rewrite Habs.
      assert (Hid : existsb (fun a => Assignment.id a =? wid i) (assignments db)
                    = false) by (apply Hfresh; [lia | exact Habs]).
      fold wid. unfold insert_assignment.
      cbn [Assignment.id Assignment.family_id Assignment.person_id
           Assignment.week_start_iso Assignment.day_index Assignment.chore_id].
      pose proof Hkey as Hnone. apply find_none_existsb in Hnone.
      rewrite Hid, Hnone, Hfk. cbn [negb].
      change (Assignment.mk (wid i) fid pid cid week (Z.of_nat i)) with (row i).
      change (mkDb (families db) (admins db) (people db) (chores db)
                   (assignments db ++ [row i])%list)
        with (with_assignments db [row i]).
      assert (Hget : assignment_by_id (with_assignments db [row i]) (wid i)
                     = Some (row i)).
      { unfold assignment_by_id, with_assignments. cbn [assignments].
        apply find_none_existsb in Hid. rewrite (find_app_none _ _ _ Hid).
        cbn [find]. unfold row, week_row at 1. cbn [Assignment.id]. fold wid.
        rewrite String.eqb_refl. reflexivity. }
      rewrite Hget, IH; [| lia | exact Hfk |].
      * assert (Hext : filter (absent (with_assignments db [row i]) fid pid week cid)
                              (seq (S i) n)
                       = filter (absent db fid pid week cid) (seq (S i) n)).
        { apply filter_ext_in. intros j Hj. apply in_seq in Hj.
          apply absent_snoc_other. lia. }
        rewrite Hext. cbn [map]. rewrite <- app_assoc. cbn [app].
        unfold with_assignments. cbn [families admins people chores assignments].
        rewrite <- app_assoc. reflexivity.
      * intros j Hj Hj'. rewrite absent_snoc_other in Hj' by lia.
        unfold with_assignments. cbn [assignments]. rewrite existsb_snoc.
        rewrite (Hfresh j ltac:(lia) Hj'). cbn [orb].
        unfold row, week_row. cbn [Assignment.id]. fold wid.
        apply week_assignment_id_injective; lia.
Qed.

End Loop.

Lemma filter_all_false {A : Type} (p : A -> bool) (l : list A) :
  (forall a, In a l -> p a = false) -> filter p l = [].
Proof.
  induction l as [|a l IH]; intros H; [reflexivity|]. cbn [filter].
  rewrite (H a (or_introl eq_refl)). apply IH. intros b Hb. apply H.
  right. exact Hb.
Qed.

Lemma key_week_row (fid pid week cid : string) (now : nat -> N) (j : nat) :
  key (week_row fid pid week cid now j) = (fid, pid, week, Z.of_nat j, cid).
Proof. reflexivity. Qed.

Lemma absent_true_iff (db : database) (fid pid week cid : string) (j : nat) :
  absent db fid pid week cid j = true
  <-> ~ In (fid, pid, week, Z.of_nat j, cid) (map key (assignments db)).
Proof.
  unfold absent, assignment_by_key.
  destruct (find (same_key fid pid week (Z.of_nat j) cid) (assignments db))
    as [a|] eqn:Hf.
  - split; [discriminate|]. intros H. exfalso. apply H.
    apply find_some in Hf. destruct Hf as [Hin Hk]. apply same_key_iff in Hk.
    rewrite <- Hk. apply in_map. exact Hin.
  - split; [|reflexivity]. intros _ Hin. apply in_map_iff in Hin.
    destruct Hin as (a & Hk & Hin). apply same_key_iff in Hk.
    pose proof (find_none _ _ Hf a Hin). congruence.
Qed.

(** After the rows of the missing days are added every day has its
    assignment, and the keys are still unique. *)
Lemma week_rows_complete (db : database) (fid pid week cid : string)
  (now : nat -> N) :
  NoDup (map key (assignments db)) ->
  let db1 := with_assignments db
               (map (week_row fid pid week cid now)
                    (missing_days db fid pid week cid)) in
  NoDup (map key (assignments db1))
  /\ forall j, (j < 7)%nat -> absent db1 fid pid week cid j = false.
Proof.
  intros Hnd db1. subst db1. unfold with_assignments. cbn [assignments].
  rewrite map_app, map_map. split.
  - apply NoDup_app; [exact Hnd | |].
    + apply NoDup_map_NoDup_ForallPairs.
      * intros i j _ _ Hk. rewrite !key_week_row in Hk.
        injection Hk as Hk. lia.
      * apply NoDup_filter, seq_NoDup.
    + intros k Hin Hin'. apply in_map_iff in Hin'.
      destruct Hin' as (j & <- & Hj). unfold missing_days in Hj.
      apply filter_In in Hj. destruct Hj as [_ Hj].
      apply absent_true_iff in Hj. apply Hj. exact Hin.
  - intros j Hj.
    destruct (absent _ fid pid week cid j) eqn:Habs; [|reflexivity].
    exfalso. apply absent_true_iff in Habs. apply Habs. cbn [assignments].
    rewrite map_app, map_map. apply in_or_app.
    destruct (absent db fid pid week cid j) eqn:Hdb.
    + right. apply in_map_iff. exists j. split; [apply key_week_row|].
      unfold missing_days. apply filter_In. split; [apply in_seq; lia | exact Hdb].
    + left. destruct (in_dec (fun x y : string * string * string * Z * string =>
                                ltac:(repeat decide equality) : {x = y} + {x <> y})
                             (fid, pid, week, Z.of_nat j, cid)
                             (map key (assignments db))) as [Hin|Hout];
        [exact Hin|].
      apply absent_true_iff in Hout. congruence.
Qed.

End WeekFacts.



Import WeekFacts.

(** C4: an admin of the family assigns a chore of the family to a person
    of the family for a whole week, the ids generated for the new rows
    not being taken.  The call is answered 201 with exactly the rows it
    created, one for each day index of 0..6 that had no assignment of
    that person, chore and week, in day order; the days that had one are
    skipped without any conflict; afterwards each of the seven days has
    exactly one such assignment; and the same call again is answered 201
    with an empty array and leaves the store as the first call left it. *)
Theorem post_week_idempotent (user : token_payload) (fid pid cid week : string)
  (now1 now2 : nat -> N) (db : database) :
  type user = "admin" -> familyId user = fid ->
  consistent db ->
  pid <> "" -> cid <> "" -> week <> "" ->
  person_in_family db pid fid <> None -> chore_in_family db cid fid <> None ->
  (forall i, In i (missing_days db fid pid week cid) ->
     existsb (fun a => Assignment.id a =? week_assignment_id pid week cid now1 i)
             (assignments db) = false) ->
  let rows := map (week_row fid pid week cid now1)
                  (missing_days db fid pid week cid) in
  let db1 := with_assignments db rows in
  post_week user fid (Some pid) (Some cid) (Some week) now1 db
  = (reply 201 (CreatedAssignments (map Some rows)), db1)
  /\ consistent db1
  /\ (forall i, (i < 7)%nat ->
        count_key db1 fid pid week (Z.of_nat i) cid = 1%nat)
  /\ post_week user fid (Some pid) (Some cid) (Some week) now2 db1
     = (reply 201 (CreatedAssignments []), db1).
Proof.
  intros Hty Hfam Hcons Hpid Hcid Hweek Hp Hc Hfresh rows db1.
  assert (Hstep : forall now d,
            people d = people db -> chores d = chores db ->
            post_week user fid (Some pid) (Some cid) (Some week) now d
            = match week_loop 7 0 fid pid week cid now [] d with
              | inl (_, d') => (internal_error, d')
              | inr (created, d') => (reply 201 (CreatedAssignments created), d')
              end).
  { intros now d Hpe Hch. unfold post_week.
    rewrite (admin_guard user fid Hty Hfam), !truthy_Some by assumption.
    cbn [negb orb str].
    unfold person_in_family, chore_in_family in *. rewrite Hpe, Hch.
    destruct (find _ (people db)); [|congruence].
    destruct (find _ (chores db)); [|congruence].
    reflexivity. }
  pose proof (foreign_keys_hold db fid pid cid Hcons Hp Hc) as Hfk.
  destruct Hcons as [Hnd Hpeople].
  destruct (week_rows_complete db fid pid week cid now1 Hnd) as [Hnd1 Hall].
  fold rows in Hnd1, Hall. fold db1 in Hnd1, Hall.
  split; [|split; [|split]].
  - rewrite (Hstep now1 db eq_refl eq_refl).
    rewrite (week_loop_spec fid pid week cid now1 7 0 [] db eq_refl Hfk).
    + cbn [app]. subst db1 rows. unfold missing_days. rewrite map_map.
      reflexivity.
    + intros j Hj Habs. apply Hfresh. unfold missing_days.
      apply filter_In. split; [apply in_seq; lia | exact Habs].
  - split; [exact Hnd1 | exact Hpeople].
  - intros i Hi. specialize (Hall i Hi). unfold absent in Hall.
    destruct (assignment_by_key db1 fid pid week (Z.of_nat i) cid) as [a|] eqn:Hk;
      [|discriminate].
    apply (count_key_found db1 _ _ _ _ _ a Hnd1 Hk).
  - rewrite (Hstep now2 db1 eq_refl eq_refl).
    rewrite (week_loop_spec fid pid week cid now2 7 0 [] db1 eq_refl Hfk).
    + rewrite (filter_all_false (absent db1 fid pid week cid) (seq 0 7)).
      * cbn [app map]. subst db1. unfold with_assignments.
        cbn [families admins people chores assignments].
        rewrite app_nil_r. reflexivity.
      * intros j Hj. apply in_seq in Hj. apply Hall. lia.
    + intros j Hj Habs. rewrite Hall in Habs by lia. discriminate.
Qed.

(** Dishes for Jo for the week of 15 February 2026, when Monday is there
    already: six rows are created, none on the second call. *)
Lemma post_week_idempotent_witness :
  let db := with_assignments smith
              [Assignment.mk "jo-1-2026-02-15-1-dishes-1-mloeqxyz" "smith" "jo-1"
                             "dishes-1" "2026-02-15" 1] in
  let rows := map (week_row "smith" "jo-1" "2026-02-15" "dishes-1" sample_now)
                  [0; 2; 3; 4; 5; 6]%nat in
  post_week smith_admin "smith" (Some "jo-1") (Some "dishes-1")
    (Some "2026-02-15") sample_now db
  = (reply 201 (CreatedAssignments (map Some rows)), with_assignments db rows)
  /\ post_week smith_admin "smith" (Some "jo-1") (Some "dishes-1")
       (Some "2026-02-15") sample_now (with_assignments db rows)
     = (reply 201 (CreatedAssignments []), with_assignments db rows).
Proof.
  intros db rows.
  assert (Hcons : consistent db).
  { split.
    - repeat constructor. intros [].
    - intros p [<-|[]]. reflexivity. }
  destruct (post_week_idempotent smith_admin "smith" "jo-1" "dishes-1"
              "2026-02-15" sample_now sample_now db eq_refl eq_refl Hcons
              ltac:(discriminate) ltac:(discriminate) ltac:(discriminate)
              ltac:(discriminate) ltac:(discriminate))
    as (H1 & _ & _ & H2).
  - intros i Hi. vm_compute in Hi.
    repeat (destruct Hi as [<-|Hi]; [vm_compute; reflexivity|]).
    destruct Hi.
  - split; [exact H1 | exact H2].
Defined.

(** ** The constraints of the schema hold in every reachable store *)
Module Invariant.
Import JSString Store Http Auth Routes Families Api ApiSpec GuardFacts
  AssignmentFacts WeekFacts.
Open Scope string_scope.

Lemma consistent_tables (db db' : database) :
  assignments db' = assignments db -> people db' = people db ->
  (forall f, family_exists db f = true -> family_exists db' f = true) ->
  consistent db -> consistent db'.
Proof.
  intros Ha Hp Hf [Hnd Hfk]. split.
  - rewrite Ha. exact Hnd.
  - rewrite Hp. intros p Hin. apply Hf, Hfk, Hin.
Qed.

(** Deleting rows keeps the composite keys unique. *)
Lemma keys_unique_filter (keep : Assignment.row -> bool)
  (rows : list Assignment.row) :
  NoDup (map key rows) -> NoDup (map key (filter keep rows)).
Proof.
  intros Hnd. induction rows as [|r rows IH]; [constructor|].
  cbn [map filter] in *. apply NoDup_cons_iff in Hnd. destruct Hnd as [Hr Hnd].
  destruct (keep r); [|exact (IH Hnd)].
  cbn [map]. apply NoDup_cons; [|exact (IH Hnd)].
  intros Hin. apply Hr. apply in_map_iff in Hin.
  destruct Hin as (r' & Hk & Hin). apply filter_In in Hin.
  rewrite <- Hk. apply in_map. tauto.
Qed.

(** Every statement of the store keeps the constraints. *)
Lemma insert_family_consistent (r : Family.row) (db db' : database) :
  consistent db -> insert_family r db = inr db' -> consistent db'.
Proof.
  unfold insert_family. intros Hc H.
  destruct (existsb _ (families db)); [discriminate|]. injection H as <-.
  apply (consistent_tables db); try reflexivity; [|exact Hc].
  intros f Hf. unfold family_exists in *. cbn [families].
  rewrite existsb_app, Hf. reflexivity.
Qed.

Lemma insert_admin_consistent (r : Admin.row) (db db' : database) :
  consistent db -> insert_admin r db = inr db' -> consistent db'.
Proof.
  unfold insert_admin. intros Hc H.
  repeat match type of H with
         | (if ?c then _ else _) = _ => destruct c; [discriminate|]
         end.
  injection H as <-. apply (consistent_tables db); auto.
Qed.

Lemma insert_chore_consistent (r : Chore.row) (db db' : database) :
  consistent db -> insert_chore r db = inr db' -> consistent db'.
Proof.
  unfold insert_chore. intros Hc H.
  repeat match type of H with
         | (if ?c then _ else _) = _ => destruct c; [discriminate|]
         end.
  injection H as <-. apply (consistent_tables db); auto.
Qed.

Lemma insert_person_consistent (r : Person.row) (db db' : database) :
  consistent db -> insert_person r db = inr db' -> consistent db'.
Proof.
  unfold insert_person. intros [Hnd Hfk] H.
  destruct (existsb _ (people db)); [discriminate|].
  destruct (existsb _ (people db)); [discriminate|].
  destruct (family_exists db (Person.family_id r)) eqn:Hfam; [|discriminate].
  injection H as <-. split; [exact Hnd|]. cbn [people].
  intros p Hin. apply in_app_or in Hin. destruct Hin as [Hin|[<-|[]]].
  - apply (Hfk p Hin).
  - exact Hfam.
Qed.

Lemma insert_assignment_consistent (r : Assignment.row) (db db' : database) :
  consistent db -> insert_assignment r db = inr db' -> consistent db'.
Proof.
  unfold insert_assignment. intros [Hnd Hfk] H.
  destruct (existsb _ (assignments db)); [discriminate|].
  destruct (existsb _ (assignments db)) eqn:Hkey; [discriminate|].
  destruct (negb _); [discriminate|].
  injection H as <-. split; [|exact Hfk]. cbn [assignments].
  rewrite map_app. apply NoDup_app; [exact Hnd | repeat constructor; intros [] |].
  intros k Hin [<-|[]]. apply in_map_iff in Hin. destruct Hin as (a & Hk & Hin).
  assert (Ht : existsb (same_key (Assignment.family_id r) (Assignment.person_id r)
                          (Assignment.week_start_iso r) (Assignment.day_index r)
                          (Assignment.chore_id r)) (assignments db) = true).
  { apply existsb_exists. exists a. split; [exact Hin|].
    apply same_key_iff. exact Hk. }
  congruence.
Qed.

Lemma update_chore_consistent (cid label : string) (db db' : database) :
  consistent db -> update_chore cid label db = inr db' -> consistent db'.
Proof.
  unfold update_chore. intros Hc H. injection H as <-.
  apply (consistent_tables db); auto.
Qed.

Lemma update_person_consistent (pid name email : string) (phone : option string)
  (color : string) (db db' : database) :
  consistent db -> update_person pid name email phone color db = inr db' ->
  consistent db'.
Proof.
  unfold update_person. intros [Hnd Hfk] H.
  destruct (existsb _ (people db)); [discriminate|]. injection H as <-.
  split; [exact Hnd|]. cbn [people]. intros p Hin.
  apply in_map_iff in Hin. destruct Hin as (q & Hq & Hin).
  specialize (Hfk q Hin). destruct (Person.id q =? pid); subst p; exact Hfk.
Qed.

Lemma delete_chore_consistent (cid : string) (db db' : database) :
  consistent db -> Store.delete_chore cid db = inr db' -> consistent db'.
Proof.
  unfold Store.delete_chore. intros [Hnd Hfk] H. injection H as <-.
  split; [apply keys_unique_filter; exact Hnd | exact Hfk].
Qed.

Lemma delete_person_consistent (pid : string) (db db' : database) :
  consistent db -> Store.delete_person pid db = inr db' -> consistent db'.
Proof.
  unfold Store.delete_person. intros [Hnd Hfk] H. injection H as <-.
  split; [apply keys_unique_filter; exact Hnd|]. cbn [people].
  intros p Hin. apply filter_In in Hin. apply (Hfk p), Hin.
Qed.

Lemma delete_assignment_consistent (aid : string) (db db' : database) :
  consistent db -> Store.delete_assignment aid db = inr db' -> consistent db'.
Proof.
  unfold Store.delete_assignment. intros [Hnd Hfk] H. injection H as <-.
  split; [apply keys_unique_filter; exact Hnd | exact Hfk].
Qed.

Lemma delete_admin_consistent (aid fid : string) (db db' : database) :
  consistent db -> Store.delete_admin aid fid db = inr db' -> consistent db'.
Proof.
  unfold Store.delete_admin. intros Hc H. injection H as <-.
  apply (consistent_tables db); auto.
Qed.

Lemma insert_default_chores_consistent (cs : list (string * string))
  (fid : string) (now : nat -> N) :
  forall (first : nat) (db db' : database),
  consistent db -> insert_default_chores cs fid now first db = inr db' ->
  consistent db'.
Proof.
  induction cs as [|[cid label] cs IH]; intros first db db' Hc H.
  - injection H as <-. exact Hc.
  - cbn [insert_default_chores] in H. unfold bind in H.
    destruct (insert_chore _ db) as [e|db1] eqn:H1; [discriminate|].
    apply (IH (S first) db1 db'); [|exact H].
    apply (insert_chore_consistent _ db db1 Hc H1).
Qed.

Lemma week_loop_consistent (fid pid week cid : string) (now : nat -> N)
  (n : nat) :
  forall (i : nat) (created : list (option Assignment.row)) (db : database),
  consistent db ->
  match week_loop n i fid pid week cid now created db with
  | inl (_, db') => consistent db'
  | inr (_, db') => consistent db'
  end.
Proof.
  induction n as [|n IH]; intros i created db Hc; [exact Hc|].
  cbn [week_loop].
  destruct (assignment_by_key db fid pid week (Z.of_nat i) cid); [apply IH, Hc|].
  destruct (insert_assignment _ db) as [e|db1] eqn:H1; [exact Hc|].
  apply IH. apply (insert_assignment_consistent _ db db1 Hc H1).
Qed.

(** Closes a goal by the lemma of the statement that produced the store. *)
Ltac by_statement Hc :=
  first
    [ exact Hc
    | match goal with
      | H : insert_admin _ _ = inr ?d |- consistent ?d =>
          exact (insert_admin_consistent _ _ _ Hc H)
      | H : insert_chore _ _ = inr ?d |- consistent ?d =>
          exact (insert_chore_consistent _ _ _ Hc H)
      | H : insert_person _ _ = inr ?d |- consistent ?d =>
          exact (insert_person_consistent _ _ _ Hc H)
      | H : insert_assignment _ _ = inr ?d |- consistent ?d =>
          exact (insert_assignment_consistent _ _ _ Hc H)
      | H : update_chore _ _ _ = inr ?d |- consistent ?d =>
          exact (update_chore_consistent _ _ _ _ Hc H)
      | H : update_person _ _ _ _ _ _ = inr ?d |- consistent ?d =>
          exact (update_person_consistent _ _ _ _ _ _ _ Hc H)
      | H : Store.delete_chore _ _ = inr ?d |- consistent ?d =>
          exact (delete_chore_consistent _ _ _ Hc H)
      | H : Store.delete_person _ _ = inr ?d |- consistent ?d =>
          exact (delete_person_consistent _ _ _ Hc H)
      | H : Store.delete_assignment _ _ = inr ?d |- consistent ?d =>
          exact (delete_assignment_consistent _ _ _ Hc H)
      | H : Store.delete_admin _ _ _ = inr ?d |- consistent ?d =>
          exact (delete_admin_consistent _ _ _ _ Hc H)
      end ].

(** Case analysis on the guards and lookups of a handler. *)
Ltac route_cases :=
  repeat match goal with
         | |- consistent (snd (if ?c then _ else _)) => destruct c
         | |- consistent (snd (match ?x with _ => _ end)) => destruct x eqn:?
         end;
  cbn [snd].

Lemma post_week_consistent (user : token_payload) (fid : string)
  (personId choreId weekStartISO : option string) (now : nat -> N)
  (db : database) :
  consistent db ->
  consistent (snd (post_week user fid personId choreId weekStartISO now db)).
Proof.
  intros Hc. unfold post_week.
  destruct (not_admin_of user fid); [exact Hc|].
  destruct (negb (truthy personId) || negb (truthy choreId)
            || negb (truthy weekStartISO))%bool; [exact Hc|].
  destruct (person_in_family db (str personId) fid); [|exact Hc].
  destruct (chore_in_family db (str choreId) fid); [|exact Hc].
  pose proof (week_loop_consistent fid (str personId) (str weekStartISO)
                (str choreId) now 7 0 [] db Hc) as Hw.
  destruct (week_loop 7 0 fid (str personId) (str weekStartISO) (str choreId)
              now [] db) as [[e d]|[c d]]; exact Hw.
Qed.

(** Every route handler keeps the constraints. *)
Lemma handle_consistent (hash : string -> string) (now : nat -> N)
  (user : token_payload) (req : request) (db : database) :
  consistent db -> consistent (snd (handle hash now user req db)).
Proof.
  intros Hc.
  destruct req; cbn [handle];
    lazymatch goal with
    | |- context [post_week] => apply post_week_consistent, Hc
    | _ => unfold_route; route_cases; by_statement Hc
    end.
Qed.

Lemma post_family_consistent (hash : string -> string)
  (sign : token_payload -> string) (name adminEmail adminPassword : option string)
  (now : nat -> N) (db : database) :
  consistent db ->
  consistent (snd (post_family hash sign name adminEmail adminPassword now db)).
Proof.
  intros Hc. unfold post_family.
  destruct (negb (truthy name) || negb (truthy adminEmail)
            || negb (truthy adminPassword))%bool; [exact Hc|].
  unfold transaction, bind.
  destruct (insert_family _ db) as [e|db1] eqn:H1; [exact Hc|].
  pose proof (insert_family_consistent _ db db1 Hc H1) as Hc1.
  destruct (insert_admin _ db1) as [e|db2] eqn:H2; [exact Hc|].
  pose proof (insert_admin_consistent _ db1 db2 Hc1 H2) as Hc2.
  destruct (insert_default_chores _ _ _ _ db2) as [e|db3] eqn:H3; [exact Hc|].
  apply (insert_default_chores_consistent _ _ _ _ db2 db3 Hc2 H3).
Qed.

(** The hypothesis [consistent] of the statements on assignments holds of
    every store the API reaches. *)
Lemma reachable_consistent (db : database) : reachable db -> consistent db.
Proof.
  induction 1 as [| hash sign name email password now db _ IH
                  | verify hash now authorization req db _ IH].
  - split; [constructor | intros p []].
  - apply post_family_consistent, IH.
  - unfold serve, authenticateToken.
    destruct (bearer authorization) as [token|]; [|exact IH].
    destruct (verify token) as [user|err]; [|exact IH].
    apply handle_consistent, IH.
Qed.

End Invariant.

(** ** Lists of rows *)
Module RowFacts.
Open Scope string_scope.

(** A row whose column value no row has yet keeps the column unique. *)
Lemma unique_snoc {Row : Type} (col : Row -> string) (rows : list Row) (r : Row) :
  NoDup (map col rows) ->
  existsb (fun x => col x =? col r) rows = false ->
  NoDup (map col (rows ++ [r])).
Proof.
  intros Hnd Hfresh. rewrite map_app. apply NoDup_app; [exact Hnd | |].
  - cbn [map]. apply NoDup_cons; [intros [] | constructor].
  - intros v Hv [<-|[]]. apply in_map_iff in Hv. destruct Hv as (x & Hx & Hin).
    assert (Ht : existsb (fun x => col x =? col r) rows = true).
    { apply existsb_exists. exists x. split; [exact Hin | apply String.eqb_eq, Hx]. }
    congruence.
Qed.

(** The same for a pair of columns. *)
Lemma unique_pair_snoc {Row : Type} (c1 c2 : Row -> string) (rows : list Row)
  (r : Row) :
  NoDup (map (fun x => (c1 x, c2 x)) rows) ->
  existsb (fun x => (c1 x =? c1 r) && (c2 x =? c2 r))%bool rows = false ->
  NoDup (map (fun x => (c1 x, c2 x)) (rows ++ [r])).
Proof.
  intros Hnd Hfresh. rewrite map_app. apply NoDup_app; [exact Hnd | |].
  - cbn [map]. apply NoDup_cons; [intros [] | constructor].
  - intros v Hv [<-|[]]. apply in_map_iff in Hv. destruct Hv as (x & Hx & Hin).
    injection Hx as H1 H2.
    assert (Ht : existsb (fun x => (c1 x =? c1 r) && (c2 x =? c2 r))%bool rows
                 = true).
    { apply existsb_exists. exists x. split; [exact Hin|].
      rewrite H1, H2, !String.eqb_refl. reflexivity. }
    congruence.
Qed.

(** Deleting rows keeps a column unique. *)
Lemma unique_filter {Row K : Type} (rows : list Row) (col : Row -> K)
  (keep : Row -> bool) (Hnd : NoDup (map col rows)) :
  NoDup (map col (filter keep rows)).
Proof.
  induction rows as [|r rows IH]; [constructor|].
  cbn [map filter] in *. apply NoDup_cons_iff in Hnd. destruct Hnd as [Hr Hnd].
  destruct (keep r); [|exact (IH Hnd)].
  cbn [map]. apply NoDup_cons; [|exact (IH Hnd)].
  intros Hin. apply Hr. apply in_map_iff in Hin.
  destruct Hin as (r' & Hk & Hin). apply filter_In in Hin.
  rewrite <- Hk. apply in_map. tauto.
Qed.

(** An update of the row with id [target] keeps a column unique when the
    new value of that row differs from the values of the other rows. *)
Lemma unique_after_update {Row K : Type} (ident : Row -> string) (col : Row -> K)
  (upd : Row -> Row) (target : string) (rows : list Row) :
  NoDup (map ident rows) -> NoDup (map col rows) ->
  (forall r, ident r <> target -> upd r = r) ->
  (forall a b, In a rows -> In b rows -> ident a = target -> ident b <> target ->
     col (upd a) <> col b) ->
  NoDup (map col (map upd rows)).
Proof.
  intros Hid Hcol Hsame Hnew.
  induction rows as [|a rows IH]; [constructor|].
  cbn [map] in *. apply NoDup_cons_iff in Hid, Hcol.
  destruct Hid as [Ha Hid]. destruct Hcol as [Hca Hcol].
  assert (IH' : NoDup (map col (map upd rows))).
  { apply IH; [exact Hid | exact Hcol |].
    intros x y Hx Hy. apply Hnew; right; assumption. }
  apply NoDup_cons; [|exact IH'].
  intros Hin. apply in_map_iff in Hin. destruct Hin as (b' & Hb' & Hin).
  apply in_map_iff in Hin. destruct Hin as (b & <- & Hin).
  destruct (string_dec (ident a) target) as [Hat|Hat].
  - assert (Hbt : ident b <> target).
    { intros Hbt. apply Ha. rewrite Hat, <- Hbt. apply in_map. exact Hin. }
    rewrite (Hsame b Hbt) in Hb'.
    apply (Hnew a b (or_introl eq_refl) (or_intror Hin) Hat Hbt). congruence.
  - rewrite (Hsame a Hat) in Hb'.
    destruct (string_dec (ident b) target) as [Hbt|Hbt].
    + apply (Hnew b a (or_intror Hin) (or_introl eq_refl) Hbt Hat). exact Hb'.
    + rewrite (Hsame b Hbt) in Hb'. apply Hca. rewrite <- Hb'. apply in_map.
      exact Hin.
Qed.

Lemma existsb_grows {Row : Type} (p : Row -> bool) (rows more : list Row) :
  existsb p rows = true -> existsb p (rows ++ more) = true.
Proof. intros H. rewrite existsb_app, H. reflexivity. Qed.

Lemma existsb_kept {Row : Type} (p keep : Row -> bool) (rows : list Row) :
  (forall r, In r rows -> p r = true -> keep r = true) ->
  existsb p rows = true -> existsb p (filter keep rows) = true.
Proof.
  intros Hk H. apply existsb_exists in H. destruct H as (r & Hin & Hp).
  apply existsb_exists. exists r. split; [|exact Hp].
  apply filter_In. split; [exact Hin | apply Hk; assumption].
Qed.

Lemma existsb_updated {Row : Type} (p : Row -> bool) (upd : Row -> Row)
  (rows : list Row) :
  (forall r, p (upd r) = p r) -> existsb p (map upd rows) = existsb p rows.
Proof.
  intros H. induction rows as [|r rows IH]; [reflexivity|].
  cbn [map existsb]. rewrite H, IH. reflexivity.
Qed.

Lemma existsb_false_In {Row : Type} (p : Row -> bool) (rows : list Row) (r : Row) :
  existsb p rows = false -> In r rows -> p r = false.
Proof.
  intros H Hin. destruct (p r) eqn:Hp; [|reflexivity].
  assert (existsb p rows = true) by (apply existsb_exists; exists r; tauto).
  congruence.
Qed.

(** With a unique column, two rows with the same value are the same row. *)
Lemma unique_id_row {Row K : Type} (col : Row -> K) (rows : list Row)
  (a b : Row) :
  NoDup (map col rows) -> In a rows -> In b rows -> col a = col b -> a = b.
Proof.
  induction rows as [|r rows IH]; intros Hnd Ha Hb Hab; [destruct Ha|].
  cbn [map] in Hnd. apply NoDup_cons_iff in Hnd. destruct Hnd as [Hr Hnd].
  destruct Ha as [<-|Ha]; destruct Hb as [<-|Hb]; try reflexivity.
  - exfalso. apply Hr. rewrite Hab. apply in_map. exact Hb.
  - exfalso. apply Hr. rewrite <- Hab. apply in_map. exact Ha.
  - apply IH; assumption.
Qed.

End RowFacts.

(** ** Every statement keeps the constraints of the schema *)
Module SchemaFacts.
Import JSString Store Http Api ApiSpec Integrity RowFacts.
Open Scope string_scope.

Lemma family_exists_grows (db : database) (r : Family.row) (fid : string) :
  existsb (fun f => Family.id f =? fid) (families db) = true ->
  existsb (fun f => Family.id f =? fid) (families db ++ [r]) = true.
Proof. apply existsb_grows. Qed.

(** Case analysis on the first check of a statement. *)
Ltac first_check Hs name :=
  match type of Hs with
  | (if ?c then _ else _) = _ => destruct c eqn:name
  end.

(** Splits a goal [schema_holds] into its fields, after the new store was
    written out, and closes the fields of the tables left as they were. *)
Ltac schema_fields H :=
  destruct H as [Hfi Hai Hpi Hci Hsi Hae Hpe Hsk Haf Hpf Hcf Hsf Hsp Hsc];
  constructor; unfold family_exists in *;
  cbn [families admins people chores assignments]; try assumption.

Lemma insert_family_schema (r : Family.row) (db db' : database) :
  schema_holds db -> insert_family r db = inr db' -> schema_holds db'.
Proof.
  unfold insert_family. intros H Hs.
  first_check Hs Hfresh; [discriminate|].
  injection Hs as <-. schema_fields H.
  - apply unique_snoc; assumption.
  - intros a Ha. apply existsb_grows, Haf, Ha.
  - intros p Hp. apply existsb_grows, Hpf, Hp.
  - intros c Hc. apply existsb_grows, Hcf, Hc.
  - intros a Ha. apply existsb_grows, Hsf, Ha.
Qed.

Lemma insert_admin_schema (r : Admin.row) (db db' : database) :
  schema_holds db -> insert_admin r db = inr db' -> schema_holds db'.
Proof.
  unfold insert_admin. intros H Hs.
  first_check Hs Hid; [discriminate|].
  first_check Hs Hemail; [discriminate|].
  destruct (family_exists db (Admin.family_id r)) eqn:Hfam;
    cbn [negb] in Hs; [|discriminate].
  injection Hs as <-. schema_fields H.
  - apply unique_snoc; assumption.
  - apply (unique_pair_snoc Admin.family_id Admin.email); assumption.
  - intros a Ha. apply in_app_or in Ha. destruct Ha as [Ha|[<-|[]]];
      [apply Haf, Ha | exact Hfam].
Qed.

Lemma insert_person_schema (r : Person.row) (db db' : database) :
  schema_holds db -> insert_person r db = inr db' -> schema_holds db'.
Proof.
  unfold insert_person. intros H Hs.
  first_check Hs Hid; [discriminate|].
  first_check Hs Hemail; [discriminate|].
  destruct (family_exists db (Person.family_id r)) eqn:Hfam;
    cbn [negb] in Hs; [|discriminate].
  injection Hs as <-. schema_fields H.
  - apply unique_snoc; assumption.
  - apply (unique_pair_snoc Person.family_id Person.email); assumption.
  - intros p Hp. apply in_app_or in Hp. destruct Hp as [Hp|[<-|[]]];
      [apply Hpf, Hp | exact Hfam].
  - intros a Ha. apply existsb_grows, Hsp, Ha.
Qed.

Lemma insert_chore_schema (r : Chore.row) (db db' : database) :
  schema_holds db -> insert_chore r db = inr db' -> schema_holds db'.
Proof.
  unfold insert_chore. intros H Hs.
  first_check Hs Hid; [discriminate|].
  destruct (family_exists db (Chore.family_id r)) eqn:Hfam;
    cbn [negb] in Hs; [|discriminate].
  injection Hs as <-. schema_fields H.
  - apply unique_snoc; assumption.
  - intros c Hc. apply in_app_or in Hc. destruct Hc as [Hc|[<-|[]]];
      [apply Hcf, Hc | exact Hfam].
  - intros a Ha. apply existsb_grows, Hsc, Ha.
Qed.

Lemma insert_assignment_schema (r : Assignment.row) (db db' : database) :
  schema_holds db -> insert_assignment r db = inr db' -> schema_holds db'.
Proof.
  unfold insert_assignment. intros H Hs.
  first_check Hs Hid; [discriminate|].
  first_check Hs Hkey; [discriminate|].
  destruct (family_exists db (Assignment.family_id r)) eqn:Hfam;
    cbn [negb andb] in Hs; [|discriminate].
  destruct (existsb _ (people db)) eqn:Hperson;
    cbn [negb andb] in Hs; [|discriminate].
  destruct (existsb _ (chores db)) eqn:Hchore;
    cbn [negb andb] in Hs; [|discriminate].
  injection Hs as <-. schema_fields H.
  - apply unique_snoc; assumption.
  - rewrite map_app. apply NoDup_app; [exact Hsk | |].
    + cbn [map]. apply NoDup_cons; [intros [] | constructor].
    + intros k Hk [<-|[]]. apply in_map_iff in Hk. destruct Hk as (a & Hk & Ha).
      pose proof (existsb_false_In _ _ a Hkey Ha) as Hf.
      apply AssignmentFacts.same_key_iff in Hk. congruence.
  - intros a Ha. apply in_app_or in Ha. destruct Ha as [Ha|[<-|[]]];
      [apply Hsf, Ha | exact Hfam].
  - intros a Ha. apply in_app_or in Ha. destruct Ha as [Ha|[<-|[]]];
      [apply Hsp, Ha | exact Hperson].
  - intros a Ha. apply in_app_or in Ha. destruct Ha as [Ha|[<-|[]]];
      [apply Hsc, Ha | exact Hchore].
Qed.

Lemma update_chore_schema (cid label : string) (db db' : database) :
  schema_holds db -> update_chore cid label db = inr db' -> schema_holds db'.
Proof.
  unfold update_chore. intros H Hs. injection Hs as <-. schema_fields H.
  - rewrite map_map.
    rewrite (map_ext _ Chore.id); [exact Hci|].
    intros c. destruct (Chore.id c =? cid); reflexivity.
  - intros c Hc. apply in_map_iff in Hc. destruct Hc as (c0 & <- & Hc).
    specialize (Hcf c0 Hc). destruct (Chore.id c0 =? cid); exact Hcf.
  - intros a Ha. rewrite existsb_updated; [apply Hsc, Ha|].
    intros c. destruct (Chore.id c =? cid); reflexivity.
Qed.

Lemma update_person_schema (pid name email : string) (phone : option string)
  (color : string) (db db' : database) :
  schema_holds db -> update_person pid name email phone color db = inr db' ->
  schema_holds db'.
Proof.
  unfold update_person. intros H Hs.
  first_check Hs Hcheck; [discriminate|].
  injection Hs as <-. schema_fields H.
  - rewrite map_map.
    rewrite (map_ext _ Person.id); [exact Hpi|].
    intros p. destruct (Person.id p =? pid); reflexivity.
  - apply (unique_after_update Person.id person_key _ pid); try assumption.
    + intros p Hp. apply String.eqb_neq in Hp. rewrite Hp. reflexivity.
    + intros a b Ha Hb Hat Hbt Heq.
      pose proof (existsb_false_In _ _ a Hcheck Ha) as Hfa. cbv beta in Hfa.
      apply String.eqb_eq in Hat. rewrite Hat in Hfa, Heq. cbn [andb] in Hfa.
      pose proof (existsb_false_In _ _ b Hfa Hb) as Hfb. cbv beta in Hfb.
      apply String.eqb_neq in Hbt. rewrite Hbt in Hfb. cbn [negb andb] in Hfb.
      unfold person_key in Heq. cbn [Person.family_id Person.email] in Heq.
      injection Heq as Hf He. rewrite <- Hf, <- He, !String.eqb_refl in Hfb.
      discriminate.
  - intros p Hp. apply in_map_iff in Hp. destruct Hp as (p0 & <- & Hp).
    specialize (Hpf p0 Hp). destruct (Person.id p0 =? pid); exact Hpf.
  - intros a Ha. rewrite existsb_updated; [apply Hsp, Ha|].
    intros p. destruct (Person.id p =? pid); reflexivity.
Qed.

Lemma delete_chore_schema (cid : string) (db db' : database) :
  schema_holds db -> Store.delete_chore cid db = inr db' -> schema_holds db'.
Proof.
  unfold Store.delete_chore. intros H Hs. injection Hs as <-. schema_fields H.
  - apply unique_filter, Hci.
  - apply unique_filter, Hsi.
  - apply unique_filter, Hsk.
  - intros c Hc. apply filter_In in Hc. apply Hcf, Hc.
  - intros a Ha. apply filter_In in Ha. apply Hsf, Ha.
  - intros a Ha. apply filter_In in Ha. apply Hsp, Ha.
  - intros a Ha. apply filter_In in Ha. destruct Ha as [Ha Hkeep].
    apply existsb_kept; [|apply Hsc, Ha].
    intros c _ Hc. apply String.eqb_eq in Hc. rewrite Hc. exact Hkeep.
Qed.

Lemma delete_person_schema (pid : string) (db db' : database) :
  schema_holds db -> Store.delete_person pid db = inr db' -> schema_holds db'.
Proof.
  unfold Store.delete_person. intros H Hs. injection Hs as <-. schema_fields H.
  - apply unique_filter, Hpi.
  - apply unique_filter, Hsi.
  - apply unique_filter, Hpe.
  - apply unique_filter, Hsk.
  - intros p Hp. apply filter_In in Hp. apply Hpf, Hp.
  - intros a Ha. apply filter_In in Ha. apply Hsf, Ha.
  - intros a Ha. apply filter_In in Ha. destruct Ha as [Ha Hkeep].
    apply existsb_kept; [|apply Hsp, Ha].
    intros p _ Hp. apply String.eqb_eq in Hp. rewrite Hp. exact Hkeep.
  - intros a Ha. apply filter_In in Ha. apply Hsc, Ha.
Qed.

Lemma delete_assignment_schema (aid : string) (db db' : database) :
  schema_holds db -> Store.delete_assignment aid db = inr db' ->
  schema_holds db'.
Proof.
  unfold Store.delete_assignment. intros H Hs. injection Hs as <-.
  schema_fields H.
  - apply unique_filter, Hsi.
  - apply unique_filter, Hsk.
  - intros a Ha. apply filter_In in Ha. apply Hsf, Ha.
  - intros a Ha. apply filter_In in Ha. apply Hsp, Ha.
  - intros a Ha. apply filter_In in Ha. apply Hsc, Ha.
Qed.

Lemma delete_admin_schema (aid fid : string) (db db' : database) :
  schema_holds db -> Store.delete_admin aid fid db = inr db' -> schema_holds db'.
Proof.
  unfold Store.delete_admin. intros H Hs. injection Hs as <-. schema_fields H.
  - apply unique_filter, Hai.
  - apply unique_filter, Hae.
  - intros a Ha. apply filter_In in Ha. apply Haf, Ha.
Qed.

End SchemaFacts.

(** ** The rules of the routes hold in every reachable store *)
Module SoundFacts.
Import JSString Store Http Auth Routes Families Api ApiSpec Integrity RowFacts
  SchemaFacts GuardFacts AssignmentFacts.
Open Scope string_scope.

(** *** Rows outside a filter *)

Lemma filter_filter_kept {Row : Type} (p keep : Row -> bool) (rows : list Row) :
  (forall r, In r rows -> p r = true -> keep r = true) ->
  filter p (filter keep rows) = filter p rows.
Proof.
  intros H. induction rows as [|r rows IH]; [reflexivity|].
  cbn [filter]. assert (IH' : filter p (filter keep rows) = filter p rows)
    by (apply IH; intros x Hx; apply H; right; exact Hx).
  destruct (p r) eqn:Hp.
  - rewrite (H r (or_introl eq_refl) Hp). cbn [filter]. rewrite Hp, IH'.
    reflexivity.
  - destruct (keep r); [cbn [filter]; rewrite Hp|]; exact IH'.
Qed.

Lemma filter_map_kept {Row : Type} (p : Row -> bool) (upd : Row -> Row)
  (rows : list Row) :
  (forall r, In r rows -> p (upd r) = p r /\ (p r = true -> upd r = r)) ->
  filter p (map upd rows) = filter p rows.
Proof.
  intros H. induction rows as [|r rows IH]; [reflexivity|].
  cbn [map filter]. destruct (H r (or_introl eq_refl)) as [Hp Hu].
  rewrite Hp, IH by (intros x Hx; apply H; right; exact Hx).
  destruct (p r); [rewrite Hu by reflexivity|]; reflexivity.
Qed.

Lemma filter_snoc_out {Row : Type} (p : Row -> bool) (rows : list Row) (r : Row) :
  p r = false -> filter p (rows ++ [r]) = filter p rows.
Proof.
  intros H. rewrite filter_app. cbn [filter]. rewrite H. apply app_nil_r.
Qed.

(** With unique ids a delete by id removes at most one row. *)
Lemma filter_delete_one {Row : Type} (ident : Row -> string) (p q : Row -> bool)
  (target : string) (rows : list Row) :
  NoDup (map ident rows) ->
  (List.length (filter p rows)
   <= S (List.length
           (filter p (filter (fun r => negb ((ident r =? target)%string && q r))
                             rows))))%nat.
Proof.
  intros Hnd. induction rows as [|r rows IH]; [cbn; lia|].
  cbn [map] in Hnd. apply NoDup_cons_iff in Hnd. destruct Hnd as [Hr Hnd].
  specialize (IH Hnd). cbn [filter].
  destruct ((ident r =? target) && q r)%bool eqn:Hdel; cbn [negb].
  - apply andb_true_iff in Hdel. destruct Hdel as [Hid _].
    apply String.eqb_eq in Hid.
    rewrite (filter_filter_kept p _ rows).
    + destruct (p r); cbn [List.length]; lia.
    + intros x Hx _. destruct (ident x =? target) eqn:Hx'; [|reflexivity].
      exfalso. apply Hr. apply String.eqb_eq in Hx'. rewrite Hid, <- Hx'.
      apply in_map. exact Hx.
  - cbn [filter]. destruct (p r); cbn [List.length]; lia.
Qed.

(** *** The person and chore of an assignment are of its family *)

Lemma same_family_tables (db db' : database) :
  assignments db' = assignments db ->
  (forall p, existsb p (people db) = true -> existsb p (people db') = true) ->
  (forall p, existsb p (chores db) = true -> existsb p (chores db') = true) ->
  same_family db -> same_family db'.
Proof.
  intros Ha Hp Hc H a Hin. rewrite Ha in Hin. destruct (H a Hin) as [H1 H2].
  split; [apply Hp, H1 | apply Hc, H2].
Qed.

(** *** Soundness is kept by every statement, under the check its route
    makes before it *)

Lemma count_admins_snoc (db : database) (r : Admin.row) (fid : string) :
  (count_admins db fid
   <= count_admins (mkDb (families db) (admins db ++ [r]) (people db) (chores db)
                         (assignments db)) fid)%Z.
Proof.
  unfold count_admins. cbn [admins]. rewrite filter_app, length_app. lia.
Qed.

Lemma insert_admin_sound (r : Admin.row) (db db' : database) :
  sound db -> insert_admin r db = inr db' -> sound db'.
Proof.
  intros (Hs & Hf & Hl & Ha) Hi.
  split; [exact (insert_admin_schema r db db' Hs Hi)|].
  unfold insert_admin in Hi.
  repeat (first_check Hi Hx; [discriminate|]; clear Hx). injection Hi as <-.
  split; [|split].
  - apply (same_family_tables db); auto.
  - exact Hl.
  - intros f Hin. specialize (Ha f Hin).
    pose proof (count_admins_snoc db r (Family.id f)). cbn [families] in *. lia.
Qed.

Lemma insert_person_sound (r : Person.row) (db db' : database) :
  sound db -> insert_person r db = inr db' -> sound db'.
Proof.
  intros (Hs & Hf & Hl & Ha) Hi.
  split; [exact (insert_person_schema r db db' Hs Hi)|].
  unfold insert_person in Hi.
  repeat (first_check Hi Hx; [discriminate|]; clear Hx). injection Hi as <-.
  split; [|split].
  - apply (same_family_tables db); auto. intros p. apply existsb_grows.
  - exact Hl.
  - exact Ha.
Qed.

Lemma label_key_fresh (db : database) (r c : Chore.row) :
  chore_by_label db (Chore.family_id r) (Chore.label r) = None ->
  In c (chores db) -> label_key c <> label_key r.
Proof.
  unfold chore_by_label, label_key. intros Hnone Hin Heq.
  pose proof (find_none _ _ Hnone c Hin) as Hf. cbv beta in Hf.
  injection Heq as H1 H2. rewrite H1, H2, !String.eqb_refl in Hf. discriminate.
Qed.

Lemma insert_chore_sound (r : Chore.row) (db db' : database) :
  sound db ->
  chore_by_label db (Chore.family_id r) (Chore.label r) = None ->
  insert_chore r db = inr db' -> sound db'.
Proof.
  intros (Hs & Hf & Hl & Ha) Hnew Hi.
  split; [exact (insert_chore_schema r db db' Hs Hi)|].
  unfold insert_chore in Hi.
  repeat (first_check Hi Hx; [discriminate|]; clear Hx). injection Hi as <-.
  split; [|split].
  - apply (same_family_tables db); auto. intros p. apply existsb_grows.
  - unfold labels_unique in *. cbn [chores]. rewrite map_app.
    apply NoDup_app; [exact Hl | repeat constructor; intros [] |].
    intros k Hk [<-|[]]. apply in_map_iff in Hk. destruct Hk as (c & Hk & Hc).
    exact (label_key_fresh db r c Hnew Hc Hk).
  - exact Ha.
Qed.

Lemma insert_assignment_sound (r : Assignment.row) (db db' : database) :
  sound db ->
  person_in_family db (Assignment.person_id r) (Assignment.family_id r) <> None ->
  chore_in_family db (Assignment.chore_id r) (Assignment.family_id r) <> None ->
  insert_assignment r db = inr db' -> sound db'.
Proof.
  intros (Hs & Hf & Hl & Ha) Hp Hc Hi.
  split; [exact (insert_assignment_schema r db db' Hs Hi)|].
  unfold insert_assignment in Hi.
  repeat (first_check Hi Hx; [discriminate|]; clear Hx). injection Hi as <-.
  split; [|split]; [|exact Hl|exact Ha].
  intros a Hin. cbn [assignments people chores] in *.
  apply in_app_or in Hin. destruct Hin as [Hin|[<-|[]]]; [exact (Hf a Hin)|].
  unfold person_in_family, chore_in_family in *. split.
  - destruct (find _ (people db)) eqn:E; [|congruence].
    exact (find_some_existsb _ _ _ E).
  - destruct (find _ (chores db)) eqn:E; [|congruence].
    exact (find_some_existsb _ _ _ E).
Qed.

Lemma update_person_sound (pid name email : string) (phone : option string)
  (color : string) (db db' : database) :
  sound db -> update_person pid name email phone color db = inr db' -> sound db'.
Proof.
  intros (Hs & Hf & Hl & Ha) Hi.
  split; [exact (update_person_schema _ _ _ _ _ db db' Hs Hi)|].
  unfold update_person in Hi.
  repeat (first_check Hi Hx; [discriminate|]; clear Hx). injection Hi as <-.
  split; [|split]; [|exact Hl|exact Ha].
  intros a Hin. cbn [assignments] in Hin. destruct (Hf a Hin) as [H1 H2].
  split; [|exact H2]. cbn [people]. rewrite existsb_updated; [exact H1|].
  intros p. destruct (Person.id p =? pid); reflexivity.
Qed.


Lemma update_chore_sound (cid label : string) (c0 : Chore.row)
  (db db' : database) :
  sound db ->
  chore_by_id db cid = Some c0 ->
  other_chore_by_label db (Chore.family_id c0) label cid = None ->
  update_chore cid label db = inr db' -> sound db'.
Proof.
  intros (Hs & Hf & Hl & Ha) Hc0 Hother Hi.
  split; [exact (update_chore_schema _ _ db db' Hs Hi)|].
  unfold update_chore in Hi. injection Hi as <-.
  split; [|split]; [| |exact Ha].
  - intros a Hin. cbn [assignments] in Hin. destruct (Hf a Hin) as [H1 H2].
    split; [exact H1|]. cbn [chores]. rewrite existsb_updated; [exact H2|].
    intros c. destruct (Chore.id c =? cid); reflexivity.
  - unfold labels_unique in *. cbn [chores].
    apply (unique_after_update Chore.id label_key _ cid);
      [exact (chore_ids db Hs) | exact Hl | |].
    + intros c Hc. apply String.eqb_neq in Hc. rewrite Hc. reflexivity.
    + intros a b Hina Hinb Hat Hbt Heq.
      unfold chore_by_id in Hc0. apply find_some in Hc0.
      destruct Hc0 as [Hin0 Hid0]. apply String.eqb_eq in Hid0.
      assert (a = c0)
        by (apply (unique_id_row Chore.id (chores db));
            [exact (chore_ids db Hs) | assumption | assumption | congruence]).
      subst a. unfold other_chore_by_label in Hother.
      pose proof (find_none _ _ Hother b Hinb) as Hfb. cbv beta in Hfb.
      apply String.eqb_eq in Hat. rewrite Hat in Heq.
      unfold label_key in Heq. cbn [Chore.family_id Chore.label] in Heq.
      injection Heq as H1 H2. apply String.eqb_neq in Hbt.
      rewrite <- H1, <- H2, !String.eqb_refl, Hbt in Hfb. discriminate.
Qed.

Lemma delete_chore_sound (cid : string) (db db' : database) :
  sound db -> Store.delete_chore cid db = inr db' -> sound db'.
Proof.
  intros (Hs & Hf & Hl & Ha) Hi.
  split; [exact (delete_chore_schema _ db db' Hs Hi)|].
  unfold Store.delete_chore in Hi. injection Hi as <-.
  split; [|split]; [| |exact Ha].
  - intros a Hin. cbn [assignments people chores] in *.
    apply filter_In in Hin. destruct Hin as [Hin Hkeep].
    destruct (Hf a Hin) as [H1 H2]. split; [exact H1|].
    apply existsb_kept; [|exact H2].
    intros c _ Hc. apply andb_true_iff in Hc. destruct Hc as [Hc _].
    apply String.eqb_eq in Hc. rewrite Hc. exact Hkeep.
  - unfold labels_unique in *. cbn [chores]. apply unique_filter, Hl.
Qed.

Lemma delete_person_sound (pid : string) (db db' : database) :
  sound db -> Store.delete_person pid db = inr db' -> sound db'.
Proof.
  intros (Hs & Hf & Hl & Ha) Hi.
  split; [exact (delete_person_schema _ db db' Hs Hi)|].
  unfold Store.delete_person in Hi. injection Hi as <-.
  split; [|split]; [|exact Hl|exact Ha].
  intros a Hin. cbn [assignments people chores] in *.
  apply filter_In in Hin. destruct Hin as [Hin Hkeep].
  destruct (Hf a Hin) as [H1 H2]. split; [|exact H2].
  apply existsb_kept; [|exact H1].
  intros p _ Hp. apply andb_true_iff in Hp. destruct Hp as [Hp _].
  apply String.eqb_eq in Hp. rewrite Hp. exact Hkeep.
Qed.

Lemma delete_assignment_sound (aid : string) (db db' : database) :
  sound db -> Store.delete_assignment aid db = inr db' -> sound db'.
Proof.
  intros (Hs & Hf & Hl & Ha) Hi.
  split; [exact (delete_assignment_schema _ db db' Hs Hi)|].
  unfold Store.delete_assignment in Hi. injection Hi as <-.
  split; [|split]; [|exact Hl|exact Ha].
  intros a Hin. cbn [assignments people chores] in *.
  apply filter_In in Hin. apply Hf, Hin.
Qed.

(** The guard of the admin removal keeps an admin in the family. *)
Lemma delete_admin_sound (aid fid : string) (db db' : database) :
  sound db -> (1 < count_admins db fid)%Z ->
  Store.delete_admin aid fid db = inr db' -> sound db'.
Proof.
  intros (Hs & Hf & Hl & Ha) Hcount Hi.
  split; [exact (delete_admin_schema _ _ db db' Hs Hi)|].
  unfold Store.delete_admin in Hi. injection Hi as <-.
  split; [|split]; [exact Hf|exact Hl|].
  intros f Hin. cbn [families] in Hin. specialize (Ha f Hin).
  unfold count_admins in *. cbn [admins].
  destruct (string_dec (Family.id f) fid) as [->|Hne].
  - pose proof (filter_delete_one Admin.id
                  (fun a => Admin.family_id a =? fid)
                  (fun a => Admin.family_id a =? fid) aid (admins db)
                  (admin_ids db Hs)). lia.
  - rewrite filter_filter_kept; [exact Ha|].
    intros a _ Hfam. apply String.eqb_eq in Hfam.
    assert (Hx : (Admin.family_id a =? fid) = false)
      by (apply String.eqb_neq; congruence).
    rewrite Hx, andb_false_r. reflexivity.
Qed.

(** *** The routes *)

(** The loop of the whole-week route keeps soundness, at every exit. *)
Lemma week_loop_sound (fid pid week cid : string) (now : nat -> N) (n : nat) :
  forall (i : nat) (created : list (option Assignment.row)) (db : database),
  sound db ->
  person_in_family db pid fid <> None -> chore_in_family db cid fid <> None ->
  match week_loop n i fid pid week cid now created db with
  | inl (_, db') => sound db'
  | inr (_, db') => sound db'
  end.
Proof.
  induction n as [|n IH]; intros i created db Hs Hp Hc; [exact Hs|].
  cbn [week_loop].
  destruct (assignment_by_key db fid pid week (Z.of_nat i) cid);
    [apply IH; assumption|].
  destruct (insert_assignment _ db) as [e|db1] eqn:H1; [exact Hs|].
  apply IH.
  - eapply insert_assignment_sound; [exact Hs | | | exact H1];
      cbn [Assignment.person_id Assignment.family_id Assignment.chore_id];
      assumption.
  - unfold insert_assignment in H1.
    repeat (first_check H1 Hx; [discriminate|]; clear Hx).
    injection H1 as <-. exact Hp.
  - unfold insert_assignment in H1.
    repeat (first_check H1 Hx; [discriminate|]; clear Hx).
    injection H1 as <-. exact Hc.
Qed.

Lemma post_week_sound (user : token_payload) (fid : string)
  (personId choreId weekStartISO : option string) (now : nat -> N)
  (db : database) :
  sound db ->
  sound (snd (post_week user fid personId choreId weekStartISO now db)).
Proof.
  intros Hs. unfold post_week.
  destruct (not_admin_of user fid); [exact Hs|].
  destruct (negb (truthy personId) || negb (truthy choreId)
            || negb (truthy weekStartISO))%bool; [exact Hs|].
  destruct (person_in_family db (str personId) fid) eqn:Hp; [|exact Hs].
  destruct (chore_in_family db (str choreId) fid) eqn:Hc; [|exact Hs].
  pose proof (week_loop_sound fid (str personId) (str weekStartISO)
                (str choreId) now 7 0 [] db Hs) as Hw.
  rewrite Hp, Hc in Hw. specialize (Hw ltac:(discriminate) ltac:(discriminate)).
  destruct (week_loop 7 0 fid (str personId) (str weekStartISO) (str choreId)
              now [] db) as [[e d]|[c d]]; exact Hw.
Qed.

(** Case analysis on the guards and lookups of a handler, keeping what
    each one found. *)
Ltac guards :=
  repeat match goal with
         | |- sound (snd (if ?c then _ else _)) => destruct c eqn:?
         | |- sound (snd (match ?x with _ => _ end)) => destruct x eqn:?
         end;
  cbn [snd].

(** Every route handler keeps soundness. *)
Lemma handle_sound (hash : string -> string) (now : nat -> N)
  (user : token_payload) (req : request) (db : database) :
  sound db -> sound (snd (handle hash now user req db)).
Proof.
  intros Hs.
  destruct req; cbn [handle];
    lazymatch goal with
    | |- context [post_week] => apply post_week_sound, Hs
    | _ => unfold_route; guards; try exact Hs
    end.
  - (* add admin *)
    eapply insert_admin_sound; eassumption.
  - (* remove admin *)
    match goal with
    | H : Store.delete_admin _ _ _ = inr _ |- _ =>
        apply (delete_admin_sound _ _ _ _ Hs) in H; [exact H|]
    end.
    match goal with
    | H : (count_admins _ _ <=? 1)%Z = false |- _ => apply Z.leb_gt in H; exact H
    end.
  - (* add person *)
    eapply insert_person_sound; eassumption.
  - (* update person *)
    eapply update_person_sound; eassumption.
  - (* delete person *)
    eapply delete_person_sound; eassumption.
  - (* add chore *)
    eapply insert_chore_sound; [exact Hs | | eassumption]. assumption.
  - (* update chore *)
    eapply update_chore_sound; eassumption.
  - (* delete chore *)
    eapply delete_chore_sound; eassumption.
  - (* add assignment *)
    eapply insert_assignment_sound; [exact Hs | | | eassumption];
      cbn [Assignment.person_id Assignment.family_id Assignment.chore_id];
      congruence.
  - (* delete assignment *)
    eapply delete_assignment_sound; eassumption.
Qed.


Lemma insert_default_chores_schema (cs : list (string * string)) (fid : string)
  (now : nat -> N) :
  forall (first : nat) (db db' : database),
  schema_holds db -> insert_default_chores cs fid now first db = inr db' ->
  schema_holds db'.
Proof.
  induction cs as [|[cid label] cs IH]; intros first db db' Hs H.
  - injection H as <-. exact Hs.
  - cbn [insert_default_chores] in H. unfold bind in H.
    destruct (insert_chore _ db) as [e|db1] eqn:H1; [discriminate|].
    apply (IH (S first) db1 db'); [|exact H].
    apply (insert_chore_schema _ db db1 Hs H1).
Qed.

(** What a successful family creation checked and did. *)
Lemma create_family_statements_done (hash : string -> string)
  (name adminEmail adminPassword : option string) (now : nat -> N)
  (db db' : database) :
  schema_holds db ->
  create_family_statements hash name adminEmail adminPassword now db = inr db' ->
  existsb (fun f => Family.id f =? created_family_id name now) (families db)
  = false
  /\ schema_holds db'
  /\ db' = with_family db hash name adminEmail adminPassword now.
Proof.
  intros Hs Htx.
  split; [|split; [|exact (create_family_statements_inr _ _ _ _ _ _ _ Htx)]].
  - unfold create_family_statements, bind, insert_family in Htx.
    cbn [Family.id] in Htx.
    destruct (existsb _ (families db)); [discriminate | reflexivity].
  - unfold create_family_statements, bind in Htx.
    destruct (insert_family _ db) as [e|db1] eqn:H1; [discriminate|].
    destruct (insert_admin _ db1) as [e|db2] eqn:H2; [discriminate|].
    eapply insert_default_chores_schema; [|exact Htx].
    eapply insert_admin_schema; [|exact H2].
    eapply insert_family_schema; [exact Hs | exact H1].
Qed.

Lemma post_family_sound (hash : string -> string)
  (sign : token_payload -> string) (name adminEmail adminPassword : option string)
  (now : nat -> N) (db : database) :
  sound db ->
  sound (snd (post_family hash sign name adminEmail adminPassword now db)).
Proof.
  intros Hs. unfold post_family.
  destruct (negb (truthy name) || negb (truthy adminEmail)
            || negb (truthy adminPassword))%bool; [exact Hs|].
  change (transaction _ db)
    with (create_family_statements hash name adminEmail adminPassword now db).
  destruct (create_family_statements hash name adminEmail adminPassword now db)
    as [e|db'] eqn:Htx; [exact Hs|].
  cbn [snd]. destruct Hs as (Hsch & Hf & Hl & Ha).
  destruct (create_family_statements_done _ _ _ _ _ _ _ Hsch Htx)
    as (Hfresh & Hsch' & ->).
  split; [exact Hsch'|]. unfold with_family.
  set (fid := created_family_id name now) in *.
  split; [|split].
  - intros a Hin. cbn [assignments people chores] in *.
    destruct (Hf a Hin) as [H1 H2]. split; [exact H1|].
    apply existsb_grows, H2.
  - unfold labels_unique in *. cbn [chores]. rewrite map_app.
    apply NoDup_app; [exact Hl | |].
    + unfold created_chores, label_key. cbn [map Chore.family_id Chore.label].
      repeat (apply NoDup_cons;
              [cbn [In]; intros Hx;
               repeat (destruct Hx as [Hx|Hx]; [discriminate Hx|]); exact Hx|]).
      constructor.
    + intros k Hk Hk'. apply in_map_iff in Hk. destruct Hk as (c & <- & Hc).
      pose proof (chore_family db Hsch c Hc) as Hfam. unfold family_exists in Hfam.
      assert (Hcf : Chore.family_id c = fid).
      { unfold created_chores, label_key in Hk'.
        cbn [map Chore.family_id Chore.label In] in Hk'.
        repeat (destruct Hk' as [Hk'|Hk']; [injection Hk' as Hk' _; congruence|]).
        destruct Hk'. }
      rewrite Hcf in Hfam. congruence.
  - intros f Hin. cbn [families] in Hin. unfold count_admins. cbn [admins].
    rewrite filter_app, length_app. apply in_app_or in Hin.
    destruct Hin as [Hin|[<-|[]]].
    + specialize (Ha f Hin). unfold count_admins in Ha. lia.
    + cbn [filter Admin.family_id Family.id]. rewrite String.eqb_refl.
      cbn [List.length]. lia.
Qed.

(** Soundness holds of every store the API reaches. *)
Lemma reachable_sound (db : database) : reachable db -> sound db.
Proof.
  induction 1 as [| hash sign name email password now db _ IH
                  | verify hash now authorization req db _ IH].
  - split; [|split; [|split]].
    + constructor; cbn; try constructor; intros ? [].
    + intros a [].
    + constructor.
    + intros f [].
  - apply post_family_sound, IH.
  - unfold serve, authenticateToken.
    destruct (bearer authorization) as [token|]; [|exact IH].
    destruct (verify token) as [user|err]; [|exact IH].
    apply handle_sound, IH.
Qed.

End SoundFacts.

(** ** A request touches the rows of the token's family only *)
Module IsolationFacts.
Import JSString Store Http Auth Routes Families Api ApiSpec Integrity RowFacts
  SchemaFacts GuardFacts AssignmentFacts SoundFacts.
Open Scope string_scope.

Lemma not_admin_of_false (user : token_payload) (f : string) :
  not_admin_of user f = false -> type user = "admin" /\ familyId user = f.
Proof.
  unfold not_admin_of. intros H. apply orb_false_iff in H.
  destruct H as [H1 H2]. apply negb_false_iff in H1, H2.
  split; apply String.eqb_eq; assumption.
Qed.

Lemma out_of_family (f : string) : negb (f =? f) = false.
Proof. rewrite String.eqb_refl. reflexivity. Qed.

Lemma others_insert_admin (r : Admin.row) (db d : database) :
  insert_admin r db = inr d ->
  others (Admin.family_id r) d = others (Admin.family_id r) db.
Proof.
  unfold insert_admin. intros H.
  repeat (first_check H Hx; [discriminate|]; clear Hx). injection H as <-.
  unfold others. cbn [families admins people chores assignments].
  rewrite filter_snoc_out by apply out_of_family. reflexivity.
Qed.

Lemma others_insert_person (r : Person.row) (db d : database) :
  insert_person r db = inr d ->
  others (Person.family_id r) d = others (Person.family_id r) db.
Proof.
  unfold insert_person. intros H.
  repeat (first_check H Hx; [discriminate|]; clear Hx). injection H as <-.
  unfold others. cbn [families admins people chores assignments].
  rewrite filter_snoc_out by apply out_of_family. reflexivity.
Qed.

Lemma others_insert_chore (r : Chore.row) (db d : database) :
  insert_chore r db = inr d ->
  others (Chore.family_id r) d = others (Chore.family_id r) db.
Proof.
  unfold insert_chore. intros H.
  repeat (first_check H Hx; [discriminate|]; clear Hx). injection H as <-.
  unfold others. cbn [families admins people chores assignments].
  rewrite filter_snoc_out by apply out_of_family. reflexivity.
Qed.

Lemma others_insert_assignment (r : Assignment.row) (db d : database) :
  insert_assignment r db = inr d ->
  others (Assignment.family_id r) d = others (Assignment.family_id r) db.
Proof.
  unfold insert_assignment. intros H.
  repeat (first_check H Hx; [discriminate|]; clear Hx). injection H as <-.
  unfold others. cbn [families admins people chores assignments].
  rewrite filter_snoc_out by apply out_of_family. reflexivity.
Qed.

Lemma others_delete_admin (aid fid : string) (db d : database) :
  Store.delete_admin aid fid db = inr d -> others fid d = others fid db.
Proof.
  unfold Store.delete_admin. intros H. injection H as <-.
  unfold others. cbn [families admins people chores assignments].
  rewrite filter_filter_kept; [reflexivity|].
  intros a _ Ha. apply negb_true_iff in Ha. rewrite Ha, andb_false_r.
  reflexivity.
Qed.

(** The row a by-id route found is the only one with that id. *)
Lemma found_is_the_row {Row : Type} (ident : Row -> string) (rows : list Row)
  (target : string) (r0 r : Row) :
  NoDup (map ident rows) ->
  find (fun x => ident x =? target) rows = Some r0 ->
  In r rows -> ident r = target -> r = r0.
Proof.
  intros Hnd Hfind Hin Hid. apply find_some in Hfind.
  destruct Hfind as [Hin0 Hid0]. apply String.eqb_eq in Hid0.
  apply (unique_id_row ident rows); [assumption | assumption | assumption |].
  congruence.
Qed.

Lemma others_update_person (pid name email : string) (phone : option string)
  (color : string) (p0 : Person.row) (db d : database) :
  sound db -> person_by_id db pid = Some p0 ->
  update_person pid name email phone color db = inr d ->
  others (Person.family_id p0) d = others (Person.family_id p0) db.
Proof.
  intros (Hs & _) Hp0 H. unfold update_person in H.
  first_check H Hx; [discriminate|]. injection H as <-.
  unfold others. cbn [families admins people chores assignments].
  rewrite filter_map_kept; [reflexivity|].
  intros p Hin. split.
  - destruct (Person.id p =? pid); reflexivity.
  - intros Hout. destruct (Person.id p =? pid) eqn:Hid; [|reflexivity].
    apply String.eqb_eq in Hid.
    rewrite (found_is_the_row Person.id (people db) pid p0 p
               (person_ids db Hs) Hp0 Hin Hid) in Hout.
    rewrite out_of_family in Hout. discriminate.
Qed.

Lemma others_update_chore (cid label : string) (c0 : Chore.row)
  (db d : database) :
  sound db -> chore_by_id db cid = Some c0 ->
  update_chore cid label db = inr d ->
  others (Chore.family_id c0) d = others (Chore.family_id c0) db.
Proof.
  intros (Hs & _) Hc0 H. unfold update_chore in H. injection H as <-.
  unfold others. cbn [families admins people chores assignments].
  rewrite filter_map_kept; [reflexivity|].
  intros c Hin. split.
  - destruct (Chore.id c =? cid); reflexivity.
  - intros Hout. destruct (Chore.id c =? cid) eqn:Hid; [|reflexivity].
    apply String.eqb_eq in Hid.
    rewrite (found_is_the_row Chore.id (chores db) cid c0 c
               (chore_ids db Hs) Hc0 Hin Hid) in Hout.
    rewrite out_of_family in Hout. discriminate.
Qed.

Lemma others_delete_person (pid : string) (p0 : Person.row) (db d : database) :
  sound db -> person_by_id db pid = Some p0 ->
  Store.delete_person pid db = inr d ->
  others (Person.family_id p0) d = others (Person.family_id p0) db.
Proof.
  intros (Hs & Hf & _) Hp0 H. unfold Store.delete_person in H.
  injection H as <-.
  unfold others. cbn [families admins people chores assignments].
  rewrite !filter_filter_kept; [reflexivity | |].
  - intros a Hin Hout. destruct (Assignment.person_id a =? pid) eqn:Hid;
      [|reflexivity].
    exfalso. apply String.eqb_eq in Hid. destruct (Hf a Hin) as [Hp _].
    apply existsb_exists in Hp. destruct Hp as (p & Hpin & Hp).
    apply andb_true_iff in Hp. destruct Hp as [Hpid Hpfam].
    apply String.eqb_eq in Hpid, Hpfam.
    rewrite (found_is_the_row Person.id (people db) pid p0 p
               (person_ids db Hs) Hp0 Hpin ltac:(congruence)) in Hpfam.
    rewrite <- Hpfam, out_of_family in Hout. discriminate.
  - intros p Hin Hout. destruct (Person.id p =? pid) eqn:Hid; [|reflexivity].
    exfalso. apply String.eqb_eq in Hid.
    rewrite (found_is_the_row Person.id (people db) pid p0 p
               (person_ids db Hs) Hp0 Hin Hid) in Hout.
    rewrite out_of_family in Hout. discriminate.
Qed.

Lemma others_delete_chore (cid : string) (c0 : Chore.row) (db d : database) :
  sound db -> chore_by_id db cid = Some c0 ->
  Store.delete_chore cid db = inr d ->
  others (Chore.family_id c0) d = others (Chore.family_id c0) db.
Proof.
  intros (Hs & Hf & _) Hc0 H. unfold Store.delete_chore in H.
  injection H as <-.
  unfold others. cbn [families admins people chores assignments].
  rewrite !filter_filter_kept; [reflexivity | |].
  - intros a Hin Hout. destruct (Assignment.chore_id a =? cid) eqn:Hid;
      [|reflexivity].
    exfalso. apply String.eqb_eq in Hid. destruct (Hf a Hin) as [_ Hc].
    apply existsb_exists in Hc. destruct Hc as (c & Hcin & Hc).
    apply andb_true_iff in Hc. destruct Hc as [Hcid Hcfam].
    apply String.eqb_eq in Hcid, Hcfam.
    rewrite (found_is_the_row Chore.id (chores db) cid c0 c
               (chore_ids db Hs) Hc0 Hcin ltac:(congruence)) in Hcfam.
    rewrite <- Hcfam, out_of_family in Hout. discriminate.
  - intros c Hin Hout. destruct (Chore.id c =? cid) eqn:Hid; [|reflexivity].
    exfalso. apply String.eqb_eq in Hid.
    rewrite (found_is_the_row Chore.id (chores db) cid c0 c
               (chore_ids db Hs) Hc0 Hin Hid) in Hout.
    rewrite out_of_family in Hout. discriminate.
Qed.

Lemma others_delete_assignment (aid : string) (a0 : Assignment.row)
  (db d : database) :
  sound db -> assignment_by_id db aid = Some a0 ->
  Store.delete_assignment aid db = inr d ->
  others (Assignment.family_id a0) d = others (Assignment.family_id a0) db.
Proof.
  intros (Hs & _) Ha0 H. unfold Store.delete_assignment in H.
  injection H as <-.
  unfold others. cbn [families admins people chores assignments].
  rewrite filter_filter_kept; [reflexivity|].
  intros a Hin Hout. destruct (Assignment.id a =? aid) eqn:Hid; [|reflexivity].
  exfalso. apply String.eqb_eq in Hid.
  rewrite (found_is_the_row Assignment.id (assignments db) aid a0 a
             (assignment_ids db Hs) Ha0 Hin Hid) in Hout.
  rewrite out_of_family in Hout. discriminate.
Qed.

Lemma others_week_loop (fid pid week cid : string) (now : nat -> N) (n : nat) :
  forall (i : nat) (created : list (option Assignment.row)) (db : database),
  match week_loop n i fid pid week cid now created db with
  | inl (_, d) => others fid d = others fid db
  | inr (_, d) => others fid d = others fid db
  end.
Proof.
  induction n as [|n IH]; intros i created db; [reflexivity|].
  cbn [week_loop].
  destruct (assignment_by_key db fid pid week (Z.of_nat i) cid); [apply IH|].
  destruct (insert_assignment _ db) as [e|db1] eqn:H1; [reflexivity|].
  apply others_insert_assignment in H1. cbn [Assignment.family_id] in H1.
  rewrite <- H1.
  apply (IH (S i) (created ++ [assignment_by_id db1
                                 (week_assignment_id pid week cid now i)])%list
            db1).
Qed.

End IsolationFacts.

(** ** What holds of every store the API can reach *)

Import Integrity Household RowFacts SchemaFacts SoundFacts IsolationFacts.

Lemma household_reachable :
  reachable created /\ reachable with_jo /\ reachable with_week
  /\ reachable two_families.
Proof.
  assert (H1 : reachable created) by apply reach_family, reach_empty.
  assert (H2 : reachable with_jo) by apply reach_request, H1.
  assert (H3 : reachable with_week) by apply reach_request, H2.
  repeat split; try assumption. apply reach_family, H3.
Qed.

(** X1: the constraints of the schema hold of every store the API can
    reach from the empty one: ids are unique in each table, no two admins
    and no two people of a family share an email, no two assignments
    share the five-column key, and every family, person and chore a row
    refers to exists. *)
Theorem reachable_store_keeps_schema (db : database) :
  reachable db -> schema_holds db.
Proof. intros H. apply (reachable_sound db H). Qed.

Lemma reachable_store_keeps_schema_witness :
  reachable two_families /\ schema_holds two_families.
Proof.
  split.
  - apply household_reachable.
  - apply (reachable_store_keeps_schema two_families), household_reachable.
Defined.

(** X2: in every reachable store the person and the chore of an
    assignment belong to the family of the assignment. *)
Theorem reachable_assignment_within_family (db : database) (a : Assignment.row) :
  reachable db -> In a (assignments db) ->
  (exists p, In p (people db) /\ Person.id p = Assignment.person_id a
             /\ Person.family_id p = Assignment.family_id a)
  /\ (exists c, In c (chores db) /\ Chore.id c = Assignment.chore_id a
                /\ Chore.family_id c = Assignment.family_id a).
Proof.
  intros Hr Hin. destruct (reachable_sound db Hr) as (_ & Hf & _).
  destruct (Hf a Hin) as [Hp Hc].
  apply existsb_exists in Hp, Hc.
  destruct Hp as (p & Hpin & Hp). destruct Hc as (c & Hcin & Hc).
  apply andb_true_iff in Hp, Hc.
  destruct Hp as [Hp1 Hp2]. destruct Hc as [Hc1 Hc2].
  apply String.eqb_eq in Hp1, Hp2, Hc1, Hc2.
  split; [exists p | exists c]; repeat split; assumption.
Qed.

Lemma reachable_assignment_within_family_witness :
  let a := Assignment.mk (week_assignment_id jo_id "2026-02-15" dishes_id
                            sample_now 3)
             smith_id jo_id dishes_id "2026-02-15" 3 in
  (exists p, In p (people two_families) /\ Person.id p = Assignment.person_id a
             /\ Person.family_id p = Assignment.family_id a)
  /\ (exists c, In c (chores two_families) /\ Chore.id c = Assignment.chore_id a
                /\ Chore.family_id c = Assignment.family_id a).
Proof.
  intros a.
  refine (reachable_assignment_within_family two_families a _ _).
  - apply household_reachable.
  - vm_compute. do 3 right. left. reflexivity.
Defined.

(** X3: in every reachable store two chores of one family whose labels
    agree up to case are the same chore. *)
Theorem reachable_labels_differ (db : database) (c1 c2 : Chore.row) :
  reachable db -> In c1 (chores db) -> In c2 (chores db) ->
  Chore.family_id c1 = Chore.family_id c2 ->
  toLowerCase (Chore.label c1) = toLowerCase (Chore.label c2) ->
  c1 = c2.
Proof.
  intros Hr H1 H2 Hfam Hlabel.
  destruct (reachable_sound db Hr) as (_ & _ & Hl & _).
  apply (unique_id_row label_key (chores db)); try assumption.
  unfold label_key. congruence.
Qed.

Lemma reachable_labels_differ_witness :
  Chore.mk dishes_id smith_id "Dishes" = Chore.mk dishes_id smith_id "Dishes".
Proof.
  refine (reachable_labels_differ two_families _ _ _ _ _ eq_refl eq_refl).
  - apply household_reachable.
  - vm_compute. left. reflexivity.
  - vm_compute. left. reflexivity.
Defined.

(** X4: in every reachable store every family has an admin. *)
Theorem reachable_family_has_admin (db : database) (f : Family.row) :
  reachable db -> In f (families db) ->
  exists a, In a (admins db) /\ Admin.family_id a = Family.id f.
Proof.
  intros Hr Hin. destruct (reachable_sound db Hr) as (_ & _ & _ & Ha).
  specialize (Ha f Hin). unfold count_admins in Ha.
  destruct (filter (fun a => Admin.family_id a =? Family.id f) (admins db))
    as [|a l] eqn:Hf; [cbn in Ha; lia|].
  assert (Hin' : In a (filter (fun a => Admin.family_id a =? Family.id f)
                         (admins db))) by (rewrite Hf; left; reflexivity).
  apply filter_In in Hin'. destruct Hin' as [Hin' Hfam].
  apply String.eqb_eq in Hfam. exists a. split; assumption.
Qed.

Lemma reachable_family_has_admin_witness :
  exists a, In a (admins two_families)
            /\ Admin.family_id a = Family.id (Family.mk jones_id "Jones Family").
Proof.
  refine (reachable_family_has_admin two_families _ _ _).
  - apply household_reachable.
  - vm_compute. right. left. reflexivity.
Defined.

(** X5: a request under the claims of a token of family F leaves every
    row of the other families as it is, whatever the request, in every
    reachable store. *)
Theorem request_keeps_other_families (hash : string -> string)
  (now : nat -> N) (user : token_payload) (req : request) (db : database) :
  reachable db ->
  others (familyId user) (snd (handle hash now user req db))
  = others (familyId user) db.
Proof.
  intros Hr. pose proof (reachable_sound db Hr) as Hs.
  destruct req; cbn [handle]; unfold_route;
    repeat match goal with
           | |- others _ (snd (if ?c then _ else _)) = _ => destruct c eqn:?
           | |- others _ (snd (match ?x with _ => _ end)) = _ => destruct x eqn:?
           end;
    cbn [snd]; try reflexivity;
    repeat match goal with
           | H : not_admin_of _ _ = false |- _ =>
               apply not_admin_of_false in H; destruct H as [_ H]
           end.
  - (* add admin *)
    match goal with
    | H : insert_admin _ _ = inr _ |- _ => apply others_insert_admin in H;
        cbn [Admin.family_id] in H
    end. congruence.
  - (* remove admin *)
    match goal with
    | H : Store.delete_admin _ _ _ = inr _ |- _ => apply others_delete_admin in H
    end. congruence.
  - (* add person *)
    match goal with
    | H : insert_person _ _ = inr _ |- _ => apply others_insert_person in H;
        cbn [Person.family_id] in H
    end. congruence.
  - (* update person *)
    match goal with
    | H : update_person _ _ _ _ _ _ = inr _, H0 : person_by_id _ _ = Some _ |- _ =>
        apply (others_update_person _ _ _ _ _ _ _ _ Hs H0) in H
    end. congruence.
  - (* delete person *)
    match goal with
    | H : Store.delete_person _ _ = inr _, H0 : person_by_id _ _ = Some _ |- _ =>
        apply (others_delete_person _ _ _ _ Hs H0) in H
    end. congruence.
  - (* add chore *)
    match goal with
    | H : insert_chore _ _ = inr _ |- _ => apply others_insert_chore in H;
        cbn [Chore.family_id] in H
    end. congruence.
  - (* update chore *)
    match goal with
    | H : update_chore _ _ _ = inr _, H0 : chore_by_id _ _ = Some _ |- _ =>
        apply (others_update_chore _ _ _ _ _ Hs H0) in H
    end. congruence.
  - (* delete chore *)
    match goal with
    | H : Store.delete_chore _ _ = inr _, H0 : chore_by_id _ _ = Some _ |- _ =>
        apply (others_delete_chore _ _ _ _ Hs H0) in H
    end. congruence.
  - (* add assignment *)
    match goal with
    | H : insert_assignment _ _ = inr _ |- _ =>
        apply others_insert_assignment in H; cbn [Assignment.family_id] in H
    end. congruence.
  - (* whole week, an insert threw *)
    match goal with
    | H : week_loop ?n ?i ?fid ?pid ?week ?cid ?now ?created ?db = _ |- _ =>
        pose proof (others_week_loop fid pid week cid now n i created db) as Hw;
        rewrite H in Hw
    end. congruence.
  - (* whole week *)
    match goal with
    | H : week_loop ?n ?i ?fid ?pid ?week ?cid ?now ?created ?db = _ |- _ =>
        pose proof (others_week_loop fid pid week cid now n i created db) as Hw;
        rewrite H in Hw
    end. congruence.
  - (* delete assignment *)
    match goal with
    | H : Store.delete_assignment _ _ = inr _,
      H0 : assignment_by_id _ _ = Some _ |- _ =>
        apply (others_delete_assignment _ _ _ _ Hs H0) in H
    end. congruence.
Qed.

Lemma request_keeps_other_families_witness :
  others smith_id
    (snd (handle sample_hash sample_now founder (DeletePerson jo_id)
            two_families))
  = others smith_id two_families.
Proof.
  apply (request_keeps_other_families sample_hash sample_now founder
           (DeletePerson jo_id) two_families).
  apply household_reachable.
Defined.

(** ** Who may change what *)

Import Bodies.

Module AccessFacts.
Import JSString Store Http Auth Routes Families Api ApiSpec GuardFacts.
Open Scope string_scope.

(** Claims whose type is not admin pass no guard of a writing route. *)
Lemma not_admin_unchanged (hash : string -> string)
  (now : nat -> N) (user : token_payload) (req : request) (db : database) :
  type user <> "admin" -> snd (handle hash now user req db) = db.
Proof.
  intros Hty.
  assert (Hg : forall f, not_admin_of user f = true)
    by (intros f; apply not_admin_of_type, Hty).
  destruct req; cbn [handle]; unfold_route; rewrite ?Hg; try reflexivity;
    try (destruct (negb (familyId user =? familyId0)); [reflexivity|]);
    repeat match goal with
           | |- snd (match ?x with Some _ => _ | None => _ end) = _ =>
               destruct x; rewrite ?Hg
           end;
    reflexivity.
Qed.

End AccessFacts.

(** X6: a request under claims whose type is not admin (a member token)
    never changes the store, whatever the request. *)
Theorem member_token_changes_nothing (hash : string -> string)
  (now : nat -> N) (user : token_payload) (req : request) (db : database) :
  type user <> "admin" -> snd (handle hash now user req db) = db.
Proof. apply AccessFacts.not_admin_unchanged. Qed.

Lemma member_token_changes_nothing_witness :
  snd (handle sample_hash sample_now
         (mkUser None (Some jo_id) smith_id "user") (DeletePerson jo_id)
         two_families) = two_families.
Proof.
  apply (member_token_changes_nothing sample_hash sample_now
           (mkUser None (Some jo_id) smith_id "user") (DeletePerson jo_id)
           two_families).
  discriminate.
Defined.

(** X7: a request that is answered with a status from 400 to 499 has
    left the store as it was. *)
Theorem client_error_changes_nothing (verify : string -> verified)
  (hash : string -> string) (now : nat -> N) (authorization : option string)
  (req : request) (db : database) :
  400 <= status (fst (serve verify hash now authorization req db)) < 500 ->
  snd (serve verify hash now authorization req db) = db.
Proof.
  unfold serve, authenticateToken.
  destruct (bearer authorization) as [token|]; [|reflexivity].
  destruct (verify token) as [user|err]; [|reflexivity].
  destruct req; cbn [handle]; unfold_route;
    repeat match goal with
           | |- _ <= status (fst (if ?c then _ else _)) < _ -> _ => destruct c
           | |- _ <= status (fst (match ?x with _ => _ end)) < _ -> _ =>
               destruct x
           end;
    cbn [fst snd status reply ok internal_error]; intros H;
    try reflexivity; lia.
Qed.

Lemma client_error_changes_nothing_witness :
  snd (serve (decode_as jones_founder) sample_hash sample_now (Some "Bearer t")
         (DeletePerson jo_id) two_families) = two_families.
Proof.
  apply (client_error_changes_nothing (decode_as jones_founder) sample_hash
           sample_now (Some "Bearer t") (DeletePerson jo_id) two_families).
  vm_compute. split; [discriminate | reflexivity].
Defined.

(** X8: a read request changes nothing, and every person, chore and
    assignment in its response is a row of the store that belongs to the
    family of the token. *)
Theorem reads_return_own_family (hash : string -> string) (now : nat -> N)
  (user : token_payload) (req : request) (db : database) :
  mutating req = false ->
  snd (handle hash now user req db) = db
  /\ (forall p, In p (body_people (body (fst (handle hash now user req db)))) ->
        In p (people db) /\ Person.family_id p = familyId user)
  /\ (forall c, In c (body_chores (body (fst (handle hash now user req db)))) ->
        In c (chores db) /\ Chore.family_id c = familyId user)
  /\ (forall a,
        In a (body_assignments (body (fst (handle hash now user req db)))) ->
        In a (assignments db) /\ Assignment.family_id a = familyId user).
Proof.
  intros Hread.
  assert (Hrow : forall {Row : Type} (fam : Row -> string) (q : Row -> bool)
                   (rows : list Row) (fid : string) (r : Row),
             familyId user = fid ->
             In r (filter (fun x => (fam x =? fid) && q x)%bool rows) ->
             In r rows /\ fam r = familyId user).
  { intros Row fam q rows fid r Hfid Hin. apply filter_In in Hin.
    destruct Hin as [Hin Hp]. apply andb_true_iff in Hp.
    destruct Hp as [Hp _]. apply String.eqb_eq in Hp. split; congruence. }
  assert (Hrow' : forall {Row : Type} (fam : Row -> string)
                    (rows : list Row) (fid : string) (r : Row),
             familyId user = fid ->
             In r (filter (fun x => fam x =? fid) rows) ->
             In r rows /\ fam r = familyId user).
  { intros Row fam rows fid r Hfid Hin. apply filter_In in Hin.
    destruct Hin as [Hin Hp]. apply String.eqb_eq in Hp. split; congruence. }
  destruct req; try discriminate Hread; cbn [handle]; unfold_route;
    (destruct (familyId user =? familyId0) eqn:Hfam; cbn [negb];
     [apply String.eqb_eq in Hfam
     |cbn; split; [reflexivity | split; [|split]]; intros x Hx; destruct Hx]).
  - (* the family document *)
    destruct (find _ (families db));
      [|cbn; split; [reflexivity | split; [|split]]; intros x Hx; destruct Hx].
    cbn [fst snd body ok body_people body_chores body_assignments].
    split; [reflexivity | split; [|split]];
      intros x Hx; apply (Hrow' _ _ _ _ _ Hfam Hx).
  - (* people *)
    cbn [fst snd body ok body_people body_chores body_assignments].
    split; [reflexivity | split; [|split]]; intros x Hx;
      [apply (Hrow' _ _ _ _ _ Hfam Hx) | destruct Hx | destruct Hx].
  - (* chores *)
    cbn [fst snd body ok body_people body_chores body_assignments].
    split; [reflexivity | split; [|split]]; intros x Hx;
      [destruct Hx | apply (Hrow' _ _ _ _ _ Hfam Hx) | destruct Hx].
  - (* assignments of a week *)
    cbn [fst snd body ok body_people body_chores body_assignments].
    split; [reflexivity | split; [|split]]; intros x Hx;
      [destruct Hx | destruct Hx |].
    apply (Hrow _ Assignment.family_id
             (fun a => Assignment.week_start_iso a =? weekStartISO)
             _ _ _ Hfam Hx).
Qed.

Lemma reads_return_own_family_witness :
  snd (handle sample_hash sample_now founder (GetFamily smith_id) two_families)
  = two_families
  /\ (forall p,
        In p (body_people (body (fst (handle sample_hash sample_now founder
                                        (GetFamily smith_id) two_families)))) ->
        In p (people two_families) /\ Person.family_id p = familyId founder)
  /\ (forall c,
        In c (body_chores (body (fst (handle sample_hash sample_now founder
                                        (GetFamily smith_id) two_families)))) ->
        In c (chores two_families) /\ Chore.family_id c = familyId founder)
  /\ (forall a,
        In a (body_assignments
                (body (fst (handle sample_hash sample_now founder
                              (GetFamily smith_id) two_families)))) ->
        In a (assignments two_families)
        /\ Assignment.family_id a = familyId founder).
Proof.
  exact (reads_return_own_family sample_hash sample_now founder
           (GetFamily smith_id) two_families eq_refl).
Defined.

(** ** What the routes answer and store *)
Module RouteFacts.
Import JSString Store Http Routes SchemaFacts.
Open Scope string_scope.

Lemma find_present {Row : Type} (p : Row -> bool) (rows : list Row) (r : Row) :
  In r rows -> p r = true -> exists r', find p rows = Some r'.
Proof.
  intros Hin Hp. destruct (find p rows) as [r'|] eqn:Hf; [exists r'; reflexivity|].
  rewrite (find_none p rows Hf r Hin) in Hp. discriminate.
Qed.

(** The row an insert appended is the one a lookup by its fresh id finds. *)
Lemma find_appended {Row : Type} (ident : Row -> string) (rows : list Row)
  (r : Row) :
  existsb (fun x => ident x =? ident r) rows = false ->
  find (fun x => ident x =? ident r) (rows ++ [r]) = Some r.
Proof.
  intros H. rewrite find_app_none by (apply find_none_existsb; exact H).
  cbn [find]. rewrite String.eqb_refl. reflexivity.
Qed.

Lemma filter_keeps_all {Row : Type} (p : Row -> bool) (rows : list Row) :
  (forall r, In r rows -> p r = true) -> filter p rows = rows.
Proof.
  induction rows as [|r rows IH]; intros H; [reflexivity|]. cbn [filter].
  rewrite (H r (or_introl eq_refl)), IH; [reflexivity|].
  intros x Hx. apply H. right. exact Hx.
Qed.

(** A delete by the id of the appended row undoes the insert. *)
Lemma delete_appended {Row : Type} (ident : Row -> string) (rows : list Row)
  (r : Row) :
  existsb (fun x => ident x =? ident r) rows = false ->
  filter (fun x => negb (ident x =? ident r)) (rows ++ [r]) = rows.
Proof.
  intros H. rewrite filter_app. cbn [filter]. rewrite String.eqb_refl.
  cbn [negb]. rewrite app_nil_r. apply filter_keeps_all.
  intros x Hx. rewrite (existsb_false_In _ rows x H Hx). reflexivity.
Qed.

(** An update that keeps the ids is seen by a lookup by id. *)
Lemma find_updated {Row : Type} (ident : Row -> string) (upd : Row -> Row)
  (target : string) (rows : list Row) :
  (forall r, ident (upd r) = ident r) ->
  find (fun x => ident x =? target) (map upd rows)
  = option_map upd (find (fun x => ident x =? target) rows).
Proof.
  intros H. induction rows as [|r rows IH]; [reflexivity|].
  cbn [map find]. rewrite H. destruct (ident r =? target); [reflexivity|].
  exact IH.
Qed.

Lemma trim_empty_label (label : string) : trim label <> "" -> label <> "".
Proof. intros H ->. apply H. reflexivity. Qed.

Lemma palette_color (n : nat) :
  getDefaultColorForIndex (Z.of_nat n) = nth (n mod 6) palette ""
  /\ In (nth (n mod 6) palette "") palette.
Proof.
  unfold getDefaultColorForIndex.
  change (Z.of_nat (List.length palette)) with (Z.of_nat 6).
  rewrite <- Nat2Z.inj_mod, Nat2Z.id. split; [reflexivity|].
  apply nth_In. change (List.length palette) with 6%nat.
  apply Nat.mod_upper_bound. discriminate.
Qed.

(** What the status 201 of an added person tells. *)
Lemma post_person_created (user : token_payload) (fid : string)
  (name email phone : option string) (now : nat -> N) (db : database) :
  status (fst (post_person user fid name email phone now db)) = 201 ->
  not_admin_of user fid = false
  /\ truthy name = true
  /\ exists row,
       Person.id row = slug (str name) ++ "-" ++ toString36 (now 0%nat)
       /\ people (snd (post_person user fid name email phone now db))
          = (people db ++ [row])%list.
Proof.
  unfold post_person.
  destruct (not_admin_of user fid) eqn:Hguard; [discriminate|].
  destruct (truthy name); [|discriminate].
  destruct (truthy email); [|discriminate]. cbn [negb orb].
  destruct (insert_person _ db) as [e|db'] eqn:Hins.
  { destruct e; discriminate. }
  intros _. split; [reflexivity | split; [reflexivity|]].
  unfold insert_person in Hins.
  first_check Hins Hfresh; [discriminate|].
  first_check Hins Hdup; [discriminate|].
  first_check Hins Hfk; [discriminate|].
  injection Hins as <-. eexists. split; [|reflexivity]. reflexivity.
Qed.

End RouteFacts.

Import RouteFacts.

(** X9: the chore routes compare labels after trimming and without
    regard to case: an admin who adds a chore whose trimmed label agrees
    up to case with the label of a chore of the family, or renames
    another chore of the family to it, is answered 409 and the store
    stays as it was. *)
Theorem duplicate_chore_label_409 (user : token_payload) (fid label : string)
  (now : nat -> N) (db : database) (c : Chore.row) :
  type user = "admin" -> familyId user = fid ->
  In c (chores db) -> Chore.family_id c = fid ->
  toLowerCase (Chore.label c) = toLowerCase (trim label) ->
  trim label <> "" ->
  post_chore user fid (Some label) now db
  = (reply 409 (Error "Chore with this label already exists"), db)
  /\ forall cid c0,
       chore_by_id db cid = Some c0 -> Chore.family_id c0 = fid ->
       Chore.id c <> cid ->
       put_chore user cid (Some label) db
       = (reply 409 (Error "Chore with this label already exists"), db).
Proof.
  intros Hty Hfam Hin Hcf Hlabel Htrim.
  pose proof (admin_guard user fid Hty Hfam) as Hguard.
  pose proof (truthy_Some label (trim_empty_label label Htrim)) as Htruthy.
  apply String.eqb_neq in Htrim.
  split.
  - unfold post_chore. rewrite Hguard, Htruthy. cbn [str negb orb].
    rewrite Htrim.
    destruct (find_present
                (fun x => (Chore.family_id x =? fid)
                          && (toLowerCase (Chore.label x)
                              =? toLowerCase (trim label)))%bool
                (chores db) c Hin) as [c' Hc'].
    { rewrite Hcf, Hlabel, !String.eqb_refl. reflexivity. }
    unfold chore_by_label. rewrite Hc'. reflexivity.
  - intros cid c0 Hc0 Hc0f Hother. unfold put_chore. rewrite Hc0, Hc0f, Hguard.
    rewrite Htruthy. cbn [str negb orb]. rewrite Htrim.
    destruct (find_present
                (fun x => (Chore.family_id x =? fid)
                          && (toLowerCase (Chore.label x)
                              =? toLowerCase (trim label))
                          && negb (Chore.id x =? cid))%bool
                (chores db) c Hin) as [c' Hc'].
    { rewrite Hcf, Hlabel, !String.eqb_refl.
      apply String.eqb_neq in Hother. rewrite Hother. reflexivity. }
    unfold other_chore_by_label. rewrite Hc'. reflexivity.
Qed.

Lemma duplicate_chore_label_409_witness :
  post_chore founder smith_id (Some "  DISHES ") sample_now two_families
  = (reply 409 (Error "Chore with this label already exists"), two_families)
  /\ forall cid c0,
       chore_by_id two_families cid = Some c0 ->
       Chore.family_id c0 = smith_id ->
       Chore.id (Chore.mk dishes_id smith_id "Dishes") <> cid ->
       put_chore founder cid (Some "  DISHES ") two_families
       = (reply 409 (Error "Chore with this label already exists"),
          two_families).
Proof.
  refine (duplicate_chore_label_409 founder smith_id "  DISHES " sample_now
            two_families (Chore.mk dishes_id smith_id "Dishes")
            eq_refl eq_refl _ eq_refl eq_refl _).
  - vm_compute. left. reflexivity.
  - vm_compute. discriminate.
Defined.

(** X10: when adding a chore is answered 201, the response carries the
    new row (the trimmed label, the id made of the label's slug and the
    clock), and listing the family's chores afterwards gives the former
    list with the new row at the end. *)
Theorem post_chore_then_listed (user : token_payload) (fid : string)
  (label : option string) (now : nat -> N) (db : database) :
  status (fst (post_chore user fid label now db)) = 201 ->
  let row := Chore.mk (slug (trim (str label)) ++ "-" ++ toString36 (now 0%nat))
               fid (trim (str label)) in
  body (fst (post_chore user fid label now db)) = ChoreRow (Some row)
  /\ chores (snd (post_chore user fid label now db)) = (chores db ++ [row])%list
  /\ fst (get_chores user fid (snd (post_chore user fid label now db)))
     = ok (ChoreRows
             (filter (fun c => Chore.family_id c =? fid) (chores db) ++ [row])).
Proof.
  intros Hst row. revert Hst. unfold post_chore.
  destruct (not_admin_of user fid) eqn:Hguard; [discriminate|].
  destruct (negb (truthy label) || (trim (str label) =? ""))%bool;
    [discriminate|].
  destruct (chore_by_label db fid (trim (str label))); [discriminate|].
  fold (Chore.id row). fold row.
  destruct (insert_chore row db) as [e|db'] eqn:Hins; [discriminate|].
  intros _. cbn [fst snd body reply].
  unfold insert_chore in Hins.
  first_check Hins Hfresh; [discriminate|].
  first_check Hins Hfk; [discriminate|].
  injection Hins as <-. cbn [chores].
  split; [|split; [reflexivity|]].
  - f_equal. exact (find_appended Chore.id (chores db) row Hfresh).
  - unfold get_chores. unfold not_admin_of in Hguard.
    apply orb_false_iff in Hguard. destruct Hguard as [_ Hguard].
    rewrite Hguard. cbn [fst chores]. rewrite filter_app. cbn [filter].
    subst row. cbn [Chore.family_id]. rewrite String.eqb_refl. reflexivity.
Qed.

Lemma post_chore_then_listed_witness :
  let row := Chore.mk (slug (trim (str (Some " Feed the cat "))) ++ "-"
                       ++ toString36 (later 0%nat))
               smith_id (trim (str (Some " Feed the cat "))) in
  body (fst (post_chore founder smith_id (Some " Feed the cat ") later
               two_families)) = ChoreRow (Some row)
  /\ chores (snd (post_chore founder smith_id (Some " Feed the cat ") later
                    two_families)) = (chores two_families ++ [row])%list
  /\ fst (get_chores founder smith_id
            (snd (post_chore founder smith_id (Some " Feed the cat ") later
                    two_families)))
     = ok (ChoreRows
             (filter (fun c => Chore.family_id c =? smith_id)
                     (chores two_families) ++ [row])).
Proof.
  apply (post_chore_then_listed founder smith_id (Some " Feed the cat ") later
           two_families).
  vm_compute. reflexivity.
Defined.

(** X11: when adding a person is answered 201, the response carries the
    new row, appended to the people; its colour is the palette entry at
    the number of people the family had before, modulo six, so always
    one of the six palette colours. *)
Theorem post_person_created_row (user : token_payload) (fid : string)
  (name email phone : option string) (now : nat -> N) (db : database) :
  status (fst (post_person user fid name email phone now db)) = 201 ->
  let before := List.length (filter (fun p => Person.family_id p =? fid)
                               (people db)) in
  let row := Person.mk (slug (str name) ++ "-" ++ toString36 (now 0%nat)) fid
               (str name) (str email) (or_null phone)
               (nth (before mod 6) palette "") in
  In (Person.color row) palette
  /\ body (fst (post_person user fid name email phone now db))
     = PersonRow (Some row)
  /\ people (snd (post_person user fid name email phone now db))
     = (people db ++ [row])%list.
Proof.
  intros Hst before row. revert Hst. unfold post_person.
  destruct (not_admin_of user fid) eqn:Hguard; [discriminate|].
  destruct (negb (truthy name) || negb (truthy email))%bool; [discriminate|].
  unfold count_people.
  destruct (palette_color (List.length (filter (fun p => Person.family_id p =? fid)
                                          (people db)))) as [-> Hin].
  fold before. fold before in Hin. fold (Person.id row). fold row.
  destruct (insert_person row db) as [e|db'] eqn:Hins.
  { destruct e; discriminate. }
  intros _. cbn [fst snd body reply].
  unfold insert_person in Hins.
  first_check Hins Hfresh; [discriminate|].
  first_check Hins Hdup; [discriminate|].
  first_check Hins Hfk; [discriminate|].
  injection Hins as <-. cbn [people].
  split; [exact Hin | split; [|reflexivity]].
  f_equal. exact (find_appended Person.id (people db) row Hfresh).
Qed.

Lemma post_person_created_row_witness :
  let before := List.length (filter (fun p => Person.family_id p =? smith_id)
                               (people two_families)) in
  let row := Person.mk (slug (str (Some "Sam")) ++ "-" ++ toString36 (later 0%nat))
               smith_id (str (Some "Sam")) (str (Some "sam@x.com"))
               (or_null (Some "555-0100"))
               (nth (before mod 6) palette "") in
  In (Person.color row) palette
  /\ body (fst (post_person founder smith_id (Some "Sam") (Some "sam@x.com")
                  (Some "555-0100") later two_families))
     = PersonRow (Some row)
  /\ people (snd (post_person founder smith_id (Some "Sam") (Some "sam@x.com")
                    (Some "555-0100") later two_families))
     = (people two_families ++ [row])%list.
Proof.
  apply (post_person_created_row founder smith_id (Some "Sam")
           (Some "sam@x.com") (Some "555-0100") later two_families).
  vm_compute. reflexivity.
Defined.

(** X12: an admin who adds a person with the email of a person of the
    family is answered 409 and the store stays as it was (the generated
    id being unused, so that the primary key holds). *)
Theorem duplicate_person_email_409 (user : token_payload)
  (fid name email : string) (phone : option string) (now : nat -> N)
  (db : database) (p : Person.row) :
  type user = "admin" -> familyId user = fid ->
  name <> "" -> email <> "" ->
  In p (people db) -> Person.family_id p = fid -> Person.email p = email ->
  person_by_id db (slug name ++ "-" ++ toString36 (now 0%nat)) = None ->
  post_person user fid (Some name) (Some email) phone now db
  = (reply 409 (Error "Person with this email already exists"), db).
Proof.
  intros Hty Hfam Hname Hemail Hin Hpf Hpe Hfresh.
  unfold post_person.
  rewrite (admin_guard user fid Hty Hfam), (truthy_Some name Hname),
    (truthy_Some email Hemail).
  cbn [negb orb str]. unfold insert_person.
  cbn [Person.id Person.family_id Person.email].
  apply find_none_existsb in Hfresh. rewrite Hfresh.
  assert (Hdup : existsb (fun q => (Person.family_id q =? fid)
                                   && (Person.email q =? email))%bool
                         (people db) = true).
  { apply existsb_exists. exists p. split; [exact Hin|].
    rewrite Hpf, Hpe, !String.eqb_refl. reflexivity. }
  rewrite Hdup. reflexivity.
Qed.

Lemma duplicate_person_email_409_witness :
  post_person founder smith_id (Some "Joanna") (Some "jo@x.com") None later
    two_families
  = (reply 409 (Error "Person with this email already exists"), two_families).
Proof.
  refine (duplicate_person_email_409 founder smith_id "Joanna" "jo@x.com" None
            later two_families
            (Person.mk jo_id smith_id "Jo" "jo@x.com" None "#f97373")
            eq_refl eq_refl _ _ _ eq_refl eq_refl _).
  - discriminate.
  - discriminate.
  - vm_compute. left. reflexivity.
  - vm_compute. reflexivity.
Defined.

(** X13: when adding an assignment is answered 201, the response carries
    the new row, and deleting the assignment with that id under the same
    claims is answered 200 and gives back the store as it was before the
    two requests. *)
Theorem post_then_delete_assignment (user : token_payload) (fid : string)
  (personId choreId weekStartISO : option string) (dayIndex : option Z)
  (now : nat -> N) (db : database) :
  status (fst (post_assignment user fid personId choreId weekStartISO
                 dayIndex now db)) = 201 ->
  let row := Assignment.mk
               (assignment_id (str personId) (str weekStartISO) (num dayIndex)
                  (str choreId) now)
               fid (str personId) (str choreId) (str weekStartISO)
               (num dayIndex) in
  body (fst (post_assignment user fid personId choreId weekStartISO dayIndex
               now db)) = AssignmentRow (Some row)
  /\ Routes.delete_assignment user (Assignment.id row)
       (snd (post_assignment user fid personId choreId weekStartISO dayIndex
               now db))
     = (ok (Message "Assignment deleted successfully"), db).
Proof.
  intros Hst row. revert Hst. unfold post_assignment.
  destruct (not_admin_of user fid) eqn:Hguard; [discriminate|].
  destruct (negb (truthy personId) || negb (truthy choreId)
            || negb (truthy weekStartISO) || is_undefined dayIndex)%bool;
    [discriminate|].
  destruct (person_in_family db (str personId) fid); [|discriminate].
  destruct (chore_in_family db (str choreId) fid); [|discriminate].
  destruct (assignment_by_key db fid (str personId) (str weekStartISO)
              (num dayIndex) (str choreId)); [discriminate|].
  fold (assignment_id (str personId) (str weekStartISO) (num dayIndex)
          (str choreId) now).
  fold (Assignment.id row). fold row.
  destruct (insert_assignment row db) as [e|db'] eqn:Hins.
  { destruct e; discriminate. }
  intros _. cbn [fst snd body reply].
  unfold insert_assignment in Hins.
  first_check Hins Hfresh; [discriminate|].
  first_check Hins Hdup; [discriminate|].
  first_check Hins Hfk; [discriminate|].
  injection Hins as <-.
  assert (Hfound : assignment_by_id
                     (mkDb (families db) (admins db) (people db) (chores db)
                           (assignments db ++ [row]))
                     (Assignment.id row) = Some row).
  { exact (find_appended Assignment.id (assignments db) row Hfresh). }
  split.
  - f_equal. exact Hfound.
  - unfold Routes.delete_assignment. rewrite Hfound.
    change (Assignment.family_id row) with fid.
    rewrite Hguard. unfold Store.delete_assignment.
    cbn [families admins people chores assignments].
    rewrite (delete_appended Assignment.id (assignments db) row Hfresh).
    destruct db; reflexivity.
Qed.

Lemma post_then_delete_assignment_witness :
  let row := Assignment.mk
               (assignment_id (str (Some jo_id)) (str (Some "2026-02-22"))
                  (num (Some 2)) (str (Some dishes_id)) later)
               smith_id (str (Some jo_id)) (str (Some dishes_id))
               (str (Some "2026-02-22")) (num (Some 2)) in
  body (fst (post_assignment founder smith_id (Some jo_id) (Some dishes_id)
               (Some "2026-02-22") (Some 2) later two_families))
  = AssignmentRow (Some row)
  /\ Routes.delete_assignment founder (Assignment.id row)
       (snd (post_assignment founder smith_id (Some jo_id) (Some dishes_id)
               (Some "2026-02-22") (Some 2) later two_families))
     = (ok (Message "Assignment deleted successfully"), two_families).
Proof.
  apply (post_then_delete_assignment founder smith_id (Some jo_id)
           (Some dishes_id) (Some "2026-02-22") (Some 2) later two_families).
  vm_compute. reflexivity.
Defined.

(** X14: when updating a person is answered 200, the response carries
    the row with the same id and family, the new name, email and phone,
    and the new colour, or the old one when the request names none; the
    people table keeps its length and every row with another id. *)
Theorem put_person_keeps_identity (user : token_payload) (pid : string)
  (name email phone color : option string) (db : database) (p0 : Person.row) :
  person_by_id db pid = Some p0 ->
  status (fst (put_person user pid name email phone color db)) = 200 ->
  body (fst (put_person user pid name email phone color db))
  = PersonRow (Some (Person.mk (Person.id p0) (Person.family_id p0) (str name)
                       (str email) (or_null phone)
                       (if truthy color then str color else Person.color p0)))
  /\ List.length (people (snd (put_person user pid name email phone color db)))
     = List.length (people db)
  /\ forall q, In q (people db) -> Person.id q <> pid ->
       In q (people (snd (put_person user pid name email phone color db))).
Proof.
  intros Hp0. unfold put_person. rewrite Hp0.
  destruct (not_admin_of user (Person.family_id p0)); [discriminate|].
  destruct (negb (truthy name) || negb (truthy email))%bool; [discriminate|].
  destruct (update_person _ _ _ _ _ db) as [e|db'] eqn:Hupd.
  { destruct e; discriminate. }
  intros _. cbn [fst snd body ok].
  unfold update_person in Hupd.
  destruct (existsb _ (people db)); [discriminate|]. injection Hupd as <-.
  cbn [people]. split; [|split].
  - unfold person_by_id. cbn [people].
    rewrite (find_updated Person.id) by (intros r; destruct (Person.id r =? pid);
                                         reflexivity).
    unfold person_by_id in Hp0. rewrite Hp0. cbn [option_map].
    apply find_some in Hp0. destruct Hp0 as [_ Hid]. rewrite Hid.
    reflexivity.
  - apply length_map.
  - intros q Hin Hq. apply in_map_iff. exists q. split; [|exact Hin].
    apply String.eqb_neq in Hq. rewrite Hq. reflexivity.
Qed.

Lemma put_person_keeps_identity_witness :
  let p0 := Person.mk jo_id smith_id "Jo" "jo@x.com" None "#f97373" in
  body (fst (put_person founder jo_id (Some "Joanna") (Some "jo@y.com") None
               None two_families))
  = PersonRow (Some (Person.mk (Person.id p0) (Person.family_id p0)
                       (str (Some "Joanna")) (str (Some "jo@y.com"))
                       (or_null None)
                       (if truthy None then str None else Person.color p0)))
  /\ List.length (people (snd (put_person founder jo_id (Some "Joanna")
                                 (Some "jo@y.com") None None two_families)))
     = List.length (people two_families)
  /\ forall q, In q (people two_families) -> Person.id q <> jo_id ->
       In q (people (snd (put_person founder jo_id (Some "Joanna")
                            (Some "jo@y.com") None None two_families))).
Proof.
  intros p0.
  refine (put_person_keeps_identity founder jo_id (Some "Joanna")
            (Some "jo@y.com") None None two_families p0 _ _).
  - vm_compute. reflexivity.
  - vm_compute. reflexivity.
Defined.

(** ** Sessions: login, the client's token and the middleware *)
Module SessionFacts.
Import JSString Store Http Auth Routes Families Api ApiSpec Integrity Login
  Client RowFacts SchemaFacts SoundFacts RouteFacts.
Open Scope string_scope.

Lemma rev_append_rev_append (s acc acc' : string) :
  JSString.rev_append (JSString.rev_append s acc) acc'
  = JSString.rev_append acc (s ++ acc').
Proof.
  revert acc. induction s as [|c s IH]; intros acc; [reflexivity|].
  cbn [JSString.rev_append]. rewrite IH. reflexivity.
Qed.

Lemma reverse_reverse (s : string) : reverse (reverse s) = s.
Proof.
  unfold reverse. rewrite rev_append_rev_append. cbn [JSString.rev_append].
  induction s as [|c s IH]; [reflexivity|]. cbn. rewrite IH. reflexivity.
Qed.

(** A piece without a space is not split. *)
Lemma split_space_whole (s : string) :
  has_space s = false ->
  forall cur, split_space cur s = [reverse (JSString.rev_append s cur)].
Proof.
  induction s as [|c s IH]; intros H cur; [reflexivity|].
  cbn [has_space] in H. apply orb_false_iff in H. destruct H as [Hc Hs].
  cbn [split_space JSString.rev_append]. rewrite Hc. apply IH. exact Hs.
Qed.

(** The middleware reads back the token the client put in the header. *)
Lemma bearer_of_header (t : string) :
  has_space t = false -> t <> "" -> bearer (Some ("Bearer " ++ t)) = Some t.
Proof.
  intros Hs Ht. unfold bearer.
  change ("Bearer " ++ t =? "") with false. cbv iota.
  change (split_space "" ("Bearer " ++ t)) with ("Bearer" :: split_space "" t).
  rewrite (split_space_whole t Hs). cbn [nth_error].
  fold (reverse t). rewrite reverse_reverse.
  apply String.eqb_neq in Ht. rewrite Ht. reflexivity.
Qed.

Lemma authorization_after_setToken (t : string) (c : ApiClient) :
  t <> "" ->
  fst (authorization (setToken (Some t) c)) = Some ("Bearer " ++ t)
  /\ fst (authorization (fresh (auth_token (setToken (Some t) c))))
     = Some ("Bearer " ++ t).
Proof.
  intros Ht. apply String.eqb_neq in Ht.
  unfold setToken, authorization, getToken, fresh. cbn [truthy token auth_token].
  rewrite Ht. cbn [negb token auth_token truthy]. rewrite Ht.
  cbn [negb fst str truthy]. rewrite Ht. split; reflexivity.
Qed.

(** The status 201 of a family creation tells what it checked and did. *)
Lemma post_family_created (hash : string -> string)
  (sign : token_payload -> string) (name adminEmail adminPassword : option string)
  (now : nat -> N) (db : database) :
  status (fst (post_family hash sign name adminEmail adminPassword now db)) = 201 ->
  truthy name = true /\ truthy adminEmail = true /\ truthy adminPassword = true
  /\ create_family_statements hash name adminEmail adminPassword now db
     = inr (snd (post_family hash sign name adminEmail adminPassword now db))
  /\ body (fst (post_family hash sign name adminEmail adminPassword now db))
     = FamilyCreated
         (sign (mkUser (Some (created_admin_id now)) None
                       (created_family_id name now) "admin"))
         (created_family_id name now) (str name).
Proof.
  unfold post_family.
  destruct (truthy name); [|discriminate].
  destruct (truthy adminEmail); [|discriminate].
  destruct (truthy adminPassword); [|discriminate].
  cbn [negb orb].
  change (transaction _ db)
    with (create_family_statements hash name adminEmail adminPassword now db).
  destruct (create_family_statements hash name adminEmail adminPassword now db)
    as [e|db']; [discriminate|].
  intros _. repeat split; reflexivity.
Qed.

End SessionFacts.

Import Login Client SessionFacts.

(** X15: the token the client stores comes back to the middleware: after
    [setToken] with a non-empty token without a space, the header of the
    next request, also of a client started afresh over the same
    [localStorage], is the one from which the middleware reads that
    token; after [setToken(null)] no header is sent and every request to
    a protected route is answered 401, the store left as it was. *)
Theorem client_token_round_trip (verify : string -> verified)
  (hash : string -> string) (now : nat -> N) (t : string) (c : ApiClient)
  (req : request) (db : database) :
  (has_space t = false -> t <> "" ->
     bearer (fst (authorization (setToken (Some t) c))) = Some t
     /\ bearer (fst (authorization (fresh (auth_token (setToken (Some t) c)))))
        = Some t)
  /\ serve verify hash now (fst (authorization (setToken None c))) req db
     = (reply 401 (Error "Access token required"), db)
  /\ auth_token (setToken None c) = None.
Proof.
  split; [|split; reflexivity].
  intros Hs Ht. destruct (authorization_after_setToken t c Ht) as [-> ->].
  split; apply bearer_of_header; assumption.
Qed.

Lemma client_token_round_trip_witness :
  bearer (fst (authorization (setToken (Some "abc.def") (fresh None))))
  = Some "abc.def"
  /\ bearer (fst (authorization
                    (fresh (auth_token (setToken (Some "abc.def") (fresh None))))))
     = Some "abc.def".
Proof.
  refine (proj1 (client_token_round_trip reject_all sample_hash sample_now
                   "abc.def" (fresh None) (GetChores "smith") smith) eq_refl _).
  discriminate.
Defined.

(** X16: after a family creation answered 201, on a store where no admin
    has the email yet, the admin login with the same email and password
    is answered 200 with a token for the claims of the new admin, the
    claims the token of the creation response was made for (given that
    the password matches its own hash). *)
Theorem admin_login_after_creation (compare : string -> string -> bool)
  (hash : string -> string) (sign : token_payload -> string)
  (name adminEmail adminPassword : option string) (now : nat -> N)
  (db : database) :
  status (fst (post_family hash sign name adminEmail adminPassword now db)) = 201 ->
  admin_by_email db (str adminEmail) = None ->
  compare (str adminPassword) (hash (str adminPassword)) = true ->
  let claims := mkUser (Some (created_admin_id now)) None
                  (created_family_id name now) "admin" in
  body (fst (post_family hash sign name adminEmail adminPassword now db))
  = FamilyCreated (sign claims) (created_family_id name now) (str name)
  /\ admin_login compare sign adminEmail adminPassword
       (snd (post_family hash sign name adminEmail adminPassword now db))
     = mkLogin 200 (AdminSession (sign claims) (created_admin_id now)
                      (str adminEmail) (created_family_id name now)).
Proof.
  intros H201 Hnone Hcmp claims.
  destruct (post_family_created hash sign name adminEmail adminPassword now db
              H201) as (Hn & He & Hp & Htx & Hbody).
  split; [exact Hbody|].
  rewrite (create_family_statements_inr _ _ _ _ _ _ _ Htx).
  unfold admin_login. rewrite He, Hp. cbn [negb orb].
  unfold admin_by_email, with_family. cbn [admins].
  unfold admin_by_email in Hnone. rewrite (find_app_none _ _ _ Hnone).
  cbn [find Admin.email]. rewrite String.eqb_refl.
  cbn [Admin.password_hash Admin.id Admin.family_id Admin.email].
  rewrite Hcmp. reflexivity.
Qed.

Lemma admin_login_after_creation_witness :
  let compare := fun password h => h =? sample_hash password in
  let claims := mkUser (Some (created_admin_id sample_now)) None
                  (created_family_id (Some "Smith Family") sample_now)
                  "admin" in
  body (fst (post_family sample_hash sample_sign (Some "Smith Family")
               (Some "admin@x.com") (Some "pw123") sample_now Store.empty))
  = FamilyCreated (sample_sign claims)
      (created_family_id (Some "Smith Family") sample_now)
      (str (Some "Smith Family"))
  /\ admin_login compare sample_sign (Some "admin@x.com") (Some "pw123")
       (snd (post_family sample_hash sample_sign (Some "Smith Family")
               (Some "admin@x.com") (Some "pw123") sample_now Store.empty))
     = mkLogin 200 (AdminSession (sample_sign claims)
                      (created_admin_id sample_now) (str (Some "admin@x.com"))
                      (created_family_id (Some "Smith Family") sample_now)).
Proof.
  intros compare.
  refine (admin_login_after_creation compare sample_hash sample_sign
            (Some "Smith Family") (Some "admin@x.com") (Some "pw123")
            sample_now Store.empty _ _ _).
  - vm_compute. reflexivity.
  - reflexivity.
  - vm_compute. reflexivity.
Defined.

(** X17: emails are unique within a family, not across families, and
    the admin login looks at the first admin row with the email only:
    when a family is created (201) with an admin email that an earlier
    admin has, with another password, the login with the email and the
    password of the creation is answered 401. *)
Theorem shared_admin_email_locks_out (compare : string -> string -> bool)
  (hash : string -> string) (sign : token_payload -> string)
  (name adminEmail adminPassword : option string) (now : nat -> N)
  (db : database) (first : Admin.row) :
  status (fst (post_family hash sign name adminEmail adminPassword now db)) = 201 ->
  admin_by_email db (str adminEmail) = Some first ->
  compare (str adminPassword) (Admin.password_hash first) = false ->
  admin_login compare sign adminEmail adminPassword
    (snd (post_family hash sign name adminEmail adminPassword now db))
  = mkLogin 401 (LoginError "Invalid email or password").
Proof.
  intros H201 Hfirst Hcmp.
  destruct (post_family_created hash sign name adminEmail adminPassword now db
              H201) as (Hn & He & Hp & Htx & _).
  rewrite (create_family_statements_inr _ _ _ _ _ _ _ Htx).
  unfold admin_login. rewrite He, Hp. cbn [negb orb].
  unfold admin_by_email, with_family. cbn [admins].
  unfold admin_by_email in Hfirst. rewrite (find_app_some _ _ _ _ Hfirst).
  rewrite Hcmp. reflexivity.
Qed.

Lemma shared_admin_email_locks_out_witness :
  admin_login (fun password h => h =? sample_hash password) sample_sign
    (Some "admin@x.com") (Some "pw456")
    (snd (post_family sample_hash sample_sign (Some "Jones Family")
            (Some "admin@x.com") (Some "pw456") later with_week))
  = mkLogin 401 (LoginError "Invalid email or password").
Proof.
  refine (shared_admin_email_locks_out
            (fun password h => h =? sample_hash password) sample_hash
            sample_sign (Some "Jones Family") (Some "admin@x.com")
            (Some "pw456") later with_week
            (Admin.mk (created_admin_id sample_now) smith_id "admin@x.com"
               "bcrypt:pw123") _ _ _).
  - vm_compute. reflexivity.
  - vm_compute. reflexivity.
  - vm_compute. reflexivity.
Defined.

(** X18: a session opened by the member login (an email, no password)
    cannot change the store: the login answers with a token for claims
    of type user, and whatever request the client sends with that token,
    on whatever store, the store stays as it was (given that the
    verification decodes the token to the claims it was made for, and
    that the token is not empty and has no space). *)
Theorem member_session_is_read_only (verify : string -> verified)
  (sign : token_payload -> string) (hash : string -> string) (now : nat -> N)
  (email : string) (db db2 : database) (p : Person.row) (c : ApiClient)
  (req : request) :
  email <> "" -> person_by_email db email = Some p ->
  let claims := mkUser None (Some (Person.id p)) (Person.family_id p) "user" in
  verify (sign claims) = Decoded claims ->
  has_space (sign claims) = false -> sign claims <> "" ->
  session_token (user_login sign (Some email) db) = Some (sign claims)
  /\ snd (serve verify hash now
            (fst (authorization (setToken (Some (sign claims)) c))) req db2)
     = db2.
Proof.
  intros He Hp claims Hverify Hs Ht. split.
  - unfold user_login. rewrite (truthy_Some email He). cbn [negb str].
    rewrite Hp. reflexivity.
  - destruct (authorization_after_setToken (sign claims) c Ht) as [-> _].
    unfold serve, authenticateToken.
    rewrite (bearer_of_header (sign claims) Hs Ht), Hverify.
    apply AccessFacts.not_admin_unchanged. discriminate.
Qed.

Lemma member_session_is_read_only_witness :
  let claims := mkUser None (Some jo_id) smith_id "user" in
  session_token (user_login sample_sign (Some "jo@x.com") two_families)
  = Some (sample_sign claims)
  /\ snd (serve (decode_as claims) sample_hash later
            (fst (authorization (setToken (Some (sample_sign claims))
                                   (fresh None))))
            (DeletePerson jo_id) two_families)
     = two_families.
Proof.
  refine (member_session_is_read_only
            (decode_as (mkUser None (Some jo_id) smith_id "user")) sample_sign
            sample_hash later "jo@x.com" two_families two_families
            (Person.mk jo_id smith_id "Jo" "jo@x.com" None "#f97373")
            (fresh None) (DeletePerson jo_id) _ _ eq_refl _ _).
  - discriminate.
  - vm_compute. reflexivity.
  - vm_compute. reflexivity.
  - vm_compute. discriminate.
Defined.

(** X19: from the creation of a family to its first page: on a reachable
    store, when the creation is answered 201 and the client keeps the
    token of the response, its request for the family document is
    answered 200 with the new family, its one admin, no people, the four
    default chores and no assignments (given that the verification
    decodes the token to the claims it was made for, and that the token
    is not empty and has no space). *)
Theorem created_family_first_page (verify : string -> verified)
  (hash : string -> string) (sign : token_payload -> string)
  (name adminEmail adminPassword : option string) (now now' : nat -> N)
  (db : database) (c : ApiClient) :
  reachable db ->
  status (fst (post_family hash sign name adminEmail adminPassword now db)) = 201 ->
  let fid := created_family_id name now in
  let claims := mkUser (Some (created_admin_id now)) None fid "admin" in
  verify (sign claims) = Decoded claims ->
  has_space (sign claims) = false -> sign claims <> "" ->
  body (fst (post_family hash sign name adminEmail adminPassword now db))
  = FamilyCreated (sign claims) fid (str name)
  /\ fst (serve verify hash now'
            (fst (authorization (setToken (Some (sign claims)) c)))
            (GetFamily fid)
            (snd (post_family hash sign name adminEmail adminPassword now db)))
     = ok (FamilyData (Family.mk fid (str name))
             [(created_admin_id now, str adminEmail)] []
             (created_chores fid now) []).
Proof.
  intros Hr H201 fid claims Hverify Hs Ht.
  destruct (post_family_created hash sign name adminEmail adminPassword now db
              H201) as (_ & _ & _ & Htx & Hbody).
  split; [exact Hbody|].
  destruct (reachable_sound db Hr) as (Hschema & _).
  destruct (create_family_statements_done hash name adminEmail adminPassword
              now db _ Hschema Htx) as (Hfresh & _ & ->).
  fold fid in Hfresh.
  destruct (authorization_after_setToken (sign claims) c Ht) as [-> _].
  unfold serve, authenticateToken.
  rewrite (bearer_of_header (sign claims) Hs Ht), Hverify.
  cbn [handle]. unfold get_family. cbn [familyId claims].
  rewrite String.eqb_refl. cbn [negb].
  unfold with_family. cbn [families admins people chores assignments].
  fold fid.
  rewrite (find_app_none _ _ _ (proj2 (find_none_existsb _ _) Hfresh)).
  cbn [find Family.id]. rewrite String.eqb_refl. cbn [fst].
  assert (Hout : forall f, family_exists db f = true -> (f =? fid) = false).
  { intros f Hf. apply String.eqb_neq. intros ->.
    unfold family_exists in Hf. congruence. }
  rewrite !filter_app.
  rewrite (WeekFacts.filter_all_false _ (admins db))
    by (intros a Ha; apply Hout, (admin_family db Hschema a Ha)).
  rewrite (WeekFacts.filter_all_false _ (people db))
    by (intros a Ha; apply Hout, (person_family db Hschema a Ha)).
  rewrite (WeekFacts.filter_all_false _ (chores db))
    by (intros a Ha; apply Hout, (chore_family db Hschema a Ha)).
  rewrite (WeekFacts.filter_all_false _ (assignments db))
    by (intros a Ha; apply Hout, (assignment_family db Hschema a Ha)).
  unfold created_chores.
  cbn [filter app map Admin.family_id Chore.family_id Admin.id Admin.email].
  rewrite !String.eqb_refl. reflexivity.
Qed.

Lemma created_family_first_page_witness :
  let fid := created_family_id (Some "Jones Family") later in
  let claims := mkUser (Some (created_admin_id later)) None fid "admin" in
  body (fst (post_family sample_hash sample_sign (Some "Jones Family")
               (Some "admin@x.com") (Some "pw456") later with_week))
  = FamilyCreated (sample_sign claims) fid (str (Some "Jones Family"))
  /\ fst (serve (decode_as claims) sample_hash later
            (fst (authorization (setToken (Some (sample_sign claims))
                                   (fresh None))))
            (GetFamily fid)
            (snd (post_family sample_hash sample_sign (Some "Jones Family")
                    (Some "admin@x.com") (Some "pw456") later with_week)))
     = ok (FamilyData (Family.mk fid (str (Some "Jones Family")))
             [(created_admin_id later, str (Some "admin@x.com"))] []
             (created_chores fid later) []).
Proof.
  refine (created_family_first_page
            (decode_as (mkUser (Some (created_admin_id later)) None
                          (created_family_id (Some "Jones Family") later)
                          "admin"))
            sample_hash sample_sign (Some "Jones Family") (Some "admin@x.com")
            (Some "pw456") later later with_week (fresh None) _ _ eq_refl _ _).
  - apply household_reachable.
  - vm_compute. reflexivity.
  - vm_compute. reflexivity.
  - vm_compute. discriminate.
Defined.
(** ** The calendar views *)
Module ViewFacts.
Import JSDate Calendar Spec JSDateFacts CalendarFacts JSString App.
Open Scope Z_scope.

Lemma nth_week (f : nat -> Date) (i : nat) :
  (i < 7)%nat -> nth i (map f (seq 0 7)) None = f i.
Proof.
  intros Hi. do 7 (destruct i as [|i]; [reflexivity|]). lia.
Qed.

Lemma weekEnd_last (tz : TimeZone) (s : Date) :
  weekEnd tz s = nth 6 (weekDates tz s) None.
Proof. reflexivity. Qed.

(** A month outside 0..11 carries into the year. *)
Lemma MakeDay_carry (y m d : Z) :
  MakeDay y m d = MakeDay (y + m / 12) (m mod 12) d.
Proof.
  unfold MakeDay.
  pose proof (Z.mod_pos_bound m 12 ltac:(lia)).
  rewrite (Z.div_small (m mod 12) 12), Z.mod_mod by lia.
  replace (y + m / 12 + 0) with (y + m / 12) by lia. reflexivity.
Qed.

(** The day [MakeDay y m 1] is the first of a month: of month [m] of
    year [y], carried over. *)
Lemma MakeDay_first (y m : Z) :
  civil_from_days (MakeDay y m 1) = (y + m / 12, m mod 12 + 1, 1).
Proof.
  rewrite MakeDay_carry.
  pose proof (Z.mod_pos_bound m 12 ltac:(lia)) as Hm.
  destruct (month_facts (y + m / 12) (m mod 12) ltac:(lia)) as [H _].
  exact H.
Qed.

(** The firsts of neighbouring months are 28 to 31 days apart. *)
Lemma next_first_near (y m : Z) :
  28 <= MakeDay y (m + 1) 1 - MakeDay y m 1 <= 31.
Proof.
  rewrite (MakeDay_carry y m 1), (MakeDay_carry y (m + 1) 1).
  pose proof (Z.mod_pos_bound m 12 ltac:(lia)) as Hm.
  pose proof (Z.div_mod m 12 ltac:(lia)) as Hd.
  destruct (month_facts (y + m / 12) (m mod 12) ltac:(lia)) as (_ & _ & H).
  pose proof (MakeDay_date (y + m / 12) (m mod 12 + 1) 0 1) as H1.
  change (0 + 1) with 1 in H1.
  destruct (Z.eq_dec (m mod 12) 11) as [E|E].
  - assert (E1 : (m + 1) / 12 = m / 12 + 1)
      by (symmetry; apply Z.div_unique with 0; lia).
    assert (E2 : (m + 1) mod 12 = 0)
      by (symmetry; apply Z.mod_unique with (m / 12 + 1); lia).
    rewrite E1, E2. rewrite E in H, H1. change (11 + 1) with 12 in H, H1.
    rewrite !MakeDay_next_year in H1. rewrite MakeDay_next_year in H.
    replace (y + (m / 12 + 1)) with (y + m / 12 + 1) by lia.
    rewrite E. lia.
  - assert (E1 : (m + 1) / 12 = m / 12)
      by (symmetry; apply Z.div_unique with (m mod 12 + 1); lia).
    assert (E2 : (m + 1) mod 12 = m mod 12 + 1)
      by (symmetry; apply Z.mod_unique with (m / 12); lia).
    rewrite E1, E2. lia.
Qed.

(** The firsts of the months of 1900..1999 and of their neighbours. *)
Lemma short_year_first (y m : Z) :
  1900 <= y <= 1999 -> -1 <= m <= 12 -> -26000 <= MakeDay y m 1 <= 11400.
Proof.
  intros Hy Hm.
  assert (Hlo : MakeDay 1899 11 1 = -25598) by (vm_compute; reflexivity).
  assert (Hhi : MakeDay 2000 0 1 = 10957) by (vm_compute; reflexivity).
  assert (Hmono : forall k : nat, forall y0 m0,
            MakeDay y0 m0 1 <= MakeDay y0 (m0 + Z.of_nat k) 1
                              <= MakeDay y0 m0 1 + 31 * Z.of_nat k).
  { induction k as [|k IH]; intros y0 m0.
    - replace (m0 + Z.of_nat 0) with m0 by lia. lia.
    - pose proof (IH y0 m0). pose proof (next_first_near y0 (m0 + Z.of_nat k)).
      replace (m0 + Z.of_nat (S k)) with (m0 + Z.of_nat k + 1) by lia. lia. }
  set (j := 12 * (y - 1899) + m - 11).
  assert (Hj : 0 <= j <= 1201) by (subst j; lia).
  assert (Hup : MakeDay y m 1 = MakeDay 1899 (11 + j) 1).
  { rewrite (MakeDay_carry y m 1), (MakeDay_carry 1899 (11 + j) 1).
    pose proof (Z.div_mod m 12 ltac:(lia)).
    pose proof (Z.mod_pos_bound m 12 ltac:(lia)).
    pose proof (Z.div_mod (11 + j) 12 ltac:(lia)).
    pose proof (Z.mod_pos_bound (11 + j) 12 ltac:(lia)).
    f_equal; subst j; lia. }
  assert (Hdown : MakeDay 2000 0 1 = MakeDay y (m + (1212 - 11 - j)) 1).
  { rewrite (MakeDay_carry y (m + (1212 - 11 - j)) 1), (MakeDay_carry 2000 0 1).
    pose proof (Z.div_mod (m + (1212 - 11 - j)) 12 ltac:(lia)).
    pose proof (Z.mod_pos_bound (m + (1212 - 11 - j)) 12 ltac:(lia)).
    change (0 / 12) with 0. change (0 mod 12) with 0.
    f_equal; subst j; lia. }
  pose proof (Hmono (Z.to_nat j) 1899 11) as H1.
  pose proof (Hmono (Z.to_nat (1212 - 11 - j)) y m) as H2.
  rewrite Z2Nat.id in H1, H2 by lia.
  rewrite <- Hup in H1. rewrite <- Hdown in H2. lia.
Qed.

Section Zone.
Variable tz : TimeZone.
Hypothesis Hreg : regular tz.

(** A date moved by [k] days. *)
Lemma moved_near (u k : Z) :
  u - (Z.abs k + 2) * msPerDay < UTC tz (LocalTime tz u + k * msPerDay)
                               < u + (Z.abs k + 2) * msPerDay.
Proof.
  pose proof (LocalTime_near tz Hreg u).
  pose proof (UTC_near tz Hreg (LocalTime tz u + k * msPerDay)).
  unfold msPerDay in *. lia.
Qed.

(** The week on display: the seven dates from its start, a day apart. *)
Lemma weekDates_eq (u : Z) :
  within 10 u ->
  weekDates tz (Some u)
  = map (fun i => Some (UTC tz (LocalTime tz u + Z.of_nat i * msPerDay))) (seq 0 7).
Proof.
  intros Hu. unfold weekDates. apply map_ext_in. intros i Hi.
  apply in_seq in Hi. rewrite setDate_plus.
  pose proof (moved_near u (Z.of_nat i)).
  apply TimeClip_within. unfold within, maxTime, msPerDay in *. lia.
Qed.

(** What the week buttons do: the start of the day [k] days on. *)
Lemma week_moved (u k : Z) :
  -7 <= k <= 7 -> within 12 u ->
  setHours tz (TimeClip (UTC tz (LocalTime tz u + k * msPerDay))) 0 0 0 0
  = Some (midnight tz (local_day tz u + k)).
Proof.
  intros Hk Hu. pose proof (moved_near u k) as Hn.
  rewrite TimeClip_within by (unfold within, maxTime, msPerDay in *; lia).
  rewrite setHours_midnight, (local_day_moved tz Hreg).
  pose proof (midnight_near tz Hreg (local_day tz u + k)).
  pose proof (local_day_near tz Hreg u).
  apply TimeClip_within. unfold within, maxTime, msPerDay in *. lia.
Qed.

Lemma week_forward (S : Z) :
  within 12 (midnight tz S) ->
  let d := Some (midnight tz S) in
  setHours tz (setDate tz d (add (getDate tz d) (Some 7))) 0 0 0 0
  = Some (midnight tz (S + 7)).
Proof.
  intros Hr d. subst d. rewrite setDate_plus, week_moved by (lia || exact Hr).
  rewrite (local_day_midnight tz Hreg). reflexivity.
Qed.

Lemma week_back (S : Z) :
  within 12 (midnight tz S) ->
  let d := Some (midnight tz S) in
  setHours tz (setDate tz d (sub (getDate tz d) (Some 7))) 0 0 0 0
  = Some (midnight tz (S - 7)).
Proof.
  intros Hr d. subst d. rewrite setDate_minus.
  replace (LocalTime tz (midnight tz S) - 7 * msPerDay)
    with (LocalTime tz (midnight tz S) + -7 * msPerDay) by lia.
  rewrite week_moved by (lia || exact Hr).
  rewrite (local_day_midnight tz Hreg). reflexivity.
Qed.

(** Column [i] of the week that starts with the Sunday [S]. *)
Lemma column_day (S : Z) (i : nat) :
  local_day tz (UTC tz (LocalTime tz (midnight tz S) + Z.of_nat i * msPerDay))
  = S + Z.of_nat i.
Proof.
  rewrite (local_day_moved tz Hreg), (local_day_midnight tz Hreg). reflexivity.
Qed.

Lemma column_week_day (S : Z) (i : nat) :
  sunday S -> (i < 7)%nat ->
  getDay tz (Some (UTC tz (LocalTime tz (midnight tz S) + Z.of_nat i * msPerDay)))
  = Some (Z.of_nat i).
Proof.
  intros HS Hi. pose proof (column_day S i) as Hd. unfold local_day in Hd.
  cbn [getDay option_map]. unfold WeekDay. rewrite Hd. f_equal.
  apply WeekDay_of_sunday; [exact HS|lia].
Qed.

(** The fields of the start of a day. *)
Lemma fields_of_midnight (D : Z) :
  getFullYear tz (Some (midnight tz D)) = Some (fst (fst (civil_from_days D)))
  /\ getMonth tz (Some (midnight tz D)) = Some (snd (fst (civil_from_days D)) - 1)
  /\ getDate tz (Some (midnight tz D)) = Some (snd (civil_from_days D))
  /\ getDay tz (Some (midnight tz D)) = Some ((D + 4) mod 7).
Proof.
  cbn [getFullYear getMonth getDate getDay option_map].
  unfold YearFromTime, MonthFromTime, DateFromTime, WeekDay.
  fold (local_day tz (midnight tz D)).
  rewrite (local_day_midnight tz Hreg). repeat split.
Qed.

(** [new Date(y, m, 1)] on the year of a date and its month or a
    neighbour of it is the start of the first of a month. *)
Lemma new_Date_first (u m' : Z) :
  within 100 u ->
  -1 <= m' - MonthFromTime (LocalTime tz u) <= 1 ->
  exists F : Z,
    new_Date tz (Some (YearFromTime (LocalTime tz u))) (Some m') 1
    = Some (midnight tz F)
    /\ snd (civil_from_days F) = 1
    /\ getDate tz (Some (midnight tz F)) = Some 1.
Proof.
  intros Hu Hm'.
  set (y := YearFromTime (LocalTime tz u)).
  set (m := MonthFromTime (LocalTime tz u)) in *.
  pose proof (MonthFromTime_range (LocalTime tz u)) as Hm. fold m in Hm.
  destruct (first_of_month_near (LocalTime tz u)) as [_ Hnear]. fold y m in Hnear.
  pose proof (local_day_near tz Hreg u) as Hld. unfold local_day in Hld.
  assert (Hgo : forall yr, (yr = y \/ 1900 <= yr <= 1999) ->
            (yr = y -> Z.abs (MakeDay yr m' 1 * msPerDay) <= maxTime - 30 * msPerDay) ->
            exists F : Z,
              TimeClip (midnight tz (MakeDay yr m' 1)) = Some (midnight tz F)
              /\ snd (civil_from_days F) = 1
              /\ getDate tz (Some (midnight tz F)) = Some 1).
  { intros yr Hyr Hrange. exists (MakeDay yr m' 1).
    assert (H1 : snd (civil_from_days (MakeDay yr m' 1)) = 1)
      by (rewrite MakeDay_first; reflexivity).
    split; [|split; [exact H1|]].
    - pose proof (midnight_near tz Hreg (MakeDay yr m' 1)).
      apply TimeClip_within. destruct Hyr as [Hyr|Hyr].
      + specialize (Hrange Hyr). unfold maxTime, msPerDay in *. lia.
      + pose proof (short_year_first yr m' Hyr ltac:(lia)).
        unfold maxTime, msPerDay in *. lia.
    - destruct (fields_of_midnight (MakeDay yr m' 1)) as (_ & _ & -> & _).
      rewrite H1. reflexivity. }
  destruct (Z_lt_le_dec y 0) as [Hneg|Hpos];
    [|destruct (Z_lt_le_dec 99 y) as [Hbig|Hsmall]].
  - rewrite (new_Date_full_year tz) by lia. apply Hgo; [left; reflexivity|].
    intros _. pose proof (next_first_near y m). pose proof (next_first_near y (m - 1)).
    replace (m - 1 + 1) with m in * by lia.
    assert (Hc : m' = m - 1 \/ m' = m \/ m' = m + 1) by lia.
    unfold within, maxTime, msPerDay in *.
    destruct Hc as [->|[->| ->]]; lia.
  - rewrite (new_Date_full_year tz) by lia. apply Hgo; [left; reflexivity|].
    intros _. pose proof (next_first_near y m). pose proof (next_first_near y (m - 1)).
    replace (m - 1 + 1) with m in * by lia.
    assert (Hc : m' = m - 1 \/ m' = m \/ m' = m + 1) by lia.
    unfold within, maxTime, msPerDay in *.
    destruct Hc as [->|[->| ->]]; lia.
  - rewrite (new_Date_short_year tz) by lia. apply Hgo; [right; lia|].
    intros E. exfalso. lia.
Qed.

(** The year and the month of [new Date(y, m, 1)], for a year the
    constructor takes as it is: the months counted from year 0 are
    [12 y + m]. *)
Lemma new_Date_month (y m : Z) :
  y < 0 \/ 99 < y ->
  Z.abs (MakeDay y m 1 * msPerDay) <= maxTime - 2 * msPerDay ->
  new_Date tz (Some y) (Some m) 1 = Some (midnight tz (MakeDay y m 1))
  /\ getFullYear tz (Some (midnight tz (MakeDay y m 1))) = Some (y + m / 12)
  /\ getMonth tz (Some (midnight tz (MakeDay y m 1))) = Some (m mod 12)
  /\ getDate tz (Some (midnight tz (MakeDay y m 1))) = Some 1.
Proof.
  intros Hy Hr. rewrite (new_Date_full_year tz y m 1 Hy).
  pose proof (midnight_near tz Hreg (MakeDay y m 1)).
  split; [apply TimeClip_within; unfold maxTime, msPerDay in *; lia|].
  destruct (fields_of_midnight (MakeDay y m 1)) as (-> & -> & -> & _).
  rewrite MakeDay_first. cbn [fst snd]. repeat split. f_equal. lia.
Qed.

End Zone.

End ViewFacts.

Section CalendarViews.
Import App ViewFacts Samples.

(** X20: the week on display, in a regular time zone: for the week
    start of any date a year or more inside the range of time values,
    the seven dates of [weekDates] fall on seven consecutive local
    days, from the Sunday of the week start to the Saturday, in the
    order of the column headers; the local day of the date stands in
    the column of its week day; [weekEnd] is the last of the seven; and
    in a zone that skips no local time every one of them is the local
    midnight of its day. *)
Theorem weekDates_of_week_start (tz : TimeZone) (t : Z) :
  regular tz -> comfortable t ->
  let s := getWeekStart tz (Some t) in
  exists S : Z,
    s = Some (midnight tz S) /\ sunday S
    /\ map (option_map (local_day tz)) (weekDates tz s)
       = map (fun i => Some (S + Z.of_nat i)) (seq 0 7)
    /\ map (getDay tz) (weekDates tz s)
       = map Some [0; 1; 2; 3; 4; 5; 6]
    /\ option_map (local_day tz)
         (nth (Z.to_nat (WeekDay (LocalTime tz t))) (weekDates tz s) None)
       = Some (local_day tz t)
    /\ weekEnd tz s = nth 6 (weekDates tz s) None
    /\ ((forall x, LocalTime tz (UTC tz x) = x) ->
        weekDates tz s
        = map (fun i => Some (midnight tz (S + Z.of_nat i))) (seq 0 7)).
Proof.
  intros Hreg Ht s. exists (sunday_of (local_day tz t)).
  destruct (sunday_of_spec (local_day tz t)) as [HS Hspan].
  pose proof (sunday_start_near tz Hreg t) as Hnear.
  assert (Hs : s = Some (midnight tz (sunday_of (local_day tz t)))).
  { apply getWeekStart_eq; [exact Hreg|].
    unfold comfortable, within, maxTime, msPerDay in *. lia. }
  clearbody s. subst s. remember (sunday_of (local_day tz t)) as S eqn:ES.
  assert (Hr : within 10 (midnight tz S))
    by (unfold comfortable, within, maxTime, msPerDay in *; lia).
  split; [reflexivity|]. split; [exact HS|].
  rewrite (weekDates_eq tz Hreg _ Hr).
  split; [|split; [|split; [|split]]].
  - rewrite map_map. apply map_ext. intros i.
    cbn [option_map]. rewrite (column_day tz Hreg). reflexivity.
  - rewrite map_map.
    change [0; 1; 2; 3; 4; 5; 6] with (map Z.of_nat (seq 0 7)).
    rewrite map_map. apply map_ext_in. intros i Hi. apply in_seq in Hi.
    apply (column_week_day tz Hreg); [exact HS|lia].
  - pose proof (WeekDay_range (LocalTime tz t)) as Hw.
    rewrite nth_week by lia. cbn [option_map].
    rewrite (column_day tz Hreg), Z2Nat.id by lia.
    f_equal. rewrite ES. unfold sunday_of, WeekDay, local_day. lia.
  - rewrite <- (weekDates_eq tz Hreg _ Hr). apply weekEnd_last.
  - intros Hx. apply map_ext. intros i.
    unfold midnight at 1. rewrite Hx. unfold midnight. do 2 f_equal. lia.
Qed.

(** The week of Tuesday 8 September 2026 in Santiago. *)
Lemma weekDates_of_week_start_witness :
  let tz := santiago in
  let s := getWeekStart tz (Some after_the_change) in
  exists S : Z,
    s = Some (midnight tz S) /\ sunday S
    /\ map (option_map (local_day tz)) (weekDates tz s)
       = map (fun i => Some (S + Z.of_nat i)) (seq 0 7)
    /\ map (getDay tz) (weekDates tz s)
       = map Some [0; 1; 2; 3; 4; 5; 6]
    /\ option_map (local_day tz)
         (nth (Z.to_nat (WeekDay (LocalTime tz after_the_change)))
              (weekDates tz s) None)
       = Some (local_day tz after_the_change)
    /\ weekEnd tz s = nth 6 (weekDates tz s) None
    /\ ((forall x, LocalTime tz (UTC tz x) = x) ->
        weekDates tz s
        = map (fun i => Some (midnight tz (S + Z.of_nat i))) (seq 0 7)).
Proof.
  refine (weekDates_of_week_start santiago after_the_change santiago_regular _).
  vm_compute. discriminate.
Defined.

(** X21: in a regular time zone, from a week on display that starts
    with a Sunday and a month on display, both a year or more inside the
    range of time values, every button of the navigation leads to a week
    on display that starts with a Sunday (at the time the zone starts
    that day) and to a month on display that is a first of a month;
    the initial state is of that kind as well. *)
Theorem navigation_keeps_week_start (tz : TimeZone) (st : calendar)
  (S c today now : Z) :
  regular tz ->
  sunday S -> currentWeekStart st = Some (midnight tz S) ->
  comfortable (midnight tz S) ->
  currentMonth st = Some c -> comfortable c ->
  comfortable today -> comfortable now ->
  let shows (st' : calendar) :=
    (exists S' : Z, sunday S' /\ currentWeekStart st' = Some (midnight tz S'))
    /\ getDate tz (currentMonth st') = Some 1 in
  (forall b : button,
     In b [PreviousWeek; NextWeek; ThisWeek today;
           PreviousMonth; NextMonth; ThisMonth now] ->
     shows (press tz b st))
  /\ shows (initial tz today now).
Proof.
  intros Hreg HS Hweek HrS Hmonth Hrc Hrt Hrn shows.
  assert (Hstart : forall t, comfortable t ->
            exists S', sunday S' /\ getWeekStart tz (Some t) = Some (midnight tz S')
                       /\ within 100 (midnight tz S')).
  { intros t Hr. exists (sunday_of (local_day tz t)).
    destruct (sunday_of_spec (local_day tz t)) as [H _].
    pose proof (sunday_start_near tz Hreg t).
    split; [exact H|]. split.
    - apply getWeekStart_eq; [exact Hreg|].
      unfold comfortable, within, maxTime, msPerDay in *. lia.
    - unfold comfortable, within, maxTime, msPerDay in *. lia. }
  assert (Hfirst : forall u m', within 100 u ->
            -1 <= m' - MonthFromTime (LocalTime tz u) <= 1 ->
            getDate tz (new_Date tz (Some (YearFromTime (LocalTime tz u))) (Some m') 1)
            = Some 1).
  { intros u m' Hu Hm'.
    destruct (new_Date_first tz Hreg u m' Hu Hm') as (F & -> & _ & H). exact H. }
  assert (Hsame : forall u, within 100 u ->
            getDate tz (new_Date tz (getFullYear tz (Some u)) (getMonth tz (Some u)) 1)
            = Some 1).
  { intros u Hu. apply (Hfirst u); [exact Hu|lia]. }
  assert (HrS' : within 12 (midnight tz S))
    by (unfold comfortable, within, maxTime, msPerDay in *; lia).
  assert (Hsun : forall k, sunday (S + 7 * k)).
  { intros k. unfold sunday in *.
    replace (S + 7 * k + 4) with (S + 4 + k * 7) by lia.
    rewrite Z.mod_add by lia. exact HS. }
  assert (Hrk : forall k, -1 <= k <= 1 -> within 100 (midnight tz (S + 7 * k))).
  { intros k Hk. pose proof (midnight_near tz Hreg S).
    pose proof (midnight_near tz Hreg (S + 7 * k)).
    unfold comfortable, within, maxTime, msPerDay in *. lia. }
  assert (Hc100 : within 100 c)
    by (unfold comfortable, within, maxTime, msPerDay in *; lia).
  assert (Hn100 : within 100 now)
    by (unfold comfortable, within, maxTime, msPerDay in *; lia).
  split.
  - intros b Hb. cbn [In] in Hb.
    destruct Hb as [<-|[<-|[<-|[<-|[<-|[<-|[]]]]]]]; unfold shows, press.
    + unfold goToPreviousWeek. cbn [currentWeekStart currentMonth].
      rewrite Hweek, (week_back tz Hreg S HrS').
      split; [exists (S + 7 * -1); split; [apply Hsun|f_equal; f_equal; lia]|].
      apply Hsame. replace (S - 7) with (S + 7 * -1) by lia. apply Hrk. lia.
    + unfold goToNextWeek. cbn [currentWeekStart currentMonth].
      rewrite Hweek, (week_forward tz Hreg S HrS').
      split; [exists (S + 7 * 1); split; [apply Hsun|f_equal; f_equal; lia]|].
      apply Hsame. replace (S + 7) with (S + 7 * 1) by lia. apply Hrk. lia.
    + unfold goToThisWeek. cbn [currentWeekStart currentMonth].
      destruct (Hstart today Hrt) as (S' & HS' & -> & Hr').
      split; [exists S'; split; [exact HS'|reflexivity]|].
      apply Hsame. exact Hr'.
    + unfold goToPreviousMonth. cbn [currentWeekStart currentMonth].
      rewrite Hmonth. split; [exists S; split; [exact HS|exact Hweek]|].
      cbn [getFullYear getMonth option_map sub]. apply Hfirst; [exact Hc100|lia].
    + unfold goToNextMonth. cbn [currentWeekStart currentMonth].
      rewrite Hmonth. split; [exists S; split; [exact HS|exact Hweek]|].
      cbn [getFullYear getMonth option_map add]. apply Hfirst; [exact Hc100|lia].
    + unfold goToThisMonth. cbn [currentWeekStart currentMonth].
      destruct (Hstart now Hrn) as (S' & HS' & -> & Hr').
      split; [exists S'; split; [exact HS'|reflexivity]|].
      apply Hsame. exact Hn100.
  - unfold shows, initial. cbn [currentWeekStart currentMonth].
    destruct (Hstart today Hrt) as (S' & HS' & -> & Hr').
    split; [exists S'; split; [exact HS'|reflexivity]|].
    apply Hsame. exact Hn100.
Qed.

(** From the week of Sunday 30 August 2026 in Santiago, the week before
    the clocks go forward. *)
Lemma navigation_keeps_week_start_witness :
  let tz := santiago in
  let shows (st' : calendar) :=
    (exists S' : Z, sunday S' /\ currentWeekStart st' = Some (midnight tz S'))
    /\ getDate tz (currentMonth st') = Some 1 in
  (forall b : button,
     In b [PreviousWeek; NextWeek; ThisWeek after_the_change;
           PreviousMonth; NextMonth; ThisMonth monday_morning] ->
     shows (press tz b in_september))
  /\ shows (initial tz after_the_change monday_morning).
Proof.
  refine (navigation_keeps_week_start santiago in_september 20695 1788235200000
            after_the_change monday_morning santiago_regular _ _ _ _ _ _ _);
    vm_compute; (reflexivity || discriminate).
Defined.



(** X23: in a regular time zone the month buttons move the month on
    display by one month: the months counted from year 0 go up or down
    by one, over the turn of the year as well, to the first of the
    month; one button undoes the other, leading to the start of the
    first of the month on display, which is the month on display itself
    when that is the midnight of a first of a month (for a month on
    display a year or more inside the range of time values, in a year
    that the [Date] constructor takes as it is, as are its
    neighbours). *)
Theorem month_buttons_move_one_month (tz : TimeZone) (st : calendar) (t : Z) :
  regular tz -> currentMonth st = Some t -> comfortable t ->
  let y := YearFromTime (LocalTime tz t) in
  let m := MonthFromTime (LocalTime tz t) in
  let months (d : Date) :=
    add (option_map (Z.mul 12) (getFullYear tz d)) (getMonth tz d) in
  y < -1 \/ 100 < y ->
  months (currentMonth st) = Some (12 * y + m)
  /\ months (currentMonth (goToNextMonth tz st))
     = add (months (currentMonth st)) (Some 1)
  /\ months (currentMonth (goToPreviousMonth tz st))
     = sub (months (currentMonth st)) (Some 1)
  /\ getDate tz (currentMonth (goToNextMonth tz st)) = Some 1
  /\ getDate tz (currentMonth (goToPreviousMonth tz st)) = Some 1
  /\ currentMonth (goToPreviousMonth tz (goToNextMonth tz st))
     = Some (midnight tz (MakeDay y m 1))
  /\ currentMonth (goToNextMonth tz (goToPreviousMonth tz st))
     = Some (midnight tz (MakeDay y m 1))
  /\ (getDate tz (currentMonth st) = Some 1 ->
      TimeWithinDay (LocalTime tz t) = 0 ->
      UTC tz (LocalTime tz t) = t ->
      currentMonth (goToPreviousMonth tz (goToNextMonth tz st)) = currentMonth st
      /\ currentMonth (goToNextMonth tz (goToPreviousMonth tz st)) = currentMonth st).
Proof.
  intros Hreg Hmonth Hr y m months Hy.
  assert (Ey : YearFromTime (LocalTime tz t) = y) by reflexivity.
  assert (Em : MonthFromTime (LocalTime tz t) = m) by reflexivity.
  clearbody y m.
  pose proof (MonthFromTime_range (LocalTime tz t)) as Hm. rewrite Em in Hm.
  destruct (first_of_month_near (LocalTime tz t)) as [Hfirst Hnear].
  rewrite Ey, Em in Hfirst, Hnear.
  pose proof (local_day_near tz Hreg t) as Hld. unfold local_day in Hld.
  pose proof (next_first_near y m) as Hn1.
  pose proof (next_first_near y (m - 1)) as Hn2.
  replace (m - 1 + 1) with m in Hn2 by lia.
  assert (Hmove : forall k, -1 <= k <= 1 ->
             new_Date tz (Some y) (Some (m + k)) 1
             = Some (midnight tz (MakeDay y (m + k) 1))
             /\ getFullYear tz (Some (midnight tz (MakeDay y (m + k) 1)))
                = Some (y + (m + k) / 12)
             /\ getMonth tz (Some (midnight tz (MakeDay y (m + k) 1)))
                = Some ((m + k) mod 12)
             /\ getDate tz (Some (midnight tz (MakeDay y (m + k) 1))) = Some 1
             /\ 12 * (y + (m + k) / 12) + (m + k) mod 12 = 12 * y + m + k
             /\ (y + (m + k) / 12 < 0 \/ 99 < y + (m + k) / 12)).
  { intros k Hk.
    destruct (new_Date_month tz Hreg y (m + k) ltac:(lia)) as (H0 & H1 & H2 & H3).
    { assert (Hc : k = -1 \/ k = 0 \/ k = 1) by lia.
      unfold comfortable, within, maxTime, msPerDay in *.
      destruct Hc as [->|[->| ->]];
        [replace (m + -1) with (m - 1) by lia
        |replace (m + 0) with m by lia|]; lia. }
    pose proof (Z.div_mod (m + k) 12 ltac:(lia)).
    pose proof (Z.mod_pos_bound (m + k) 12 ltac:(lia)).
    repeat split; try assumption; lia. }
  assert (Hback : forall k, -1 <= k <= 1 ->
             new_Date tz (Some (y + (m + k) / 12)) (Some ((m + k) mod 12 - k)) 1
             = Some (midnight tz (MakeDay y m 1))).
  { intros k Hk. destruct (Hmove k Hk) as (_ & _ & _ & _ & Hsum & Hyear).
    destruct (Hmove 0 ltac:(lia)) as (H0 & _).
    replace (m + 0) with m in H0 by lia. rewrite <- H0.
    rewrite !(new_Date_full_year tz) by lia. do 2 f_equal.
    rewrite (MakeDay_carry (y + (m + k) / 12)), (MakeDay_carry y m).
    pose proof (Z.div_mod (m + k) 12 ltac:(lia)).
    pose proof (Z.mod_pos_bound (m + k) 12 ltac:(lia)).
    pose proof (Z.div_mod ((m + k) mod 12 - k) 12 ltac:(lia)).
    pose proof (Z.mod_pos_bound ((m + k) mod 12 - k) 12 ltac:(lia)).
    pose proof (Z.div_mod m 12 ltac:(lia)).
    pose proof (Z.mod_pos_bound m 12 ltac:(lia)).
    f_equal; lia. }
  unfold goToNextMonth, goToPreviousMonth. cbn [currentMonth]. rewrite Hmonth.
  subst months. cbv beta.
  cbn [getFullYear getMonth getDate option_map add sub]. rewrite Ey, Em.
  destruct (Hmove 1 ltac:(lia)) as (Hn & Hy1 & Hm1 & Hd1 & Hs1 & _).
  destruct (Hmove (-1) ltac:(lia)) as (Hp & Hy2 & Hm2 & Hd2 & Hs2 & _).
  replace (m + -1) with (m - 1) in * by lia.
  rewrite Hn, Hp, Hy1, Hm1, Hy2, Hm2, Hd1, Hd2.
  cbn [option_map add sub].
  assert (Hb1 := Hback 1 ltac:(lia)).
  assert (Hb2 := Hback (-1) ltac:(lia)).
  replace (m + -1) with (m - 1) in Hb2 by lia.
  replace ((m - 1) mod 12 - -1) with ((m - 1) mod 12 + 1) in Hb2 by lia.
  rewrite Hb1, Hb2.
  split; [reflexivity|]. split; [f_equal; lia|]. split; [f_equal; lia|].
  split; [reflexivity|]. split; [reflexivity|].
  split; [reflexivity|]. split; [reflexivity|].
  intros Hdate Htime Hutc. injection Hdate as Hdate.
  assert (E : midnight tz (MakeDay y m 1) = t).
  { unfold midnight. rewrite Hfirst, Hdate.
    pose proof (Day_TimeWithinDay (LocalTime tz t)) as Hsplit.
    rewrite Htime in Hsplit.
    replace ((Day (LocalTime tz t) - (1 - 1)) * msPerDay)
      with (LocalTime tz t) by lia.
    exact Hutc. }
  rewrite E. split; reflexivity.
Qed.

(** From December 2026 in Santiago, over the turn of the year. *)
Lemma month_buttons_move_one_month_witness :
  let tz := santiago in
  let st := in_december in
  let t := 1796094000000 in
  let y := YearFromTime (LocalTime tz t) in
  let m := MonthFromTime (LocalTime tz t) in
  let months (d : Date) :=
    add (option_map (Z.mul 12) (getFullYear tz d)) (getMonth tz d) in
  months (currentMonth st) = Some (12 * y + m)
  /\ months (currentMonth (goToNextMonth tz st))
     = add (months (currentMonth st)) (Some 1)
  /\ months (currentMonth (goToPreviousMonth tz st))
     = sub (months (currentMonth st)) (Some 1)
  /\ getDate tz (currentMonth (goToNextMonth tz st)) = Some 1
  /\ getDate tz (currentMonth (goToPreviousMonth tz st)) = Some 1
  /\ currentMonth (goToPreviousMonth tz (goToNextMonth tz st))
     = Some (midnight tz (MakeDay y m 1))
  /\ currentMonth (goToNextMonth tz (goToPreviousMonth tz st))
     = Some (midnight tz (MakeDay y m 1))
  /\ (getDate tz (currentMonth st) = Some 1 ->
      TimeWithinDay (LocalTime tz t) = 0 ->
      UTC tz (LocalTime tz t) = t ->
      currentMonth (goToPreviousMonth tz (goToNextMonth tz st)) = currentMonth st
      /\ currentMonth (goToNextMonth tz (goToPreviousMonth tz st)) = currentMonth st).
Proof.
  refine (month_buttons_move_one_month santiago in_december 1796094000000
            santiago_regular _ _ _).
  - vm_compute. reflexivity.
  - vm_compute. discriminate.
  - right. vm_compute. reflexivity.
Defined.

End CalendarViews.

(** ** Date keys *)
Module DateKeyFacts.
Import JSDate Calendar Spec JSDateFacts CalendarFacts JSString App DateKey.
Open Scope string_scope.

Lemma length_append (s t : string) :
  String.length (s ++ t) = (String.length s + String.length t)%nat.
Proof. induction s as [|c s IH]; [reflexivity|]. cbn. rewrite IH. reflexivity. Qed.

(** Two texts with ends of the same length agree part by part. *)
Lemma append_same_end (s1 s2 t1 t2 : string) :
  String.length t1 = String.length t2 -> s1 ++ t1 = s2 ++ t2 ->
  s1 = s2 /\ t1 = t2.
Proof.
  intros Hlen. revert s2. induction s1 as [|c s1 IH]; intros [|c' s2] H.
  - split; [reflexivity | exact H].
  - exfalso. cbn in H. rewrite H in Hlen. cbn in Hlen.
    rewrite length_append in Hlen. lia.
  - exfalso. cbn in H. rewrite <- H in Hlen. cbn in Hlen.
    rewrite length_append in Hlen. lia.
  - cbn in H. injection H as -> H. destruct (IH s2 H) as [-> ->].
    split; reflexivity.
Qed.

(** The decimal text of an integer determines it. *)
Lemma ofNumber_inj (a b : Z) : ofNumber a = ofNumber b -> a = b.
Proof.
  assert (Hread : forall z,
             option_map Z.of_int (NilZero.int_of_string (ofNumber z)) = Some z).
  { intros z. unfold ofNumber. pose proof (DecimalZ.of_to z) as Hz.
    destruct (Z.to_int z) as [[| | | | | | | | | |]|[| | | | | | | | | |]] eqn:Hd;
      try (rewrite NilZero.isi by discriminate; cbn [option_map];
           rewrite Hz; reflexivity).
    - rewrite NilZero.isi_posnil. cbn [option_map]. rewrite <- Hz. reflexivity.
    - rewrite NilZero.isi_negnil. cbn [option_map]. rewrite <- Hz. reflexivity. }
  intros H. pose proof (Hread a) as Ha. rewrite H, Hread in Ha. congruence.
Qed.

Lemma field_ok_all (n : Z) : 1 <= n <= 31 -> field_ok n = true.
Proof.
  intros Hn.
  assert (H : forall_from 31 1 field_ok = true) by (vm_compute; reflexivity).
  apply (forall_from_spec _ _ _ H n). lia.
Qed.

Lemma field_length (n : Z) :
  1 <= n <= 31 -> String.length (padStart2 (ofNumber n)) = 2%nat.
Proof.
  intros Hn. pose proof (field_ok_all n Hn) as H. unfold field_ok in H.
  apply andb_true_iff in H. destruct H as [_ H]. apply Nat.eqb_eq. exact H.
Qed.

Lemma field_inj (n n' : Z) :
  1 <= n <= 31 -> 1 <= n' <= 31 ->
  padStart2 (ofNumber n) = padStart2 (ofNumber n') -> n = n'.
Proof.
  intros Hn Hn' H.
  pose proof (field_ok_all n Hn) as H1. pose proof (field_ok_all n' Hn') as H2.
  unfold field_ok in H1, H2. apply andb_true_iff in H1, H2.
  destruct H1 as [H1 _]. destruct H2 as [H2 _].
  apply Z.eqb_eq in H1, H2. rewrite H in H1. congruence.
Qed.

(** The key of a valid date: the year, the month and the day of its
    local day. *)
Lemma toISODate_fields (tz : TimeZone) (t : Z) :
  exists y m d : Z,
    toISODate tz (Some t)
    = ofNumber y ++ "-" ++ padStart2 (ofNumber m) ++ "-" ++ padStart2 (ofNumber d)
    /\ days_from_civil y m d = local_day tz t
    /\ 1 <= m <= 12 /\ 1 <= d <= 31.
Proof.
  unfold toISODate, getFullYear, getMonth, getDate, YearFromTime,
    MonthFromTime, DateFromTime. cbn [option_map add text].
  fold (local_day tz t).
  pose proof (civil_from_days_inv (local_day tz t)) as H.
  destruct (civil_from_days (local_day tz t)) as [[y m] d].
  cbn [fst snd]. destruct H as (H & Hm & Hd).
  exists y, m, d. replace (m - 1 + 1) with m by lia.
  repeat split; try assumption; lia.
Qed.

(** The key of a date is the key of its local day, two days with the
    same key are the same day, and the key of an invalid date is the
    key of no day. *)
Lemma toISODate_day (tz : TimeZone) (a b : Date) :
  toISODate tz a = toISODate tz b
  <-> option_map (local_day tz) a = option_map (local_day tz) b.
Proof.
  assert (Hnan : forall t, toISODate tz (Some t) <> toISODate tz None).
  { intros t H. destruct (toISODate_fields tz t) as (y & m & d & E & _ & Hm & Hd).
    rewrite E in H. change (toISODate tz None) with ("NaN-N" ++ "aN-NaN") in H.
    apply append_same_end in H.
    2:{ cbn [String.append String.length]. rewrite !length_append.
        cbn [String.append String.length].
        rewrite !field_length by lia. reflexivity. }
    destruct H as [_ H]. cbn [String.append] in H. discriminate H. }
  destruct a as [a|], b as [b|]; cbn [option_map].
  - split.
    + destruct (toISODate_fields tz a) as (ya & ma & da & Ea & Ha & Hma & Hda).
      destruct (toISODate_fields tz b) as (yb & mb & db & Eb & Hb & Hmb & Hdb).
      rewrite Ea, Eb. intros H.
      apply append_same_end in H.
      2:{ cbn [String.append String.length]. rewrite !length_append.
          cbn [String.append String.length].
          rewrite !field_length by lia. reflexivity. }
      destruct H as [Hy H]. cbn [String.append] in H. injection H as H.
      apply append_same_end in H.
      2:{ cbn [String.append String.length]. rewrite !field_length by lia.
          reflexivity. }
      destruct H as [Hm H]. cbn [String.append] in H. injection H as Hd.
      apply ofNumber_inj in Hy. apply field_inj in Hm; [|lia|lia].
      apply field_inj in Hd; [|lia|lia]. f_equal. congruence.
    + intros H. injection H as H.
      unfold toISODate, getFullYear, getMonth, getDate, YearFromTime,
        MonthFromTime, DateFromTime. cbn [option_map].
      fold (local_day tz a) (local_day tz b). rewrite H. reflexivity.
  - split; [intros H; destruct (Hnan a H)|discriminate].
  - split; [intros H; symmetry in H; destruct (Hnan b H)|discriminate].
  - split; reflexivity.
Qed.

(** A week start is an invalid date or the start of a day. *)
Lemma getWeekStart_form (tz : TimeZone) (d : Date) :
  getWeekStart tz d = None
  \/ exists D : Z, getWeekStart tz d = Some (midnight tz D).
Proof.
  unfold getWeekStart.
  destruct (setDate tz d (sub (getDate tz d) (getDay tz d))) as [u|];
    [|left; reflexivity].
  rewrite setHours_midnight. unfold TimeClip.
  destruct (Z.abs (midnight tz (local_day tz u)) <=? maxTime)%Z;
    [right; eexists; reflexivity|left; reflexivity].
Qed.

End DateKeyFacts.

Section DateKeys.
Import App ViewFacts DateKeyFacts.

(** X24: the date key names the local day: two dates have the same key
    exactly when they lie on the same local day, or are both invalid;
    and in a regular time zone the week starts of two dates have the
    same key, the one under which the week's assignments are stored,
    exactly when the two week starts are the same date. *)
Theorem toISODate_names_the_day (tz : TimeZone) (a b : Date) :
  (toISODate tz a = toISODate tz b
   <-> option_map (local_day tz) a = option_map (local_day tz) b)
  /\ (regular tz ->
      (toISODate tz (getWeekStart tz a) = toISODate tz (getWeekStart tz b)
       <-> getWeekStart tz a = getWeekStart tz b)).
Proof.
  split; [apply toISODate_day|]. intros Hreg.
  rewrite toISODate_day.
  destruct (getWeekStart_form tz a) as [->|[Da ->]];
    destruct (getWeekStart_form tz b) as [->|[Db ->]];
    cbn [option_map]; rewrite ?(local_day_midnight tz Hreg);
    split; intros H; try discriminate H; try reflexivity;
    injection H as H; [rewrite H; reflexivity|].
  f_equal. rewrite <- (local_day_midnight tz Hreg Da),
             <- (local_day_midnight tz Hreg Db), H. reflexivity.
Qed.

(** X25: the month view agrees with the week grid, in a regular time
    zone: for a week on display that starts on a Sunday, a year or more
    inside the range of time values, and the day in column [i] of it,
    the people the month view marks are the people who have an
    assignment in that cell of the grid. *)
Theorem month_view_agrees_with_week_grid (tz : TimeZone)
  (people : list Person.row) (assignments : list Assignment.row)
  (start : Z) (i : nat) (p : Person.row) :
  regular tz -> comfortable start ->
  getDay tz (Some start) = Some 0 -> (i < 7)%nat ->
  let s : Date := Some start in
  In p (getPeopleWithChoresForDate tz people assignments
          (nth i (weekDates tz s) None))
  <-> In p people
      /\ getAssignmentsForCell assignments (toISODate tz s) (Person.id p)
           (Z.of_nat i) <> [].
Proof.
  intros Hreg Hr Hsun Hi s. subst s.
  cbn [getDay option_map] in Hsun. injection Hsun as Hsun.
  assert (HS : sunday (local_day tz start)) by exact Hsun.
  pose proof (moved_near tz Hreg start (Z.of_nat i)) as Hnear.
  set (u := UTC tz (LocalTime tz start + Z.of_nat i * msPerDay)) in *.
  assert (Hnth : nth i (weekDates tz (Some start)) None = Some u).
  { rewrite (weekDates_eq tz Hreg)
      by (unfold comfortable, within, maxTime, msPerDay in *; lia).
    apply (nth_week (fun i => Some (UTC tz (LocalTime tz start
                                            + Z.of_nat i * msPerDay)))).
    exact Hi. }
  assert (Hlocal : local_day tz u = local_day tz start + Z.of_nat i)
    by apply (local_day_moved tz Hreg).
  assert (Hweek : toISODate tz (getWeekStart tz (Some u))
                  = toISODate tz (Some start)).
  { rewrite (getWeekStart_eq tz Hreg)
      by (unfold comfortable, within, maxTime, msPerDay in *; lia).
    apply toISODate_day. cbn [option_map]. f_equal.
    rewrite (local_day_midnight tz Hreg), Hlocal.
    apply sunday_of_span; [exact HS|lia]. }
  assert (Hday : getDay tz (Some u) = Some (Z.of_nat i)).
  { cbn [getDay option_map]. f_equal.
    change (WeekDay (LocalTime tz u)) with ((local_day tz u + 4) mod 7).
    rewrite Hlocal. apply WeekDay_of_sunday; [exact HS|lia]. }
  clearbody u.
  rewrite Hnth. unfold getPeopleWithChoresForDate, getAssignmentsForCell.
  rewrite Hweek, Hday. cbn [strict_eq].
  rewrite filter_In. split.
  - intros [Hin Hex]. split; [exact Hin|].
    apply existsb_exists in Hex. destruct Hex as (x & Hx & Heq).
    apply String.eqb_eq in Heq. subst x. apply in_map_iff in Hx.
    destruct Hx as (a & Hpid & Ha). apply filter_In in Ha.
    destruct Ha as [Ha Hkey].
    assert (Hcell : In a (filter
                            (fun a => (Assignment.person_id a =? Person.id p)
                                      && (Assignment.week_start_iso a
                                          =? toISODate tz (Some start))
                                      && (Assignment.day_index a
                                          =? Z.of_nat i)%Z)%bool
                            assignments)).
    { apply filter_In. split; [exact Ha|]. rewrite Hpid, String.eqb_refl.
      exact Hkey. }
    intros Hnil. rewrite Hnil in Hcell. destruct Hcell.
  - intros [Hin Hcell]. split; [exact Hin|].
    destruct (filter _ assignments) as [|a l] eqn:Hf; [contradiction|].
    assert (Ha : In a (a :: l)) by (left; reflexivity).
    rewrite <- Hf in Ha. apply filter_In in Ha. destruct Ha as [Ha Hkey].
    apply andb_true_iff in Hkey. destruct Hkey as [Hkey Hdayi].
    apply andb_true_iff in Hkey. destruct Hkey as [Hpid Hwk].
    apply existsb_exists. exists (Assignment.person_id a).
    split; [|exact Hpid]. apply in_map. apply filter_In.
    split; [exact Ha|]. rewrite Hwk, Hdayi. reflexivity.
Qed.

(** The week of the clock change in Santiago, which starts on Sunday 6
    September 2026 at 01:00, and Jo's dishes on its Wednesday. *)
Lemma month_view_agrees_with_week_grid_witness :
  let tz := santiago in
  let s : Date := Some september_change in
  let jo := Person.mk "jo-1" "smith" "Jo" "jo@x.com" None "#f97373" in
  let dishes := Assignment.mk "a-1" "smith" "jo-1" "dishes-1" "2026-09-06" 3 in
  In jo (getPeopleWithChoresForDate tz [jo] [dishes] (nth 3 (weekDates tz s) None))
  <-> In jo [jo]
      /\ getAssignmentsForCell [dishes] (toISODate tz s) (Person.id jo)
           (Z.of_nat 3) <> [].
Proof.
  intros tz s jo dishes.
  refine (month_view_agrees_with_week_grid santiago [jo] [dishes]
            september_change 3 jo santiago_regular _ _ _).
  - vm_compute. discriminate.
  - vm_compute. reflexivity.
  - lia.
Defined.

End DateKeys.

(** ** The cached family and the server *)
Module CacheFacts.
Import JSString Store Http Routes Api RouteFacts.
Open Scope string_scope.

(** [a.person_id] is the person of the row; [a.choreId] is not a
    property of the object. *)
Lemma get_person_id (a : Assignment.row) (personId : string) :
  App.strict_ne (App.get a "person_id") (App.Str personId)
  = negb (Assignment.person_id a =? personId).
Proof. reflexivity. Qed.

Lemma get_choreId (a : Assignment.row) (choreId : string) :
  App.strict_ne (App.get a "choreId") (App.Str choreId) = true.
Proof. reflexivity. Qed.

End CacheFacts.

Section CachedFamily.
Import CacheFacts Samples.

(** X26: removing a person keeps the cache in step with the server: when
    the cache shows what the store holds of the family for the week on
    display, it does so again after [handleRemovePerson] has taken the
    response to the [DELETE] request, whatever the response was. *)
Theorem handleRemovePerson_keeps_sync (hash : string -> string)
  (now : nat -> N) (user : token_payload) (personId : string) (db : database)
  (fam : App.Family) (fid week : string) :
  App.in_sync fam db fid week ->
  exists fam',
    App.handleRemovePerson (fst (handle hash now user (DeletePerson personId) db))
      personId (Some fam) = Some fam'
    /\ App.in_sync fam' (snd (handle hash now user (DeletePerson personId) db))
         fid week.
Proof.
  intros Hsync. pose proof Hsync as (Hp & Hc & Ha).
  cbn [handle]. unfold Routes.delete_person.
  destruct (person_by_id db personId) as [p0|];
    [destruct (not_admin_of user (Person.family_id p0))|];
    try (exists fam; split; [reflexivity | exact Hsync]).
  unfold Store.delete_person. cbn [fst snd].
  eexists. split; [reflexivity|]. unfold App.in_sync.
  cbn [App.people App.chores App.assignments people chores assignments].
  split; [|split; [exact Hc|]].
  - intros p. rewrite !filter_In, Hp, filter_In. tauto.
  - intros a. rewrite !filter_In, get_person_id, Ha, filter_In. tauto.
Qed.

Lemma handleRemovePerson_keeps_sync_witness :
  exists fam',
    App.handleRemovePerson
      (fst (handle sample_hash sample_now founder (DeletePerson jo_id)
              two_families))
      jo_id (Some smith_cache) = Some fam'
    /\ App.in_sync fam'
         (snd (handle sample_hash sample_now founder (DeletePerson jo_id)
                 two_families))
         smith_id "2026-02-15".
Proof.
  apply (handleRemovePerson_keeps_sync sample_hash sample_now founder jo_id
           two_families smith_cache smith_id "2026-02-15").
  split; [|split]; intros x; split; intros H; exact H.
Defined.

(** X27: removing a chore leaves the cache behind the server: the filter
    of [handleRemoveChore] reads [choreId], which the assignment objects
    of the API do not have, so it keeps every cached assignment.  After a
    [DELETE] answered 200 an assignment of the removed chore is still in
    the cache, though the store no longer has it. *)
Theorem handleRemoveChore_keeps_assignments (hash : string -> string)
  (now : nat -> N) (user : token_payload) (choreId : string) (db : database)
  (fam : App.Family) (a : Assignment.row) :
  status (fst (handle hash now user (DeleteChore choreId) db)) = 200 ->
  In a (App.assignments fam) -> Assignment.chore_id a = choreId ->
  exists fam',
    App.handleRemoveChore (fst (handle hash now user (DeleteChore choreId) db))
      choreId (Some fam) = Some fam'
    /\ App.assignments fam' = App.assignments fam
    /\ In a (App.assignments fam')
    /\ ~ In a (assignments (snd (handle hash now user (DeleteChore choreId) db))).
Proof.
  cbn [handle]. unfold Routes.delete_chore.
  destruct (chore_by_id db choreId) as [c0|]; [|discriminate].
  destruct (not_admin_of user (Chore.family_id c0)); [discriminate|].
  unfold Store.delete_chore. cbn [fst snd assignments].
  intros _ Hin Hchore. eexists. split; [reflexivity|].
  cbn [App.assignments].
  rewrite (filter_keeps_all _ (App.assignments fam))
    by (intros x _; apply get_choreId).
  split; [reflexivity | split; [exact Hin|]].
  intros Hstill. apply filter_In in Hstill. destruct Hstill as [_ Hne].
  rewrite Hchore, String.eqb_refl in Hne. discriminate.
Qed.

Lemma handleRemoveChore_keeps_assignments_witness :
  exists fam',
    App.handleRemoveChore
      (fst (handle sample_hash sample_now founder (DeleteChore dishes_id)
              two_families))
      dishes_id (Some smith_cache) = Some fam'
    /\ App.assignments fam' = App.assignments smith_cache
    /\ In wednesday_dishes (App.assignments fam')
    /\ ~ In wednesday_dishes
         (assignments (snd (handle sample_hash sample_now founder
                              (DeleteChore dishes_id) two_families))).
Proof.
  refine (handleRemoveChore_keeps_assignments sample_hash sample_now founder
            dishes_id two_families smith_cache wednesday_dishes _ _ eq_refl).
  - vm_compute. reflexivity.
  - vm_compute. do 3 right. left. reflexivity.
Defined.

End CachedFamily.

(** X28: adding an admin and removing that admin again gives back the
    store: on a reachable store, when [POST /:familyId/admins] is
    answered 201, the removal of the new admin under the same claims
    (not those of the new admin) is answered 200 and leaves the store as
    it was before the two requests. *)
Theorem post_then_delete_admin (hash : string -> string) (now : nat -> N)
  (user : token_payload) (fid : string) (email password : option string)
  (db : database) :
  reachable db ->
  status (fst (post_admin hash user fid email password now db)) = 201 ->
  let adminId := "admin-" ++ toString36 (now 0%nat) in
  is_self user adminId = false ->
  body (fst (post_admin hash user fid email password now db))
  = AdminCreated adminId (str email) fid
  /\ Families.delete_admin user fid adminId
       (snd (post_admin hash user fid email password now db))
     = (ok (Message "Admin removed successfully"), db).
Proof.
  intros Hr H201 adminId Hself. revert H201. unfold post_admin.
  destruct (not_admin_of user fid) eqn:Hguard; [discriminate|].
  destruct (negb (truthy email) || negb (truthy password))%bool; [discriminate|].
  fold adminId.
  destruct (insert_admin _ db) as [e|db'] eqn:Hins.
  { destruct e; discriminate. }
  intros _. cbn [fst snd body reply]. split; [reflexivity|].
  unfold insert_admin in Hins. cbn [Admin.id Admin.family_id] in Hins.
  first_check Hins Hfresh; [discriminate|].
  first_check Hins Hdup; [discriminate|].
  first_check Hins Hfk; [discriminate|].
  injection Hins as <-. apply negb_false_iff in Hfk.
  destruct (reachable_sound db Hr) as (_ & _ & _ & Hadmins).
  unfold family_exists in Hfk. apply existsb_exists in Hfk.
  destruct Hfk as (f & Hf & Hfid). apply String.eqb_eq in Hfid.
  specialize (Hadmins f Hf). rewrite Hfid in Hadmins.
  unfold Families.delete_admin. rewrite Hguard, Hself.
  unfold count_admins in *. cbn [admins]. rewrite filter_app, length_app.
  cbn [filter Admin.family_id]. rewrite String.eqb_refl. cbn [List.length].
  destruct (Z.leb_spec (Z.of_nat (List.length (filter (fun a => Admin.family_id a =? fid)
                                                 (admins db)) + 1)) 1);
    [lia|].
  unfold Store.delete_admin. cbn [families admins people chores assignments].
  rewrite filter_app. cbn [filter Admin.id Admin.family_id].
  rewrite !String.eqb_refl. cbn [andb negb]. rewrite app_nil_r.
  rewrite filter_keeps_all.
  - destruct db; reflexivity.
  - intros a Ha. rewrite (existsb_false_In _ (admins db) a Hfresh Ha).
    reflexivity.
Qed.

Lemma post_then_delete_admin_witness :
  let adminId := "admin-" ++ toString36 (later 0%nat) in
  body (fst (post_admin sample_hash founder smith_id (Some "second@x.com")
               (Some "pw789") later two_families))
  = AdminCreated adminId (str (Some "second@x.com")) smith_id
  /\ Families.delete_admin founder smith_id adminId
       (snd (post_admin sample_hash founder smith_id (Some "second@x.com")
               (Some "pw789") later two_families))
     = (ok (Message "Admin removed successfully"), two_families).
Proof.
  refine (post_then_delete_admin sample_hash later founder smith_id
            (Some "second@x.com") (Some "pw789") two_families _ _ _).
  - apply household_reachable.
  - vm_compute. reflexivity.
  - vm_compute. reflexivity.
Defined.

(** X29: ids are made of the name and the clock in milliseconds: after a
    person was added, adding a person with the same name while the clock
    still shows the same millisecond is answered 500 and changes
    nothing (the second email being unused in the family, so that the
    primary key is the one constraint violated). *)
Theorem same_name_same_millisecond_500 (user : token_payload) (fid : string)
  (name email phone email' phone' : option string) (now now' : nat -> N)
  (db : database) :
  status (fst (post_person user fid name email phone now db)) = 201 ->
  now' 0%nat = now 0%nat -> truthy email' = true ->
  existsb (fun p => (Person.family_id p =? fid)
                    && (Person.email p =? str email'))%bool
          (people (snd (post_person user fid name email phone now db))) = false ->
  post_person user fid name email' phone' now'
    (snd (post_person user fid name email phone now db))
  = (reply 500 (Error "Internal server error"),
     snd (post_person user fid name email phone now db)).
Proof.
  intros H201 Hclock Hemail _.
  destruct (post_person_created user fid name email phone now db H201)
    as (Hguard & Hname & row & Hid & Hpeople).
  unfold post_person at 1. rewrite Hguard, Hname, Hemail. cbn [negb orb].
  unfold insert_person. cbn [Person.id]. rewrite Hclock, Hpeople, <- Hid.
  rewrite existsb_snoc, String.eqb_refl, orb_true_r. reflexivity.
Qed.

Lemma same_name_same_millisecond_500_witness :
  post_person founder smith_id (Some "Sam") (Some "sam2@x.com") None later
    (snd (post_person founder smith_id (Some "Sam") (Some "sam@x.com") None
            later two_families))
  = (reply 500 (Error "Internal server error"),
     snd (post_person founder smith_id (Some "Sam") (Some "sam@x.com") None
            later two_families)).
Proof.
  refine (same_name_same_millisecond_500 founder smith_id (Some "Sam")
            (Some "sam@x.com") None (Some "sam2@x.com") None later later
            two_families _ eq_refl eq_refl _).
  - vm_compute. reflexivity.
  - vm_compute. reflexivity.
Defined.
